(** * Bulk e-mail campaign pipeline: a shallow embedding

    The development follows [email_app.py] (ConfigurationManager,
    CSVReader, TemplateRenderer, AttachmentHandler, EmailSender,
    EmailApplication) and, of [email_gui.py], the worker thread
    (EmailWorker), the selector of the e-mail column and the preparation
    of the recipients in the main window.

    Conventions.
    - A Python [str] is a [string]; every character stands for one code
      point below 256.
    - A Python [dict] is an association list in insertion order whose keys
      are pairwise distinct; its keys are [str] or [None].
    - Code that logs, emits Qt signals, talks to the SMTP server or raises
      is written in a small monad: a computation appends to a trace of
      events and ends in a value or in an exception.
    - The operating system and the libraries the program calls (the file
      system, [csv], [json], [mimetypes], [jinja2], [smtplib]) are
      parameters.  What they give may depend on what has happened so far
      where the program can tell: the answer of the server on the number
      of earlier uses, the rendering of Jinja2 on the trace.
    - A value read from a JSON file is a tree of [None], [bool], [int],
      [float], [str], [list] and [dict]; a [float] is a binary64
      number. *)

From Stdlib Require Import ZArith List String Ascii Bool Arith Lia.
From Stdlib Require Import Numbers.DecimalString.
From Stdlib Require Import PrimFloat.
Import ListNotations.
Open Scope string_scope.

(* ===================================================================== *)
(** ** Python strings *)
(* ===================================================================== *)

Module PyStr.

(** [str(n)] for an [int]. *)
Definition str_of_Z (z : Z) : string := NilZero.string_of_int (Z.to_int z).

Definition str_of_nat (n : nat) : string := str_of_Z (Z.of_nat n).

(** [sep.join(l)]. *)
Definition join (sep : string) (l : list string) : string := String.concat sep l.

(** [s.startswith(p)]. *)
Definition startswith (s p : string) : bool := String.prefix p s.

(** [p in s]: [p] occurs in [s]. *)
Fixpoint contains (s p : string) : bool :=
  if String.prefix p s then true
  else match s with
       | EmptyString => false
       | String _ s' => contains s' p
       end.

(** [c in s] for a single character. *)
Fixpoint has_char (c : ascii) (s : string) : bool :=
  match s with
  | EmptyString => false
  | String d s' => Ascii.eqb c d || has_char c s'
  end.

(** The scan of [str.replace] for a non-empty [old]: left to right, an
    occurrence of [old] is replaced by [new] and the scan resumes after
    it.  [skip] counts the characters of the occurrence still to pass. *)
Fixpoint replace_scan (old new s : string) (skip : nat) : string :=
  match s with
  | EmptyString => EmptyString
  | String c s' =>
      match skip with
      | S k => replace_scan old new s' k
      | O =>
          if String.prefix old s
          then new ++ replace_scan old new s' (String.length old - 1)
          else String c (replace_scan old new s' 0)
      end
  end.

(** [str.replace] with an empty [old] puts [new] before every character
    and at the end. *)
Fixpoint intersperse (new s : string) : string :=
  match s with
  | EmptyString => new
  | String c s' => new ++ String c (intersperse new s')
  end.

(** [s.replace(old, new)]. *)
Definition replace (s old new : string) : string :=
  match old with
  | EmptyString => intersperse new s
  | String _ _ => replace_scan old new s 0
  end.

(** [c.isspace()] for a code point below 256: tab, line feed, vertical
    tab, form feed, carriage return, the separators 0x1c to 0x1f, space,
    next line (0x85) and no-break space (0xa0). *)
Definition isspace (c : ascii) : bool :=
  let n := nat_of_ascii c in
  (Nat.leb 9 n && Nat.leb n 13) || (Nat.leb 28 n && Nat.leb n 32)
  || Nat.eqb n 133 || Nat.eqb n 160.

Fixpoint lstrip (s : string) : string :=
  match s with
  | EmptyString => EmptyString
  | String c s' => if isspace c then lstrip s' else s
  end.

Fixpoint rstrip (s : string) : string :=
  match s with
  | EmptyString => EmptyString
  | String c s' =>
      match rstrip s' with
      | EmptyString => if isspace c then EmptyString else String c EmptyString
      | r => String c r
      end
  end.

(** [s.strip()]. *)
Definition strip (s : string) : string := rstrip (lstrip s).

(** Truth value of a [str]: non-empty. *)
Definition truthy (s : string) : bool :=
  match s with EmptyString => false | String _ _ => true end.

Definition hex_digit (n : nat) : ascii :=
  if Nat.ltb n 10 then ascii_of_nat (48 + n) else ascii_of_nat (87 + n).

(** [repr(s)]: single quotes unless [s] has a single quote and no double
    quote; backslash and the quote are escaped, tab, line feed and
    carriage return have their letters, other non-printable code points
    are written [\xhh]. *)
Definition printable (n : nat) : bool :=
  (Nat.leb 32 n && Nat.ltb n 127) || (Nat.leb 161 n && negb (Nat.eqb n 173)).

Definition backslash : ascii := ascii_of_nat 92.
Definition single_quote : ascii := ascii_of_nat 39.
Definition double_quote : ascii := ascii_of_nat 34.

Definition repr_char (quote : ascii) (c : ascii) : string :=
  let n := nat_of_ascii c in
  if Ascii.eqb c quote || Ascii.eqb c backslash
  then String backslash (String c EmptyString)
  else if Nat.eqb n 9 then String backslash "t"
  else if Nat.eqb n 10 then String backslash "n"
  else if Nat.eqb n 13 then String backslash "r"
  else if printable n then String c EmptyString
  else String backslash (String "x"%char
         (String (hex_digit (n / 16)) (String (hex_digit (n mod 16)) EmptyString))).

Fixpoint repr_body (quote : ascii) (s : string) : string :=
  match s with
  | EmptyString => EmptyString
  | String c s' => repr_char quote c ++ repr_body quote s'
  end.

Definition repr (s : string) : string :=
  let quote :=
    if has_char single_quote s && negb (has_char double_quote s)
    then double_quote else single_quote in
  String quote (repr_body quote s ++ String quote EmptyString).

(** [str(l)] for a list of [str]. *)
Definition str_of_list (l : list string) : string :=
  "[" ++ join ", " (map repr l) ++ "]".

End PyStr.

(* ===================================================================== *)
(** ** Python dictionaries *)
(* ===================================================================== *)

Module PyDict.

(** A key is a [str] or [None] ([csv.DictReader] files the surplus cells
    of a long row under [None]). *)
Definition key := option string.

Definition key_eqb (a b : key) : bool :=
  match a, b with
  | Some x, Some y => String.eqb x y
  | None, None => true
  | _, _ => false
  end.

(** [str(k)], as an f-string formats a key. *)
Definition key_str (k : key) : string :=
  match k with Some s => s | None => "None" end.

Definition dict (V : Type) := list (key * V).

(** [d.get(k)]. *)
Fixpoint get {V : Type} (d : dict V) (k : key) : option V :=
  match d with
  | [] => None
  | (k', v) :: d' => if key_eqb k' k then Some v else get d' k
  end.

(** [d.get(k, default)]. *)
Definition get_or {V : Type} (d : dict V) (k : key) (default : V) : V :=
  match get d k with
  | Some v => v
  | None => default
  end.

(** [d[k] = v]: a key already present keeps its place. *)
Fixpoint set {V : Type} (d : dict V) (k : key) (v : V) : dict V :=
  match d with
  | [] => [(k, v)]
  | (k', v') :: d' =>
      if key_eqb k' k then (k', v) :: d' else (k', v') :: set d' k v
  end.

(** [dict(pairs)]: the pairs are stored one after the other. *)
Definition of_pairs {V : Type} (pairs : list (key * V)) : dict V :=
  fold_left (fun d kv => set d (fst kv) (snd kv)) pairs [].

Definition keys {V : Type} (d : dict V) : list key := map fst d.
Definition values {V : Type} (d : dict V) : list V := map snd d.

End PyDict.

(** One recipient: the cleaned row of the CSV file. *)
Definition record := PyDict.dict string.

(** The key ['email']. *)
Definition email_key : PyDict.key := Some "email".

(* ===================================================================== *)
(** ** Messages, events and the outside world *)
(* ===================================================================== *)

(** The ['smtp'] section of the configuration. *)
Record smtp_config := {
  smtp_server : string;
  smtp_port : Z;
  smtp_username : string;
  smtp_password : string;
  smtp_use_tls : bool;
  smtp_use_ssl : bool;
  smtp_timeout : Z
}.

(** The MIME classes [create_attachment] and [send_email] instantiate. *)
Inductive mime_class := MIMEText | MIMEImage | MIMEAudio | MIMEApplication.

Record mime_part := {
  part_class : mime_class;
  part_subtype : string;
  part_payload : string;
  part_disposition : option string
}.

(** The [MIMEMultipart('alternative')] message of [send_email]. *)
Record message := {
  msg_from : string;
  msg_to : string;
  msg_subject : string;
  msg_parts : list mime_part
}.

(** What one use of the SMTP server comes to, from the connection to the
    exit of the [with] block of [send_email]: the connection cannot be
    made ([smtplib.SMTPAuthenticationError], another
    [smtplib.SMTPException], any other exception); [send_message] raises
    ([e] is the text of the exception that leaves the block: that of
    [send_message], or that of the exit of the block when it raises too);
    [send_message] returns and the exit of the block raises (the server
    answers [QUIT] with a code other than 221); or the message is handed
    over and the connection is closed. *)
Inductive smtp_outcome :=
| AuthenticationFailed (e : string)
| SmtpException (e : string)
| ConnectionFailed (e : string)
| SendMessageFailed (e : string)
| ExitFailed (e : string)
| Delivered.

(** The results dictionary of a bulk run. *)
Record results := {
  total : nat;
  sent : nat;
  failed : nat;
  errors : list string;
  success : bool
}.

Inductive level := DEBUG | INFO | ERROR.

(** What the program does to the outside, in the order it does it: calls
    of the logger, uses of the SMTP server, signals of the worker. *)
Inductive event :=
| Log (lv : level) (text : string)
| LogEmailSuccess (recipient subject : string) (attachments : nat)
| LogEmailFailure (recipient error subject : string)
| LogSmtpConnection (host : string) (port : Z) (user : string)
| Smtp (cfg : smtp_config) (msg : message) (res : smtp_outcome)
| ProgressUpdated (current total : nat)
| StatusUpdated (text : string)
| EmailSent (recipient : string) (ok : bool) (error : string)
| Finished (r : results)
| ErrorOccurred (text : string).

Definition trace := list event.

(** An entry of the file system.  [size] is what [os.path.getsize]
    reports; [data] is what reading the file gives, its bytes or the text
    of the [OSError].  The two are kept apart so that a file of many
    megabytes can be written down. *)
Inductive fs_node :=
| Absent
| NotRegular
| Regular (size : Z) (data : string + string).

(** The operating system and the libraries. *)
Record Env := {
  (** the file system *)
  fs : string -> fs_node;
  (** text of the [OSError] of [open] on a path that is no regular file *)
  open_error : string -> string;
  (** strict UTF-8 decoding of the whole of a file: the text, or the text
      of the [UnicodeDecodeError] *)
  utf8_decode : string -> string + string;
  (** for the bytes of a file that does not decode, what a reader that
      decodes as it reads gets before the [UnicodeDecodeError]: [None]
      when the first [read(1024)] already fails, else the characters of
      that read and the text of the lines read before the error *)
  utf8_before_error : string -> option (string * string);
  (** [bytes.decode('utf-8', errors='replace')] *)
  utf8_decode_replace : string -> string;
  (** [csv.Sniffer().sniff(sample).delimiter]; [None] is [csv.Error] *)
  csv_sniff : string -> option string;
  (** [csv.reader(text, delimiter)]: the rows it yields and, if it then
      raises [csv.Error], the text of the error *)
  csv_reader : string -> string -> list (list string) * option string;
  (** [mimetypes.guess_type] *)
  guess_type : string -> option string * option string;
  (** [JINJA2_AVAILABLE] and, when it is, [Template(src).render] on the
      record: the rendered text or the text of the exception.  A template
      can draw random values, so the outcome may differ from one call to
      the next: it is given for what has happened so far *)
  jinja2 : option (trace -> string -> record -> string + string);
  (** the SMTP server: the outcome of a use, given how many uses came
      before, the configuration and the message *)
  smtp : nat -> smtp_config -> message -> smtp_outcome
}.

(* ===================================================================== *)
(** ** Exceptions and the monad of effects *)
(* ===================================================================== *)

Inductive exn :=
| EmailAppError (msg : string)
| ConfigurationError (msg : string)
| EmailSendError (msg : string)
| TemplateError (msg : string)
| CSVError (msg : string)
| KeyError (k : string)
| AttributeError (msg : string)
| TypeError (msg : string)
| CsvModuleError (msg : string)
| UnicodeDecodeError (msg : string)
| OSError (msg : string)
| OtherException (msg : string).

(** [str(e)]. *)
Definition exn_str (e : exn) : string :=
  match e with
  | EmailAppError m | ConfigurationError m | EmailSendError m | TemplateError m
  | CSVError m | AttributeError m | TypeError m
  | CsvModuleError m | UnicodeDecodeError m | OSError m
  | OtherException m => m
  | KeyError k => PyStr.repr k
  end.

Inductive outcome (A : Type) :=
| Return (a : A)
| Raise (e : exn).
Arguments Return {A} a.
Arguments Raise {A} e.

(** A computation extends the trace and returns or raises. *)
Definition M (A : Type) := trace -> outcome A * trace.

Definition ret {A : Type} (a : A) : M A := fun t => (Return a, t).

Definition raise {A : Type} (e : exn) : M A := fun t => (Raise e, t).

Definition bind {A B : Type} (m : M A) (k : A -> M B) : M B :=
  fun t => match m t with
           | (Return a, t') => k a t'
           | (Raise e, t') => (Raise e, t')
           end.

(** [try: m except Exception as e: h e]. *)
Definition try_except {A : Type} (m : M A) (h : exn -> M A) : M A :=
  fun t => match m t with
           | (Return a, t') => (Return a, t')
           | (Raise e, t') => h e t'
           end.

Definition emit (e : event) : M unit := fun t => (Return tt, (t ++ [e])%list).

(** The trace so far. *)
Definition history : M trace := fun t => (Return t, t).

Declare Scope py_scope.
Delimit Scope py_scope with py.
Notation "x <- m ;; k" := (bind m (fun x => k))
  (at level 61, m at next level, right associativity) : py_scope.
Notation "m ;;; k" := (bind m (fun _ => k))
  (at level 61, right associativity) : py_scope.
Open Scope py_scope.

(** [for x in l: body x], threading an accumulator. *)
Fixpoint for_each {A S : Type} (l : list A) (body : A -> S -> M S) (s : S) : M S :=
  match l with
  | [] => ret s
  | x :: l' => s' <- body x s ;; for_each l' body s'
  end.

Definition is_smtp (e : event) : bool :=
  match e with Smtp _ _ _ => true | _ => false end.

(** The uses of the SMTP server in a trace. *)
Definition smtp_calls (t : trace) : list event := filter is_smtp t.

Definition is_email_sent (e : event) : bool :=
  match e with EmailSent _ _ _ => true | _ => false end.

(* ===================================================================== *)
(** ** JSON values *)
(* ===================================================================== *)

(** A value [json.load] gives: [None], a [bool], an [int], a [float], a
    [str], a [list] or a [dict] with [str] keys. *)
#[warnings="-register-all"] Inductive json :=
| JNull
| JBool (b : bool)
| JInt (z : Z)
| JFloat (f : float)
| JStr (s : string)
| JList (l : list json)
| JDict (d : list (PyDict.key * json)).

(** The truth value of a value. *)
Definition json_truthy (v : json) : bool :=
  match v with
  | JNull => false
  | JBool b => b
  | JInt z => negb (z =? 0)%Z
  | JFloat f => negb (PrimFloat.eqb f PrimFloat.zero)
  | JStr s => PyStr.truthy s
  | JList l => match l with [] => false | _ :: _ => true end
  | JDict d => match d with [] => false | _ :: _ => true end
  end.

(** [type(v).__name__]. *)
Definition type_name (v : json) : string :=
  match v with
  | JNull => "NoneType"
  | JBool _ => "bool"
  | JInt _ => "int"
  | JFloat _ => "float"
  | JStr _ => "str"
  | JList _ => "list"
  | JDict _ => "dict"
  end.

(* ===================================================================== *)
(** ** CSVReader *)
(* ===================================================================== *)

(** A value of a [csv.DictReader] row: a cell, [None] for a column the
    row is too short for, the list of surplus cells of a long row. *)
Inductive cell :=
| CStr (s : string)
| CNone
| CList (l : list string).

(** Truth value of a cell, as [any] and [if value] take it. *)
Definition cell_truthy (c : cell) : bool :=
  match c with
  | CStr s => PyStr.truthy s
  | CNone => false
  | CList l => match l with [] => false | _ :: _ => true end
  end.

(** [str(value)]. *)
Definition cell_str (c : cell) : string :=
  match c with
  | CStr s => s
  | CNone => "None"
  | CList l => PyStr.str_of_list l
  end.

(** [csv.DictReader.__next__] on a non-blank row: the cells are filed
    under the field names; surplus cells go under [None], missing cells
    are [None]. *)
Definition dictreader_row (fieldnames row : list string) : PyDict.dict cell :=
  let d := PyDict.of_pairs (combine (map Some fieldnames) (map CStr row)) in
  let lf := List.length fieldnames in
  let lr := List.length row in
  if Nat.ltb lf lr then PyDict.set d None (CList (skipn lf row))
  else if Nat.ltb lr lf
       then fold_left (fun d key => PyDict.set d (Some key) CNone)
                      (skipn lr fieldnames) d
       else d.

Definition is_blank_row (row : list string) : bool :=
  match row with [] => true | _ :: _ => false end.

(** The rows a [csv.DictReader] yields after the header: blank rows are
    passed over. *)
Definition dictreader_rows (fieldnames : list string) (rows : list (list string))
  : list (PyDict.dict cell) :=
  map (dictreader_row fieldnames) (filter (fun r => negb (is_blank_row r)) rows).

(** [any(row.values())]. *)
Definition any_value (row : PyDict.dict cell) : bool :=
  existsb cell_truthy (PyDict.values row).

(** [str(value).strip() if value else ''] *)
Definition clean_value (value : cell) : string :=
  if cell_truthy value then PyStr.strip (cell_str value) else EmptyString.

(** The cleaning loop over [row.items()]. *)
Definition clean_row (row : PyDict.dict cell) : record :=
  fold_left (fun cleaned kv => PyDict.set cleaned (fst kv) (clean_value (snd kv)))
            row [].

(** The loop of [read_recipients] over the reader. *)
Definition collect_recipients (rows : list (PyDict.dict cell)) : list record :=
  map clean_row (filter any_value rows).

Section Program.

Variable os : Env.

(** Reading a text file opened with [encoding='utf-8']. *)
Definition read_text (path : string) : M string :=
  match fs os path with
  | Regular _ (inl bytes) =>
      match utf8_decode os bytes with
      | inl text => ret text
      | inr e => raise (UnicodeDecodeError e)
      end
  | Regular _ (inr e) => raise (OSError e)
  | _ => raise (OSError (open_error os path))
  end.

(** The delimiter of [read_recipients] for the sample it reads: what the
    sniffer picks, a comma when the sniffer gives up. *)
Definition sample_delimiter (sample : string) : string :=
  match csv_sniff os sample with
  | Some d => d
  | None => ","
  end.

(** The delimiter for a file that decodes to [text]: the sample is its
    first 1024 characters. *)
Definition sniff_delimiter (text : string) : string :=
  sample_delimiter (String.substring 0 1024 text).

(** The [with] block of [read_recipients] from the reader on: the header
    is read and the rows are collected.  [text] is what the reader gets
    from the file, and [decode_error] the [UnicodeDecodeError] that the
    file raises after it, if it does. *)
Definition parse_rows (delimiter text : string) (decode_error : option string)
  : M (list record) :=
  let (rows, csv_failure) := csv_reader os text delimiter in
  let failure :=
    match csv_failure with
    | Some e => Some (CsvModuleError e)
    | None =>
        match decode_error with
        | Some e => Some (UnicodeDecodeError e)
        | None => None
        end
    end in
  match rows with
  | [] =>
      match failure with
      | Some e => raise e
      | None => raise (CSVError "CSV file appears to be empty or has no headers")
      end
  | [] :: _ => raise (CSVError "CSV file appears to be empty or has no headers")
  | fieldnames :: data =>
      emit (Log INFO ("CSV columns found: " ++ PyStr.join ", " fieldnames)) ;;;
      let recipients := collect_recipients (dictreader_rows fieldnames data) in
      match failure with
      | Some e => raise e
      | None =>
          match recipients with
          | [] => raise (CSVError "No valid recipients found in CSV file")
          | _ :: _ =>
              emit (Log INFO ("Loaded " ++ PyStr.str_of_nat (List.length recipients)
                               ++ " valid recipients from CSV")) ;;;
              ret recipients
          end
      end
  end.

(** The [with] block on a file that decodes to [text]. *)
Definition parse_recipients (text : string) : M (list record) :=
  parse_rows (sniff_delimiter text) text None.

(** The [with] block of [read_recipients] with the [open] before it.  The
    file is decoded as it is read: bytes that do not decode raise at the
    first [read(1024)], or later, after the header and some rows have
    been read. *)
Definition read_csv (csv_file : string) : M (list record) :=
  match fs os csv_file with
  | Regular _ (inl bytes) =>
      match utf8_decode os bytes with
      | inl text => parse_recipients text
      | inr e =>
          match utf8_before_error os bytes with
          | None => raise (UnicodeDecodeError e)
          | Some (sample, text) => parse_rows (sample_delimiter sample) text (Some e)
          end
      end
  | Regular _ (inr e) => raise (OSError e)
  | _ => raise (OSError (open_error os csv_file))
  end.

(** The [except] clauses of [read_recipients]: [csv.Error], then
    [UnicodeDecodeError], then any other exception, the [CSVError]s raised
    in the [with] block among them. *)
Definition csv_error_of (e : exn) : exn :=
  match e with
  | CsvModuleError m => CSVError ("CSV parsing error: " ++ m)
  | UnicodeDecodeError _ =>
      CSVError "CSV file encoding error. Please ensure UTF-8 encoding."
  | _ => CSVError ("Error reading CSV file: " ++ exn_str e)
  end.

(** [CSVReader.read_recipients]. *)
Definition read_recipients (csv_file : string) : M (list record) :=
  match fs os csv_file with
  | Absent => raise (CSVError ("CSV file not found: " ++ csv_file))
  | _ => try_except (read_csv csv_file) (fun e => raise (csv_error_of e))
  end.

(* --------------------------------------------------------------------- *)
(** *** TemplateRenderer *)

(** [f"{{{{{key}}}}}"]: the key between two pairs of braces. *)
Definition placeholder (key : PyDict.key) : string :=
  "{{" ++ PyDict.key_str key ++ "}}".

(** [TemplateRenderer._basic_template_replace]; [EmailWorker.render_template]
    has the same body. *)
Definition basic_template_replace (content : string) (data : record) : string :=
  fold_left (fun rendered kv => PyStr.replace rendered (placeholder (fst kv)) (snd kv))
            data content.

(** [TemplateRenderer.render_template]. *)
Definition render_template (template_path : string) (data : record) : M string :=
  match fs os template_path with
  | Absent => raise (TemplateError ("Template file not found: " ++ template_path))
  | _ =>
      template_content <-
        try_except (read_text template_path)
          (fun e => raise (TemplateError ("Error reading template file: " ++ exn_str e))) ;;
      try_except
        (rendered <-
           match jinja2 os with
           | Some render =>
               so_far <- history ;;
               match render so_far template_content data with
               | inl r => ret r
               | inr e => raise (OtherException e)
               end
           | None => ret (basic_template_replace template_content data)
           end ;;
         emit (Log DEBUG ("Template rendered for " ++
                 PyDict.get_or data email_key "unknown recipient")) ;;;
         ret rendered)
        (fun e => raise (TemplateError ("Template rendering error: " ++ exn_str e)))
  end.

(* --------------------------------------------------------------------- *)
(** *** AttachmentHandler *)

(** The handler is made with a whole number of megabytes
    ([max_size_mb: int]); [max_size_bytes] is always that number times
    [1024 * 1024], at both places that assign it. *)
Record AttachmentHandler := { max_size_mb : Z }.

Definition max_size_bytes (h : AttachmentHandler) : Z := max_size_mb h * 1024 * 1024.

(** The number of tenths nearest to [n / d], ties to the even one: what
    the format [.1f] keeps of the float [n / d].  The float is the exact
    quotient when [d] is [1024 * 1024] and [0 <= n < 2^53]. *)
Definition nearest_tenths (n d : Z) : Z :=
  let q := ((10 * n) / d)%Z in
  let r := ((10 * n) mod d)%Z in
  if (2 * r <? d)%Z then q
  else if (d <? 2 * r)%Z then (q + 1)%Z
  else if Z.even q then q else (q + 1)%Z.

(** [f"{n / d:.1f}"]. *)
Definition format_1f (n d : Z) : string :=
  let t := nearest_tenths n d in
  PyStr.str_of_Z (t / 10) ++ "." ++ PyStr.str_of_Z (t mod 10).

(** [str(x)] of a float [x] that is the whole number [n], [|n| < 2^53]. *)
Definition str_of_whole_float (n : Z) : string := PyStr.str_of_Z n ++ ".0".

(** [f"File too large: {size_mb:.1f}MB (max: {max_mb}MB)"] *)
Definition too_large_message (h : AttachmentHandler) (file_size : Z) : string :=
  "File too large: " ++ format_1f file_size (1024 * 1024)
  ++ "MB (max: " ++ str_of_whole_float (max_size_mb h) ++ "MB)".

(** [os.path.basename]: what follows the last slash. *)
Fixpoint basename (p : string) : string :=
  match p with
  | EmptyString => EmptyString
  | String c p' =>
      if PyStr.has_char "/" p' then basename p'
      else if Ascii.eqb c "/" then p' else p
  end.

(** [s.split('/', 1)] when it has two parts. *)
Fixpoint split_slash (s : string) : option (string * string) :=
  match s with
  | EmptyString => None
  | String c s' =>
      if Ascii.eqb c "/" then Some (EmptyString, s')
      else match split_slash s' with
           | Some (a, b) => Some (String c a, b)
           | None => None
           end
  end.

(** [AttachmentHandler.create_attachment]. *)
Definition create_attachment (h : AttachmentHandler) (file_path : string) : M mime_part :=
  match fs os file_path with
  | Absent => raise (EmailSendError ("Attachment file not found: " ++ file_path))
  | NotRegular => raise (EmailSendError ("Attachment path is not a file: " ++ file_path))
  | Regular file_size data =>
      if (max_size_bytes h <? file_size)%Z
      then raise (EmailSendError (too_large_message h file_size))
      else
        let file_name := basename file_path in
        let content_type :=
          match guess_type os file_path with
          | (Some ct, None) => ct
          | _ => "application/octet-stream"
          end in
        match split_slash content_type with
        | None => raise (OtherException "not enough values to unpack (expected 2, got 1)")
        | Some (main_type, sub_type) =>
            match data with
            | inr e => raise (EmailSendError ("Cannot read attachment file: " ++ e))
            | inl file_data =>
                let disposition := Some ("attachment; filename=" ++
                  String PyStr.double_quote (file_name ++ String PyStr.double_quote EmptyString)) in
                let attachment :=
                  if String.eqb main_type "text"
                  then {| part_class := MIMEText; part_subtype := sub_type;
                          part_payload := utf8_decode_replace os file_data;
                          part_disposition := disposition |}
                  else if String.eqb main_type "image"
                  then {| part_class := MIMEImage; part_subtype := sub_type;
                          part_payload := file_data; part_disposition := disposition |}
                  else if String.eqb main_type "audio"
                  then {| part_class := MIMEAudio; part_subtype := sub_type;
                          part_payload := file_data; part_disposition := disposition |}
                  else {| part_class := MIMEApplication; part_subtype := sub_type;
                          part_payload := file_data; part_disposition := disposition |} in
                emit (Log DEBUG ("Created attachment: " ++ file_name ++ " ("
                                 ++ PyStr.str_of_Z file_size ++ " bytes)")) ;;;
                ret attachment
            end
        end
  end.

(* --------------------------------------------------------------------- *)
(** *** EmailSender *)

(** The [recipient] argument of [send_email]: a [str], a list, or the
    [None] that [dict.get] gives for a missing key. *)
Inductive recipient_arg :=
| OneRecipient (s : string)
| ManyRecipients (l : list string)
| NoRecipient.

Definition text_part (subtype payload : string) : mime_part :=
  {| part_class := MIMEText; part_subtype := subtype;
     part_payload := payload; part_disposition := None |}.

(** The text of the exception the [with] block of [send_email] ends in:
    [_create_smtp_connection] wraps what [smtplib] raises, [send_message]
    and the exit of the block raise as they are. *)
Definition smtp_failure_text (res : smtp_outcome) : option string :=
  match res with
  | AuthenticationFailed e => Some ("SMTP authentication failed: " ++ e)
  | SmtpException e => Some ("SMTP error: " ++ e)
  | ConnectionFailed e => Some ("Connection error: " ++ e)
  | SendMessageFailed e => Some e
  | ExitFailed e => Some e
  | Delivered => None
  end.

(** [send_message] returned: the statements after it in the [with] block
    are run. *)
Definition message_accepted (res : smtp_outcome) : bool :=
  match res with
  | Delivered | ExitFailed _ => true
  | _ => false
  end.

(** One turn of the loop of [send_email] that attaches the files. *)
Definition attach_file (h : AttachmentHandler) (file_path : string)
    (attached : list mime_part) : M (list mime_part) :=
  try_except
    (attachment <- create_attachment h file_path ;;
     ret (attached ++ [attachment])%list)
    (fun e =>
       emit (Log ERROR ("Failed to attach " ++ file_path ++ ": " ++ exn_str e)) ;;;
       raise (EmailSendError ("Attachment error: " ++ exn_str e))).

Definition attach_files (h : AttachmentHandler) (attachments : list string)
  : M (list mime_part) :=
  for_each attachments (attach_file h) [].

(** The loops of [send_email] that log the outcome for every recipient. *)
Definition log_each (entry : string -> event) (recipients : list string) : M unit :=
  for_each recipients (fun recipient_email _ => emit (entry recipient_email)) tt.

(** [EmailSender.send_email].  [return True] is the last statement of the
    [with] block: when the exit of the block raises after it, the
    [except] clause runs although the successes are logged. *)
Definition send_email (h : AttachmentHandler) (cfg : smtp_config)
    (sender : string) (recipient : recipient_arg) (subject body : string)
    (html_body : option string) (attachments : option (list string))
    (sender_name : option string) : M bool :=
  let recipients :=
    match recipient with
    | OneRecipient r => [r]
    | ManyRecipients l => l
    | NoRecipient => []
    end in
  match recipients with
  | [] => raise (EmailSendError "No recipients specified")
  | _ :: _ =>
      let recipient_str := PyStr.join ", " recipients in
      emit (Log INFO ("Sending email to: " ++ recipient_str)) ;;;
      emit (LogSmtpConnection (smtp_server cfg) (smtp_port cfg) (smtp_username cfg)) ;;;
      let from :=
        match sender_name with
        | Some name => if PyStr.truthy name then name ++ " <" ++ sender ++ ">" else sender
        | None => sender
        end in
      let bodies :=
        match html_body with
        | Some html =>
            if PyStr.truthy html
            then [text_part "plain" body; text_part "html" html]
            else [text_part "plain" body]
        | None => [text_part "plain" body]
        end in
      attached <- match attachments with
                  | Some paths => attach_files h paths
                  | None => ret []
                  end ;;
      let msg := {| msg_from := from; msg_to := recipient_str;
                    msg_subject := subject; msg_parts := (bodies ++ attached)%list |} in
      so_far <- history ;;
      let res := smtp os (List.length (smtp_calls so_far)) cfg msg in
      emit (Smtp cfg msg res) ;;;
      (if message_accepted res
       then log_each (fun recipient_email =>
                        LogEmailSuccess recipient_email subject (List.length attached))
                     recipients
       else ret tt) ;;;
      match smtp_failure_text res with
      | None => ret true
      | Some error_msg =>
          log_each (fun recipient_email =>
                      LogEmailFailure recipient_email error_msg subject)
                   recipients ;;;
          raise (EmailSendError ("SMTP error: " ++ error_msg))
      end
  end.

(* --------------------------------------------------------------------- *)
(** *** EmailApplication *)

(** The section ['files'] of the configuration, as far as it is read:
    a key that is not there is [None]. *)
Record files_section := {
  files_csv_recipients : option string;
  files_email_template : option string
}.

(** The section ['email']: [default_subject], and [sender_name] and
    [test_email], which hold a [str] or [None]. *)
Record email_section := {
  email_default_subject : option string;
  email_sender_name : option (option string);
  email_test_email : option (option string)
}.

(** The configuration dictionary, as far as [send_bulk_emails] and
    [send_test_email] read it; a section that is not there is [None].
    The loaded configuration has every section and key, from the
    defaults; the dictionary that the main window assigns to
    [email_app.config] has the three sections, no [email_template] and no
    [default_subject].  The sections that are there are dictionaries,
    the section [smtp] with its keys and the values of the types that
    the defaults and the main window give them. *)
Record app_config := {
  cfg_smtp : option smtp_config;
  cfg_files : option files_section;
  cfg_email : option email_section
}.

(** The attribute [config] of the application.  [__init__] does not
    assign it: [load_config] does, and the main window. *)
Inductive config_attribute :=
| Unassigned
| Falsy
| Assigned (cfg : app_config).

(** A [TemplateRenderer], made with a template directory. *)
Record TemplateRenderer := { template_dir : json }.

(** The attributes of the application that a run reads.
    [template_renderer] is [None] from [__init__] on, until [load_config]
    assigns a renderer (which it does before it raises, when the
    renderer can be made). *)
Record EmailApplication := {
  config : config_attribute;
  template_renderer : option TemplateRenderer;
  attachment_handler : AttachmentHandler
}.

(** [d[key]] for a key that may not be there. *)
Definition subscript {A : Type} (value : option A) (key : string) : M A :=
  match value with
  | Some v => ret v
  | None => raise (KeyError key)
  end.

(** [x or d] for an optional [str] argument, where [d] is read from the
    configuration only when [x] is falsy. *)
Definition or_configured (x : option string) (d : M string) : M string :=
  match x with
  | Some s => if PyStr.truthy s then ret s else d
  | None => d
  end.

(** [email_config.get('sender_name')]. *)
Definition sender_name_of (email_config : email_section) : option string :=
  match email_sender_name email_config with
  | Some value => value
  | None => None
  end.

(** [x or d] for an optional [str] argument. *)
Definition or_default (x : option string) (d : string) : string :=
  match x with
  | Some s => if PyStr.truthy s then s else d
  | None => d
  end.

(** [results['sent'] += 1] *)
Definition count_sent (r : results) : results :=
  {| total := total r; sent := sent r + 1; failed := failed r;
     errors := errors r; success := success r |}.

(** [results['failed'] += 1] *)
Definition count_failed (r : results) : results :=
  {| total := total r; sent := sent r; failed := failed r + 1;
     errors := errors r; success := success r |}.

(** [results['errors'].append(msg)] *)
Definition append_error (r : results) (msg : string) : results :=
  {| total := total r; sent := sent r; failed := failed r;
     errors := (errors r ++ [msg])%list; success := success r |}.

(** [results['success'] = results['failed'] == 0] *)
Definition set_success (r : results) : results :=
  {| total := total r; sent := sent r; failed := failed r;
     errors := errors r; success := Nat.eqb (failed r) 0 |}.

(** The end of the [try] block of the loop of [send_bulk_emails], once
    body and subject are rendered: the message is sent and counted. *)
Definition send_rendered (app : EmailApplication) (smtp_cfg : smtp_config)
    (email_cfg : email_section)
    (attachments : option (list string)) (i : nat) (recipient_data : record)
    (r : results) (personalized_body personalized_subject : string) : M results :=
  recipient <- subscript (PyDict.get recipient_data email_key) "email" ;;
  ok <- send_email (attachment_handler app) smtp_cfg
          (smtp_username smtp_cfg) (OneRecipient recipient)
          personalized_subject personalized_body None attachments
          (sender_name_of email_cfg) ;;
  let r' :=
    if ok then count_sent r
    else append_error (count_failed r) ("Failed to send to " ++ recipient) in
  (if Nat.eqb (i mod 10) 0
   then emit (Log INFO ("Progress: " ++ PyStr.str_of_nat i ++ "/"
                        ++ PyStr.str_of_nat (total r') ++ " emails processed"))
   else ret tt) ;;;
  ret r'.

(** The [try] block of the loop of [send_bulk_emails] for recipient
    number [i] (from 1).  With no renderer, [self.template_renderer] is
    [None] and the call of its method raises. *)
Definition try_send (app : EmailApplication) (smtp_cfg : smtp_config)
    (email_cfg : email_section)
    (template_path email_subject : string) (attachments : option (list string))
    (i : nat) (recipient_data : record) (r : results) : M results :=
  match template_renderer app with
  | None => raise (AttributeError "'NoneType' object has no attribute 'render_template'")
  | Some _ =>
      personalized_body <- render_template template_path recipient_data ;;
      personalized_subject <-
        match jinja2 os with
        | Some render =>
            so_far <- history ;;
            match render so_far email_subject recipient_data with
            | inl rendered => ret rendered
            | inr e => raise (OtherException e)
            end
        | None => ret (basic_template_replace email_subject recipient_data)
        end ;;
      send_rendered app smtp_cfg email_cfg attachments i recipient_data r
        personalized_body personalized_subject
  end.

(** Its [except Exception as e] block. *)
Definition record_failure (recipient_data : record) (r : results) (e : exn)
  : M results :=
  let error_msg :=
    "Error sending to " ++ PyDict.get_or recipient_data email_key "unknown" ++ ": " ++ exn_str e in
  emit (Log ERROR error_msg) ;;;
  ret (append_error (count_failed r) error_msg).

(** The body of the loop of [send_bulk_emails]. *)
Definition send_to_recipient (app : EmailApplication) (smtp_cfg : smtp_config)
    (email_cfg : email_section)
    (template_path email_subject : string) (attachments : option (list string))
    (i : nat) (recipient_data : record) (r : results) : M results :=
  try_except
    (try_send app smtp_cfg email_cfg template_path email_subject attachments
       i recipient_data r)
    (record_failure recipient_data r).

(** [for i, recipient_data in enumerate(recipients, i)]. *)
Fixpoint send_loop (app : EmailApplication) (smtp_cfg : smtp_config)
    (email_cfg : email_section)
    (template_path email_subject : string) (attachments : option (list string))
    (i : nat) (recipients : list record) (r : results) : M results :=
  match recipients with
  | [] => ret r
  | recipient_data :: rest =>
      r' <- send_to_recipient app smtp_cfg email_cfg template_path email_subject
              attachments i recipient_data r ;;
      send_loop app smtp_cfg email_cfg template_path email_subject attachments
        (S i) rest r'
  end.

(** [self.config['files'][key]]. *)
Definition files_value (cfg : app_config) (field : files_section -> option string)
    (key : string) : M string :=
  files <- subscript (cfg_files cfg) "files" ;;
  subscript (field files) key.

(** [EmailApplication.send_bulk_emails].  An application whose [config]
    was never assigned raises at the first test; the configuration is
    read key by key, each where the source reads it. *)
Definition send_bulk_emails (app : EmailApplication)
    (csv_file template_file subject : option string)
    (attachments : option (list string)) : M results :=
  match config app with
  | Unassigned =>
      raise (AttributeError "'EmailApplication' object has no attribute 'config'")
  | Falsy => raise (EmailAppError "No configuration loaded")
  | Assigned cfg =>
      csv_path <- or_configured csv_file
                    (files_value cfg files_csv_recipients "csv_recipients") ;;
      template_path <- or_configured template_file
                         (files_value cfg files_email_template "email_template") ;;
      email_subject <- or_configured subject
                         (email <- subscript (cfg_email cfg) "email" ;;
                          subscript (email_default_subject email) "default_subject") ;;
      emit (Log INFO "Reading recipient data from CSV...") ;;;
      recipients <- read_recipients csv_path ;;
      let r0 := {| total := List.length recipients; sent := 0; failed := 0;
                   errors := []; success := false |} in
      smtp_cfg <- subscript (cfg_smtp cfg) "smtp" ;;
      email_cfg <- subscript (cfg_email cfg) "email" ;;
      emit (Log INFO ("Starting bulk email send to " ++ PyStr.str_of_nat (total r0)
                      ++ " recipients")) ;;;
      r <- send_loop app smtp_cfg email_cfg template_path email_subject attachments
             1 recipients r0 ;;
      let final := set_success r in
      emit (Log INFO ("Bulk email completed - Sent: " ++ PyStr.str_of_nat (sent final)
                      ++ ", Failed: " ++ PyStr.str_of_nat (failed final))) ;;;
      ret final
  end.

(* --------------------------------------------------------------------- *)
(** *** EmailWorker *)

(** The keyword arguments of a worker made for the ['bulk'] operation. *)
Record EmailWorker := {
  email_app_smtp : smtp_config;
  email_app_handler : AttachmentHandler;
  recipients_data : list record;
  template_content : string;
  worker_subject : string;
  worker_attachments : list string
}.

(** The [try] block of the loop of [_run_bulk_email] for the recipient at
    index [i] (from 0); [n] is the local [total]. *)
Definition worker_try (w : EmailWorker) (n i : nat) (recipient_data : record)
    (r : results) : M results :=
  emit (ProgressUpdated (i + 1) n) ;;;
  emit (StatusUpdated ("Sending to " ++ PyDict.get_or recipient_data email_key "Unknown" ++ "...")) ;;;
  let personalized_body := basic_template_replace (template_content w) recipient_data in
  let personalized_subject := basic_template_replace (worker_subject w) recipient_data in
  ok <- send_email (email_app_handler w) (email_app_smtp w)
          (smtp_username (email_app_smtp w))
          match PyDict.get recipient_data email_key with
          | Some address => OneRecipient address
          | None => NoRecipient
          end
          personalized_subject personalized_body None
          (Some (worker_attachments w)) None ;;
  if ok
  then emit (EmailSent (PyDict.get_or recipient_data email_key "Unknown") true EmptyString) ;;;
       ret (count_sent r)
  else emit (EmailSent (PyDict.get_or recipient_data email_key "Unknown") false "Send failed") ;;;
       ret (count_failed r).

(** Its [except Exception as e] block. *)
Definition worker_except (recipient_data : record) (r : results) (e : exn)
  : M results :=
  let error_msg := exn_str e in
  emit (EmailSent (PyDict.get_or recipient_data email_key "Unknown") false error_msg) ;;;
  ret (append_error (count_failed r) error_msg).

(** The body of the loop of [_run_bulk_email]. *)
Definition worker_step (w : EmailWorker) (n i : nat) (recipient_data : record)
    (r : results) : M results :=
  try_except (worker_try w n i recipient_data r) (worker_except recipient_data r).

(** The loop of [_run_bulk_email].  [should_stop] is the flag of the
    worker; [stop_called i] tells whether the controlling thread has
    called [stop()] since the previous test of the flag (since the worker
    was made, for [i = 0]) and before the test that opens the iteration at
    index [i]. *)
Fixpoint worker_loop (w : EmailWorker) (n : nat) (stop_called : nat -> bool)
    (i : nat) (should_stop : bool) (recipients : list record) (r : results)
  : M results :=
  match recipients with
  | [] => ret r
  | recipient_data :: rest =>
      let should_stop := should_stop || stop_called i in
      if should_stop then ret r
      else r' <- worker_step w n i recipient_data r ;;
           worker_loop w n stop_called (S i) should_stop rest r'
  end.

(** [EmailWorker._run_bulk_email]; the run ends with the [finished]
    signal, whose results it also returns here.  The configuration has
    its [smtp] section, so the outer [try] has nothing to catch: the loop
    catches whatever a turn raises. *)
Definition run_bulk_email (w : EmailWorker) (stop_called : nat -> bool) : M results :=
  emit (StatusUpdated "Reading recipients...") ;;;
  let recipients := recipients_data w in
  let n := List.length recipients in
  emit (ProgressUpdated 0 n) ;;;
  let r0 := {| total := n; sent := 0; failed := 0; errors := []; success := false |} in
  r <- worker_loop w n stop_called 0 false recipients r0 ;;
  let final := set_success r in
  emit (Finished final) ;;;
  ret final.

End Program.

(* ===================================================================== *)
(** ** Vocabulary of the statements *)
(* ===================================================================== *)

(** A template cut into pieces: plain text and placeholders. *)
Inductive segment :=
| Text (s : string)
| Field (name : string).

Definition segment_text (g : segment) : string :=
  match g with
  | Text s => s
  | Field name => "{{" ++ name ++ "}}"
  end.

Fixpoint template_text (segs : list segment) : string :=
  match segs with
  | [] => EmptyString
  | g :: segs' => segment_text g ++ template_text segs'
  end.

(** The value of the column called [name]: the first field of the record
    whose key prints as [name]. *)
Fixpoint column_value (data : record) (name : string) : option string :=
  match data with
  | [] => None
  | (k, v) :: data' =>
      if String.eqb (PyDict.key_str k) name then Some v else column_value data' name
  end.

(** A placeholder stands for the value of its column, or for itself when
    the record has no such column. *)
Definition fill (data : record) (g : segment) : string :=
  match g with
  | Text s => s
  | Field name =>
      match column_value data name with
      | Some v => v
      | None => "{{" ++ name ++ "}}"
      end
  end.

Fixpoint fill_all (data : record) (segs : list segment) : string :=
  match segs with
  | [] => EmptyString
  | g :: segs' => fill data g ++ fill_all data segs'
  end.

Definition no_open_brace (s : string) : bool := negb (PyStr.has_char "{" s).

Definition no_brace (s : string) : bool :=
  negb (PyStr.has_char "{" s) && negb (PyStr.has_char "}" s).

(** The text pieces have no opening brace and the names no brace. *)
Definition plain_segment (g : segment) : bool :=
  match g with
  | Text s => no_open_brace s
  | Field name => no_brace name
  end.

(** The column names have no brace and the values no opening brace. *)
Definition plain_field (kv : PyDict.key * string) : bool :=
  no_brace (PyDict.key_str (fst kv)) && no_open_brace (snd kv).

(** One substitution step on a template cut into pieces. *)
Definition substitute (m v : string) (g : segment) : segment :=
  match g with
  | Text s => Text s
  | Field n => if String.eqb m n then Text v else Field n
  end.

(** A computation started on trace [t] ends in [o] after the events
    [evs]. *)
Definition runs {A : Type} (m : M A) (t : trace) (o : outcome A) (evs : list event)
  : Prop :=
  m t = (o, (t ++ evs)%list).

(** The calls of the logger. *)
Definition is_log (e : event) : bool :=
  match e with
  | Log _ _ | LogEmailSuccess _ _ _ | LogEmailFailure _ _ _
  | LogSmtpConnection _ _ _ => true
  | _ => false
  end.

(** What [send_email] does to the outside: it logs and uses the server. *)
Definition is_log_or_smtp (e : event) : bool := is_log e || is_smtp e.

(** A path [create_attachment] turns down: nothing there, no regular
    file, or a file above the limit. *)
Definition invalid_attachment (os : Env) (h : AttachmentHandler) (path : string)
  : bool :=
  match fs os path with
  | Absent | NotRegular => true
  | Regular size _ => (max_size_bytes h <? size)%Z
  end.

(** A path [create_attachment] makes a part of. *)
Definition attachable (os : Env) (h : AttachmentHandler) (path : string) : bool :=
  match fs os path with
  | Regular size (inl _) =>
      negb (max_size_bytes h <? size)%Z &&
      match split_slash
              match guess_type os path with
              | (Some ct, None) => ct
              | _ => "application/octet-stream"
              end with
      | Some _ => true
      | None => false
      end
  | _ => false
  end.

(** The attachments argument lets every message be built. *)
Definition attachments_ok (os : Env) (h : AttachmentHandler)
    (attachments : option (list string)) : bool :=
  match attachments with
  | Some paths => forallb (attachable os h) paths
  | None => true
  end.

(** The attachments argument names a path that is turned down. *)
Definition attachments_invalid (os : Env) (h : AttachmentHandler)
    (attachments : option (list string)) : bool :=
  match attachments with
  | Some paths => existsb (invalid_attachment os h) paths
  | None => false
  end.

(** [send_email] gave up before it turned to the server. *)
Definition not_sent (o : outcome bool) (evs : list event) : Prop :=
  smtp_calls evs = [] /\ exists msg, o = Raise (EmailSendError msg).

(** [send_email] used the server once, for a message to [to], and ended
    as the server answered. *)
Definition handed_over (os : Env) (cfg : smtp_config) (t : trace) (to : string)
    (o : outcome bool) (evs : list event) : Prop :=
  exists msg,
    let res := smtp os (List.length (smtp_calls t)) cfg msg in
    msg_to msg = to
    /\ smtp_calls evs = [Smtp cfg msg res]
    /\ o = match smtp_failure_text res with
           | None => Return true
           | Some text => Raise (EmailSendError ("SMTP error: " ++ text))
           end.

(** The end of the [try] block used the server once, for a message to
    [address], and returned or raised as the server answered. *)
Definition tried (os : Env) (cfg : smtp_config) (t : trace) (address : string)
    (r : results) (o : outcome results) (evs : list event) : Prop :=
  exists msg,
    let res := smtp os (List.length (smtp_calls t)) cfg msg in
    msg_to msg = address
    /\ smtp_calls evs = [Smtp cfg msg res]
    /\ o = match smtp_failure_text res with
           | None => Return (count_sent r)
           | Some text => Raise (EmailSendError ("SMTP error: " ++ text))
           end.

(** The locals of [send_bulk_emails] once it has read the configuration:
    [csv_path], [template_path], [email_subject], [smtp_config] and
    [email_config]. *)
Record campaign := {
  campaign_csv : string;
  campaign_template : string;
  campaign_subject : string;
  campaign_smtp : smtp_config;
  campaign_email : email_section
}.

(** [x or d] for a [d] that is there or not. *)
Definition argument_or (x d : option string) : option string :=
  match x with
  | Some s => if PyStr.truthy s then Some s else d
  | None => d
  end.

(** The value under a key of the section ['files'], if both are there. *)
Definition configured_file (cfg : app_config) (field : files_section -> option string)
  : option string :=
  match cfg_files cfg with
  | Some files => field files
  | None => None
  end.

(** The default subject of the section ['email'], if both are there. *)
Definition configured_subject (cfg : app_config) : option string :=
  match cfg_email cfg with
  | Some email => email_default_subject email
  | None => None
  end.

(** The locals of the run for an application and the arguments of the
    call: there are some when the configuration is assigned and truthy
    and has every key that the run reads. *)
Definition campaign_of (app : EmailApplication)
    (csv_file template_file subject : option string) : option campaign :=
  match config app with
  | Assigned cfg =>
      match argument_or csv_file (configured_file cfg files_csv_recipients),
            argument_or template_file (configured_file cfg files_email_template),
            argument_or subject (configured_subject cfg),
            cfg_smtp cfg, cfg_email cfg with
      | Some csv, Some template, Some text, Some smtp_cfg, Some email_cfg =>
          Some {| campaign_csv := csv; campaign_template := template;
                  campaign_subject := text; campaign_smtp := smtp_cfg;
                  campaign_email := email_cfg |}
      | _, _, _, _, _ => None
      end
  | _ => None
  end.

(** The file at [csv_path] loads to the recipients [l]. *)
Definition loads (os : Env) (csv_path : string) (l : list record) : Prop :=
  fst (read_recipients os csv_path []) = Return l.

(** The address a use of the server was for. *)
Definition smtp_recipient (e : event) : string :=
  match e with
  | Smtp _ msg _ => msg_to msg
  | _ => EmptyString
  end.

(** The record has an address. *)
Definition has_email (recipient_data : record) : bool :=
  match PyDict.get recipient_data email_key with
  | Some _ => true
  | None => false
  end.

(** [recipient_data.get('email', 'unknown')]: the name a turn of the
    loop of [send_bulk_emails] records a failure under. *)
Definition address (recipient_data : record) : string :=
  PyDict.get_or recipient_data email_key "unknown".

(** The template file and the subject render for the record: the file
    is read and, where Jinja2 is there, it renders the text of the file
    and the subject whenever it is called. *)
Definition renders (os : Env) (template_path email_subject : string)
    (recipient_data : record) : Prop :=
  exists content,
    fst (read_text os template_path []) = Return content
    /\ match jinja2 os with
       | Some render =>
           forall t, (exists body, render t content recipient_data = inl body)
                     /\ (exists subject, render t email_subject recipient_data = inl subject)
       | None => True
       end.

(** Nothing but the server can fail for the record: template and subject
    render and the record has an address. *)
Definition ready (os : Env) (template_path email_subject : string)
    (recipient_data : record) : Prop :=
  renders os template_path email_subject recipient_data
  /\ has_email recipient_data = true.

(** The turn of the loop of [send_bulk_emails] ended before the server
    was used: a failure is recorded under the address, or under
    [unknown]. *)
Definition skipped (recipient_data : record) (r r' : results) (evs : list event)
  : Prop :=
  smtp_calls evs = []
  /\ exists text,
      r' = append_error (count_failed r)
             ("Error sending to " ++ PyDict.get_or recipient_data email_key "unknown"
              ++ ": " ++ text).

(** The turn used the server once, for a message to [address], and
    recorded what the server answered. *)
Definition attempted (os : Env) (cfg : smtp_config) (t : trace) (address : string)
    (r r' : results) (evs : list event) : Prop :=
  exists msg,
    let res := smtp os (List.length (smtp_calls t)) cfg msg in
    msg_to msg = address
    /\ smtp_calls evs = [Smtp cfg msg res]
    /\ r' = match smtp_failure_text res with
            | None => count_sent r
            | Some text =>
                append_error (count_failed r)
                  ("Error sending to " ++ address ++ ": SMTP error: " ++ text)
            end.

(** What a turn of the loop of [send_bulk_emails] comes to, from the
    results [r] and the trace [t] to the results [r'] after the events
    [evs]: it logs and uses the server; it records a failure without the
    server, or uses the server once for the address of the record and
    records the answer; the first when an attachment is turned down, the
    record has no address or the application has no renderer; the second
    when the application has a renderer, template and subject render, the
    attachments are fine and the record has an address. *)
Definition turn_outcome (os : Env) (app : EmailApplication) (smtp_cfg : smtp_config)
    (template_path email_subject : string) (attachments : option (list string))
    (recipient_data : record) (t : trace) (r r' : results) (evs : list event) : Prop :=
  forallb is_log_or_smtp evs = true
  /\ (skipped recipient_data r r' evs \/
      exists a, PyDict.get recipient_data email_key = Some a
                /\ attempted os smtp_cfg t a r r' evs)
  /\ (attachments_invalid os (attachment_handler app) attachments = true ->
      skipped recipient_data r r' evs)
  /\ (PyDict.get recipient_data email_key = None -> skipped recipient_data r r' evs)
  /\ (template_renderer app = None -> skipped recipient_data r r' evs)
  /\ (template_renderer app <> None ->
      renders os template_path email_subject recipient_data ->
      attachments_ok os (attachment_handler app) attachments = true ->
      forall a, PyDict.get recipient_data email_key = Some a ->
                attempted os smtp_cfg t a r r' evs).

(** Some cell of the row is not the empty string, before any trimming. *)
Definition raw_nonempty (row : list string) : bool := existsb PyStr.truthy row.

(** Every cell of the row is empty after trimming. *)
Definition blank_after_trimming (row : list string) : bool :=
  forallb (fun c => negb (PyStr.truthy (PyStr.strip c))) row.

(** The record of a row no longer than the header: the columns of the
    header in their order, each with its trimmed cell, the empty string
    where the row is short. *)
Definition record_of (fieldnames row : list string) : record :=
  combine (map Some fieldnames)
          (map PyStr.strip row
           ++ repeat EmptyString (List.length fieldnames - List.length row))%list.

(** The name the worker reports a recipient under:
    [recipient_data.get('email', 'Unknown')]. *)
Definition reported_as (recipient_data : record) : string :=
  PyDict.get_or recipient_data email_key "Unknown".

(** The events of the turn of the worker for the recipient at index [i]:
    the progress signal that counts the recipient, the status signal,
    what [send_email] does (it logs and uses the server once at most),
    and last the per-recipient signal. *)
Definition turn_events (n i : nat) (recipient_data : record) (block : list event)
  : Prop :=
  exists mid ok err,
    block = ([ProgressUpdated (i + 1) n;
              StatusUpdated ("Sending to " ++ reported_as recipient_data ++ "...")]
             ++ mid ++ [EmailSent (reported_as recipient_data) ok err])%list
    /\ forallb is_log_or_smtp mid = true
    /\ List.length (smtp_calls mid) <= 1.

(** The events of the turns for the recipients [l], from index [i] on,
    one turn after the other. *)
Fixpoint turns_events (n i : nat) (l : list record) (evs : list event) : Prop :=
  match l with
  | [] => evs = []
  | recipient_data :: l' =>
      exists block rest,
        evs = (block ++ rest)%list
        /\ turn_events n i recipient_data block
        /\ turns_events n (S i) l' rest
  end.

(** The recipient of a per-recipient signal. *)
Definition signal_recipient (e : event) : string :=
  match e with
  | EmailSent recipient _ _ => recipient
  | _ => EmptyString
  end.

(** The place of the first event of a kind in a trace. *)
Fixpoint first_index (p : event -> bool) (t : trace) : option nat :=
  match t with
  | [] => None
  | e :: t' =>
      if p e then Some 0
      else match first_index p t' with
           | Some n => Some (S n)
           | None => None
           end
  end.

(** The progress signal [(current, n)]. *)
Definition is_progress (current n : nat) (e : event) : bool :=
  match e with
  | ProgressUpdated c m => Nat.eqb c current && Nat.eqb m n
  | _ => false
  end.

(** Some cell of the row is not empty after trimming. *)
Definition nonempty_after_trimming (row : list string) : bool :=
  negb (blank_after_trimming row).

(** The row is empty in every cell, or has a cell that is not empty after
    trimming: it is no row of blanks. *)
Definition settled_row (row : list string) : bool :=
  negb (raw_nonempty row) || nonempty_after_trimming row.

(** The line feed. *)
Definition line_feed : string := String (ascii_of_nat 10) EmptyString.

(* ===================================================================== *)
(** ** A small world for the examples *)
(* ===================================================================== *)

Module Demo.

(** A file of one column; in its sample the sniffer of the [csv] module
    finds the letter [m] in every line and takes it for the delimiter. *)
Definition addresses_text : string :=
  "email" ++ line_feed ++ "ann@example.org" ++ line_feed
  ++ "bob@example.org" ++ line_feed.

(** A file that has its header and nothing else. *)
Definition header_text : string := "name,email" ++ line_feed.

(** A file with a row of empty cells between two recipients. *)
Definition gaps_text : string :=
  "name,email" ++ line_feed ++ "Ann,ann@example.org" ++ line_feed
  ++ "," ++ line_feed ++ "Bob,bob@example.org" ++ line_feed.

(** A template, two recipient files, a file of 30 MB and a directory. *)
Definition files (path : string) : fs_node :=
  if String.eqb path "template.txt" then Regular 14 (inl "Hello {{name}}")
  else if String.eqb path "recipients.csv" then Regular 4 (inl "five")
  else if String.eqb path "spaces.csv" then Regular 6 (inl "spaces")
  else if String.eqb path "addresses.csv" then Regular 38 (inl addresses_text)
  else if String.eqb path "header.csv" then Regular 11 (inl header_text)
  else if String.eqb path "gaps.csv" then Regular 53 (inl gaps_text)
  else if String.eqb path "big.bin" then Regular (30 * 1024 * 1024) (inl "x")
  else if String.eqb path "spool" then NotRegular
  else Absent.

Definition five_rows : list (list string) :=
  [["name"; "email"];
   ["Ann"; "ann@example.org"]; ["Bob"; "bob@example.org"];
   ["Cy"; "cy@example.org"]; ["Di"; "di@example.org"];
   ["Ed"; "ed@example.org"]].

(** A header, a row, a row of blanks, a row of empty cells. *)
Definition rows_with_spaces : list (list string) :=
  [["name"; "email"];
   ["Ann"; "ann@example.org"]; [" "; "  "]; [EmptyString; EmptyString]].

(** The file of addresses as the reader cuts it at the letter [m], and at
    the comma. *)
Definition addresses_rows_at_m : list (list string) :=
  [["e"; "ail"]; ["ann@exa"; "ple.org"]; ["bob@exa"; "ple.org"]].

Definition addresses_rows_at_comma : list (list string) :=
  [["email"]; ["ann@example.org"]; ["bob@example.org"]].

Definition gaps_rows : list (list string) :=
  [["name"; "email"];
   ["Ann"; "ann@example.org"]; [EmptyString; EmptyString]; ["Bob"; "bob@example.org"]].

(** The reader of the [csv] module on the files above. *)
Definition reader (text delimiter : string)
  : list (list string) * option string :=
  if String.eqb text "five" then (five_rows, None)
  else if String.eqb text "spaces" then (rows_with_spaces, None)
  else if String.eqb text addresses_text
       then if String.eqb delimiter "m" then (addresses_rows_at_m, None)
            else if String.eqb delimiter "," then (addresses_rows_at_comma, None)
            else ([], None)
  else if String.eqb text header_text then ([["name"; "email"]], None)
  else if String.eqb text gaps_text then (gaps_rows, None)
  else ([], None).

(** The server refuses the third message and takes the others. *)
Definition world : Env :=
  {| fs := files;
     open_error := fun path => "[Errno 21] Is a directory: " ++ PyStr.repr path;
     utf8_decode := fun bytes => inl bytes;
     utf8_before_error := fun _ => None;
     utf8_decode_replace := fun bytes => bytes;
     csv_sniff := fun sample =>
       if String.eqb sample addresses_text then Some "m" else Some ",";
     csv_reader := reader;
     guess_type := fun _ => (None, None);
     jinja2 := None;
     smtp := fun n _ _ =>
       if Nat.eqb n 2 then SendMessageFailed "550 mailbox unavailable"
       else Delivered |}.



(** The same world with two files of recipients whose bytes do not
    decode: in [late.csv] the error comes after the header and the rows
    of [recipients.csv] have been read, in [early.csv] at the first
    read. *)
Definition world_with_bad_bytes : Env :=
  {| fs := fun path =>
       if String.eqb path "late.csv" then Regular 9000 (inl "late")
       else if String.eqb path "early.csv" then Regular 10 (inl "early")
       else files path;
     open_error := open_error world;
     utf8_decode := fun bytes =>
       if String.eqb bytes "late" || String.eqb bytes "early"
       then inr "'utf-8' codec can't decode byte 0xff: invalid start byte"
       else inl bytes;
     utf8_before_error := fun bytes =>
       if String.eqb bytes "late" then Some ("five", "five") else None;
     utf8_decode_replace := utf8_decode_replace world;
     csv_sniff := csv_sniff world;
     csv_reader := csv_reader world;
     guess_type := guess_type world;
     jinja2 := jinja2 world;
     smtp := smtp world |}.

(** The same world with a server that takes every message and then
    answers [QUIT] with 421 instead of 221. *)
Definition world_closing_badly : Env :=
  {| fs := files;
     open_error := open_error world;
     utf8_decode := utf8_decode world;
     utf8_before_error := utf8_before_error world;
     utf8_decode_replace := utf8_decode_replace world;
     csv_sniff := csv_sniff world;
     csv_reader := csv_reader world;
     guess_type := guess_type world;
     jinja2 := jinja2 world;
     smtp := fun _ _ _ => ExitFailed "(421, b'closing')" |}.

Definition server : smtp_config :=
  {| smtp_server := "smtp.example.org"; smtp_port := 587;
     smtp_username := "team@example.org"; smtp_password := "secret";
     smtp_use_tls := true; smtp_use_ssl := false; smtp_timeout := 30 |}.

Definition email_settings : email_section :=
  {| email_default_subject := Some "News for {{name}}";
     email_sender_name := Some (Some "Newsletter Team");
     email_test_email := Some None |}.

Definition settings : app_config :=
  {| cfg_smtp := Some server;
     cfg_files := Some {| files_csv_recipients := Some "recipients.csv";
                          files_email_template := Some "template.txt" |};
     cfg_email := Some email_settings |}.

(** An application with this configuration and a renderer: [load_config]
    assigns both before it raises. *)
Definition application : EmailApplication :=
  {| config := Assigned settings;
     template_renderer := Some {| template_dir := JStr "./templates" |};
     attachment_handler := {| max_size_mb := 25 |} |}.

(** An application whose configuration was assigned from outside, as the
    main window does, and whose renderer is the [None] of [__init__]. *)
Definition application_without_renderer : EmailApplication :=
  {| config := Assigned settings;
     template_renderer := None;
     attachment_handler := {| max_size_mb := 25 |} |}.

(** The application as [__init__] leaves it when no configuration file
    is given. *)
Definition fresh_application : EmailApplication :=
  {| config := Unassigned;
     template_renderer := None;
     attachment_handler := {| max_size_mb := 25 |} |}.

(** What the run reads of the configuration. *)
Definition news : campaign :=
  {| campaign_csv := "recipients.csv"; campaign_template := "template.txt";
     campaign_subject := "News for {{name}}"; campaign_smtp := server;
     campaign_email := email_settings |}.

Definition five_recipients : list record :=
  [[(Some "name", "Ann"); (Some "email", "ann@example.org")];
   [(Some "name", "Bob"); (Some "email", "bob@example.org")];
   [(Some "name", "Cy"); (Some "email", "cy@example.org")];
   [(Some "name", "Di"); (Some "email", "di@example.org")];
   [(Some "name", "Ed"); (Some "email", "ed@example.org")]].

(** A worker for ten recipients, the five above twice. *)
Definition worker : EmailWorker :=
  {| email_app_smtp := server;
     email_app_handler := {| max_size_mb := 25 |};
     recipients_data := (five_recipients ++ five_recipients)%list;
     template_content := "Hello {{name}}";
     worker_subject := "News for {{name}}";
     worker_attachments := [] |}.

(** The controlling thread calls [stop()] while the fifth recipient is in
    flight: the test that opens the turn at index 5 finds the flag set. *)
Definition stop_during_fifth (i : nat) : bool := Nat.eqb i 5.

End Demo.

(* ===================================================================== *)
(** ** Counting the uses of the server *)
(* ===================================================================== *)

(** A use of the server that went through: the message was handed over
    and the connection closed. *)
Definition is_delivery (e : event) : bool :=
  match e with
  | Smtp _ _ Delivered => true
  | _ => false
  end.

(** The uses that went through, in a trace. *)
Definition deliveries (t : trace) : list event := filter is_delivery t.

(** A use of the server in which [send_message] returned: the server has
    the message, whether the connection closed without error or not. *)
Definition is_acceptance (e : event) : bool :=
  match e with
  | Smtp _ _ res => message_accepted res
  | _ => false
  end.

(** The uses in which the server got the message, in a trace. *)
Definition acceptances (t : trace) : list event := filter is_acceptance t.

(** A use of the server that did not go through. *)
Definition is_failed_use (e : event) : bool :=
  match e with
  | Smtp _ _ res =>
      match smtp_failure_text res with
      | Some _ => true
      | None => false
      end
  | _ => false
  end.

(** The error text of a turn of [send_bulk_emails] when the application
    has no renderer. *)
Definition no_renderer_error (recipient_data : record) : string :=
  "Error sending to " ++ address recipient_data
  ++ ": 'NoneType' object has no attribute 'render_template'".

(** The uses that did not go through, in a trace. *)
Definition failed_uses (t : trace) : list event := filter is_failed_use t.

(** The keys of the configuration that [send_bulk_emails] reads. *)
Definition bulk_keys : list string :=
  ["files"; "csv_recipients"; "email_template"; "email"; "default_subject"; "smtp"].

(** What a use of the server came to. *)
Definition smtp_result (e : event) : smtp_outcome :=
  match e with
  | Smtp _ _ res => res
  | _ => Delivered
  end.



(** The error texts of the turns of [send_bulk_emails], given how each
    turn ended: [None] for a message sent, the text of the exception for
    a failure. *)
Definition error_texts (turns : list (record * option string)) : list string :=
  flat_map (fun turn =>
              match snd turn with
              | Some text => ["Error sending to " ++ address (fst turn) ++ ": " ++ text]
              | None => []
              end)
           turns.

(** The turns that ended with a message sent. *)
Definition sent_turns (outcomes : list (option string)) : nat :=
  List.length (filter (fun o => match o with None => true | Some _ => false end) outcomes).

(* ===================================================================== *)
(** ** The message of [send_email] *)
(* ===================================================================== *)

(** The part [create_attachment] makes of a path, when it makes one. *)
Definition attachment_of (os : Env) (h : AttachmentHandler) (path : string)
  : option mime_part :=
  match fst (create_attachment os h path []) with
  | Return part => Some part
  | Raise _ => None
  end.

(** The header [From]: the name before the address in angle brackets
    when a name is given. *)
Definition from_header (sender : string) (sender_name : option string) : string :=
  match sender_name with
  | Some name => if PyStr.truthy name then name ++ " <" ++ sender ++ ">" else sender
  | None => sender
  end.

(** The parts of the body: the plain text, then the HTML text when one is
    given. *)
Definition body_parts (body : string) (html_body : option string) : list mime_part :=
  match html_body with
  | Some html =>
      if PyStr.truthy html
      then [text_part "plain" body; text_part "html" html]
      else [text_part "plain" body]
  | None => [text_part "plain" body]
  end.

(** The paths of the [attachments] argument. *)
Definition attachment_paths (attachments : option (list string)) : list string :=
  match attachments with
  | Some paths => paths
  | None => []
  end.

(** The message of a use of the server. *)
Definition smtp_message (e : event) : option message :=
  match e with
  | Smtp _ msg _ => Some msg
  | _ => None
  end.

(** The message the worker makes for a record: the subject and the
    template filled with the record, the files attached. *)
Definition worker_message (w : EmailWorker) (attached : list mime_part)
    (recipient_data : record) : message :=
  {| msg_from := smtp_username (email_app_smtp w);
     msg_to := address recipient_data;
     msg_subject := basic_template_replace (worker_subject w) recipient_data;
     msg_parts :=
       ([text_part "plain" (basic_template_replace (template_content w) recipient_data)]
        ++ attached)%list |}.

(** [text] is a rendering of [source] for the record: what Jinja2 gives
    for it at some moment when Jinja2 is there, what the basic
    replacement gives when not. *)
Definition rendering (os : Env) (source : string) (recipient_data : record)
    (text : string) : Prop :=
  match jinja2 os with
  | Some render => exists t, render t source recipient_data = inl text
  | None => text = basic_template_replace source recipient_data
  end.

(** [msg] is the message [send_bulk_emails] makes for a record, from the
    text of the template file and the subject: body and subject are
    renderings for the record, and it is sent from the user name of the
    server under the sender name of the configuration. *)
Definition bulk_message (os : Env) (smtp_cfg : smtp_config) (email_cfg : email_section)
    (content email_subject : string) (attached : list mime_part)
    (recipient_data : record) (msg : message) : Prop :=
  exists body subject,
    rendering os content recipient_data body
    /\ rendering os email_subject recipient_data subject
    /\ msg = {| msg_from := from_header (smtp_username smtp_cfg) (sender_name_of email_cfg);
                msg_to := address recipient_data;
                msg_subject := subject;
                msg_parts := ([text_part "plain" body] ++ attached)%list |}.

(* ===================================================================== *)
(** ** ConfigurationManager *)
(* ===================================================================== *)

(** What [json.load] comes to on the text of a file. *)
Inductive json_parse :=
| Parsed (v : json)
| JSONDecodeError (msg : string)
| ParseException (msg : string).

Module ConfigurationManager.

Definition DEFAULT_CONFIG : PyDict.dict json :=
  [(Some "smtp",
    JDict [(Some "server", JStr EmptyString);
           (Some "port", JInt 587);
           (Some "username", JStr EmptyString);
           (Some "password", JStr EmptyString);
           (Some "use_tls", JBool true);
           (Some "use_ssl", JBool false);
           (Some "timeout", JInt 30)]);
   (Some "files",
    JDict [(Some "csv_recipients", JStr "recipients.csv");
           (Some "email_template", JStr "template.txt");
           (Some "output_directory", JStr "./output");
           (Some "log_directory", JStr "./logs")]);
   (Some "email",
    JDict [(Some "default_subject", JStr "Email from {{sender_name}}");
           (Some "sender_name", JStr "Email Application");
           (Some "test_email", JNull);
           (Some "reply_to", JNull)]);
   (Some "application",
    JDict [(Some "debug", JBool false);
           (Some "max_attachments", JInt 10);
           (Some "max_file_size_mb", JInt 25);
           (Some "batch_size", JInt 100);
           (Some "template_directory", JStr "./templates")])].

(** The value a turn of the loop of [_merge_config] stores under [key],
    given the value [current] that [result] holds there, if any: the
    merge of the two when both are dictionaries, the value of the user
    otherwise. *)
Fixpoint merged_value (current : option json) (value : json) {struct value} : json :=
  match current, value with
  | Some (JDict d), JDict u =>
      JDict ((fix loop (result : PyDict.dict json) (items : list (PyDict.key * json))
                {struct items} : PyDict.dict json :=
                match items with
                | [] => result
                | (key, v) :: rest =>
                    loop (PyDict.set result key
                            (merged_value (PyDict.get result key) v)) rest
                end) d u)
  | _, _ => value
  end.

(** [ConfigurationManager._merge_config]. *)
Definition merge_config (default user : PyDict.dict json) : PyDict.dict json :=
  fold_left (fun result kv =>
               PyDict.set result (fst kv)
                 (merged_value (PyDict.get result (fst kv)) (snd kv)))
            user default.

(** [config.get(name, {})] when a method of it is called next: the
    dictionary, or the text of the [AttributeError]. *)
Definition section (config : PyDict.dict json) (name : string)
  : exn + PyDict.dict json :=
  match PyDict.get config (Some name) with
  | None => inr []
  | Some (JDict d) => inr d
  | Some v => inl (AttributeError ("'" ++ type_name v ++ "' object has no attribute 'get'"))
  end.

(** [not d.get(field)]. *)
Definition missing (d : PyDict.dict json) (field : string) : bool :=
  match PyDict.get d (Some field) with
  | Some v => negb (json_truthy v)
  | None => true
  end.

(** [isinstance(port, int) and 1 <= port <= 65535]; a [bool] is an
    [int]. *)
Definition port_ok (port : option json) : bool :=
  match port with
  | Some (JInt z) => (1 <=? z)%Z && (z <=? 65535)%Z
  | Some (JBool b) => b
  | _ => false
  end.

Definition smtp_errors (smtp : PyDict.dict json) : list string :=
  (flat_map (fun field =>
               if missing smtp field
               then [("Missing required SMTP field: " ++ field)%string]
               else [])
            ["server"; "username"; "password"]
   ++ (if port_ok (PyDict.get smtp (Some "port")) then []
       else ["SMTP port must be an integer between 1 and 65535"]))%list.

Definition files_errors (files : PyDict.dict json) : list string :=
  ((if missing files "csv_recipients"
    then ["CSV recipients file path is required"] else [])
   ++ (if missing files "email_template"
       then ["Email template file path is required"] else []))%list.

(** [ConfigurationManager._validate_config] on [self.config]: [None] when
    it returns, the exception when it raises. *)
Definition validate_config (config : PyDict.dict json) : option exn :=
  match section config "smtp" with
  | inl e => Some e
  | inr smtp =>
      match section config "files" with
      | inl e => Some e
      | inr files =>
          match (smtp_errors smtp ++ files_errors files)%list with
          | [] => None
          | errors =>
              Some (ConfigurationError
                      ("Configuration validation failed:" ++ line_feed
                       ++ PyStr.join line_feed errors))
          end
      end
  end.

Section Load.

Variable os : Env.

(** [json.load] on the text of the file. *)
Variable json_load : string -> json_parse.

(** The [try] block that reads the file, with its handlers. *)
Definition read_config (config_file : string) : exn + json :=
  let error_reading e :=
    inl (ConfigurationError ("Error reading " ++ config_file ++ ": " ++ e)) in
  match fs os config_file with
  | Regular _ (inl bytes) =>
      match utf8_decode os bytes with
      | inl text =>
          match json_load text with
          | Parsed user_config => inr user_config
          | JSONDecodeError e =>
              inl (ConfigurationError ("Invalid JSON in " ++ config_file ++ ": " ++ e))
          | ParseException e => error_reading e
          end
      | inr e => error_reading e
      end
  | Regular _ (inr e) => error_reading e
  | _ => error_reading (open_error os config_file)
  end.

(** [ConfigurationManager.load_config]: the configuration or the
    exception, and what is logged. *)
Definition load_config (config_file : string)
  : (exn + PyDict.dict json) * list event :=
  match fs os config_file with
  | Absent =>
      (inl (ConfigurationError ("Configuration file not found: " ++ config_file)), [])
  | _ =>
      match read_config config_file with
      | inl e => (inl e, [])
      | inr (JDict user_config) =>
          let config := merge_config DEFAULT_CONFIG user_config in
          match validate_config config with
          | Some e => (inl e, [])
          | None => (inr config, [Log INFO ("Configuration loaded from " ++ config_file)])
          end
      | inr v =>
          (inl (AttributeError ("'" ++ type_name v ++ "' object has no attribute 'items'")),
           [])
      end
  end.

End Load.

End ConfigurationManager.

(* --------------------------------------------------------------------- *)
(** *** EmailApplication.load_config *)

(** The attributes of the application that [load_config] assigns:
    [config] (unset before the first load), the [template_directory] of
    the template renderer ([None] while there is no renderer) and the
    limit of the attachment handler. *)
Record application_attributes := {
  attr_config : option (PyDict.dict json);
  attr_template_directory : option json;
  attr_max_size_bytes : Z
}.

Section ApplicationLoad.

Variable os : Env.
Variable json_load : string -> json_parse.

(** [Environment(loader=FileSystemLoader(template_directory))]: [None]
    when the environment is made, the text of the exception if not. *)
Variable jinja_environment : json -> option string.

(** [TemplateRenderer.__init__]. *)
Definition make_template_renderer (template_directory : json) : option string :=
  match jinja2 os with
  | Some _ =>
      if json_truthy template_directory then jinja_environment template_directory
      else None
  | None => None
  end.

(** [EmailApplication.load_config]: how it ends, the attributes after
    it, and what is logged.  [self.config] is the [dict] that the manager
    returns, so [self.config.get] is [dict.get]: its second argument is
    the default, and a third is a [TypeError]. *)
Definition application_load_config (config_file : string)
    (app : application_attributes)
  : (exn + unit) * application_attributes * list event :=
  match ConfigurationManager.load_config os json_load config_file with
  | (inl e, logged) => (inl e, app, logged)
  | (inr config, logged) =>
      let app1 := {| attr_config := Some config;
                     attr_template_directory := attr_template_directory app;
                     attr_max_size_bytes := attr_max_size_bytes app |} in
      let template_dir :=
        PyDict.get_or config (Some "application") (JStr "template_directory") in
      match make_template_renderer template_dir with
      | Some e => (inl (OtherException e), app1, logged)
      | None =>
          let app2 := {| attr_config := Some config;
                         attr_template_directory := Some template_dir;
                         attr_max_size_bytes := attr_max_size_bytes app |} in
          (inl (TypeError "get expected at most 2 arguments, got 3"), app2, logged)
      end
  end.

End ApplicationLoad.

(* ===================================================================== *)
(** ** The test message of [EmailApplication] *)
(* ===================================================================== *)

(** [str(b)] for a [bool]. *)
Definition str_of_bool (b : bool) : string := if b then "True" else "False".

(** The check mark (U+2713) and the ballot cross (U+2717) of the log
    texts; they lie above code point 255 and are written as their UTF-8
    bytes. *)
Definition check_mark : string :=
  String (ascii_of_nat 226) (String (ascii_of_nat 156) (String (ascii_of_nat 147) EmptyString)).

Definition ballot_cross : string :=
  String (ascii_of_nat 226) (String (ascii_of_nat 156) (String (ascii_of_nat 151) EmptyString)).

(** [Logger.log_test_result]; [error] is [None] when the argument is
    left out. *)
Definition log_test_result (ok : bool) (recipient : string) (error : option string)
  : M unit :=
  if ok
  then emit (Log INFO ("TEST EMAIL " ++ check_mark ++ " - Sent to: " ++ recipient))
  else emit (Log ERROR ("TEST EMAIL " ++ ballot_cross ++ " - Failed to: " ++ recipient
                        ++ " - Error: " ++ match error with
                                           | Some e => e
                                           | None => "None"
                                           end)).

(** [test_recipient or email_config.get('test_email') or
    smtp_config['username']]. *)
Definition test_address (smtp_config : smtp_config) (email_config : email_section)
    (test_recipient : option string) : string :=
  or_default test_recipient
    (or_default match email_test_email email_config with
                | Some value => value
                | None => None
                end
                (smtp_username smtp_config)).

(** The body of the test message. *)
Definition test_body (smtp_config : smtp_config) (timestamp : string) : string :=
  PyStr.strip
    (line_feed
     ++ "Email Application Configuration Test" ++ line_feed
     ++ line_feed
     ++ "This test email verifies that your SMTP configuration is working correctly."
     ++ line_feed
     ++ line_feed
     ++ "Configuration Details:" ++ line_feed
     ++ "- SMTP Server: " ++ smtp_server smtp_config ++ ":"
     ++ PyStr.str_of_Z (smtp_port smtp_config) ++ line_feed
     ++ "- Username: " ++ smtp_username smtp_config ++ line_feed
     ++ "- TLS Enabled: " ++ str_of_bool (smtp_use_tls smtp_config) ++ line_feed
     ++ "- SSL Enabled: " ++ str_of_bool (smtp_use_ssl smtp_config) ++ line_feed
     ++ "- Timestamp: " ++ timestamp ++ line_feed
     ++ line_feed
     ++ "If you receive this email, your configuration is working properly!" ++ line_feed
     ++ line_feed
     ++ "Best regards," ++ line_feed
     ++ "Email Application" ++ line_feed
     ++ "        ").

Section TestMessage.

Variable os : Env.

(** [EmailApplication.send_test_email]; [timestamp] is what the clock
    gives, formatted. *)
Definition send_test_email (app : EmailApplication)
    (timestamp : string) (test_recipient : option string) : M bool :=
  match config app with
  | Unassigned =>
      raise (AttributeError "'EmailApplication' object has no attribute 'config'")
  | Falsy => raise (EmailAppError "No configuration loaded")
  | Assigned cfg =>
      smtp_config <- subscript (cfg_smtp cfg) "smtp" ;;
      email_config <- subscript (cfg_email cfg) "email" ;;
      let recipient := test_address smtp_config email_config test_recipient in
      let subject := "Email Application Test - " ++ timestamp in
      let body := test_body smtp_config timestamp in
      try_except
        (ok <- send_email os (attachment_handler app) smtp_config
                 (smtp_username smtp_config) (OneRecipient recipient) subject body
                 None None
                 match email_sender_name email_config with
                 | Some value => value
                 | None => Some "Email Application Test"
                 end ;;
         log_test_result ok recipient None ;;;
         ret ok)
        (fun e =>
           log_test_result false recipient (Some (exn_str e)) ;;;
           ret false)
  end.

End TestMessage.

(* ===================================================================== *)
(** ** The selector of the e-mail column *)
(* ===================================================================== *)

(** [str.lower] on a character: the letters A to Z and the capital
    letters of Latin-1 move up by 32. *)
Definition lower_char (c : ascii) : ascii :=
  let n := nat_of_ascii c in
  if (Nat.leb 65 n && Nat.leb n 90)
     || (Nat.leb 192 n && Nat.leb n 222 && negb (Nat.eqb n 215))
  then ascii_of_nat (n + 32)
  else c.

(** [s.lower()]. *)
Fixpoint lower (s : string) : string :=
  match s with
  | EmptyString => EmptyString
  | String c s' => String (lower_char c) (lower s')
  end.

(** The comprehension [email_candidates] of [update_columns]. *)
Definition email_candidates (columns : list string) : list string :=
  filter (fun col => PyStr.contains (lower col) "email"
                     || PyStr.contains (lower col) "mail")
         columns.

(** [QComboBox.findText]: the index of the first item with that text. *)
Fixpoint findText (items : list string) (text : string) : option nat :=
  match items with
  | [] => None
  | item :: items' =>
      if String.eqb item text then Some 0
      else match findText items' text with
           | Some i => Some (S i)
           | None => None
           end
  end.

(** [EmailColumnSelector.update_columns]: the index that is current in
    the combo box afterwards, [None] for an empty box.  The box is
    emptied and filled, which makes its first item current;
    [setCurrentText] then moves to the first item with the text, if there
    is one. *)
Definition update_columns (columns : list string) : option nat :=
  match columns with
  | [] => None
  | _ :: _ =>
      match email_candidates columns with
      | candidate :: _ =>
          match findText columns candidate with
          | Some index => Some index
          | None => Some 0
          end
      | [] => Some 0
      end
  end.

(** [EmailColumnSelector.get_selected_column] after [update_columns]:
    the text of the current item, the empty string for an empty box. *)
Definition get_selected_column (columns : list string) : string :=
  match update_columns columns with
  | Some index => nth index columns EmptyString
  | None => EmptyString
  end.

(* ===================================================================== *)
(** ** The campaign of the main window *)
(* ===================================================================== *)

(** A turn of the loop of [EmailAutomationApp.send_bulk_emails] that
    prepares the recipients: a copy of the record with the value of the
    selected column, or the empty string, under the key ['email']. *)
Definition updated_recipient (email_column : string) (recipient : record) : record :=
  PyDict.set recipient email_key
    (PyDict.get_or recipient (Some email_column) EmptyString).

(** The list [updated_recipients] the worker is made with. *)
Definition updated_recipients (email_column : string) (recipients_data : list record)
  : list record :=
  map (updated_recipient email_column) recipients_data.

(** The value of the selected column in a record. *)
Definition selected_address (email_column : string) (recipient : record) : string :=
  PyDict.get_or recipient (Some email_column) EmptyString.

(** The controlling thread never calls [stop()]. *)
Definition never_stopped (i : nat) : bool := false.

(* ===================================================================== *)
(** ** An office whose server takes every message *)
(* ===================================================================== *)

Module Office.

Definition world : Env :=
  {| fs := fs Demo.world;
     open_error := open_error Demo.world;
     utf8_decode := utf8_decode Demo.world;
     utf8_before_error := utf8_before_error Demo.world;
     utf8_decode_replace := utf8_decode_replace Demo.world;
     csv_sniff := csv_sniff Demo.world;
     csv_reader := csv_reader Demo.world;
     guess_type := guess_type Demo.world;
     jinja2 := jinja2 Demo.world;
     smtp := fun _ _ _ => Delivered |}.

(** Three records as [read_recipients] loads them; the second has no
    work address. *)
Definition staff : list record :=
  [[(Some "name", "Ann"); (Some "work", "ann@example.org")];
   [(Some "name", "Bob")];
   [(Some "name", "Cy"); (Some "work", "cy@example.org"); (Some "email", "cy@home.example")]].

(** The worker the main window makes for them when the column [work] is
    selected. *)
Definition worker : EmailWorker :=
  {| email_app_smtp := Demo.server;
     email_app_handler := {| max_size_mb := 25 |};
     recipients_data := updated_recipients "work" staff;
     template_content := "Hello {{name}}";
     worker_subject := "News for {{name}}";
     worker_attachments := ["template.txt"] |}.

End Office.

(* ===================================================================== *)
(** ** The Python library at work *)
(* ===================================================================== *)

Example replace_all_occurrences :
  PyStr.replace "a-b-c" "-" "+" = "a+b+c".
Proof. reflexivity. Qed.

Example replace_does_not_overlap :
  PyStr.replace "aaaa" "aa" "b" = "bb" /\ PyStr.replace "aaa" "aa" "b" = "ba".
Proof. split; reflexivity. Qed.

Example replace_empty_old : PyStr.replace "ab" EmptyString "-" = "-a-b-".
Proof. reflexivity. Qed.

Example strip_both_sides :
  PyStr.strip "  a b  " = "a b" /\ PyStr.strip "   " = EmptyString /\
  PyStr.strip EmptyString = EmptyString.
Proof. repeat split; reflexivity. Qed.

Example repr_samples :
  PyStr.repr "x" = "'x'" /\
  PyStr.repr "it's" = String PyStr.double_quote ("it's" ++ String PyStr.double_quote EmptyString) /\
  PyStr.str_of_list ["a"; EmptyString] = "['a', '']" /\
  PyStr.str_of_Z 1024 = "1024" /\ PyStr.str_of_Z 0 = "0".
Proof. repeat split; reflexivity. Qed.

(** A long row has its surplus cells under the key [None], a short row
    has [None] for the columns it lacks, and a name repeated in the
    header keeps its first place and takes the last cell. *)
Example dictreader_row_shapes :
  dictreader_row ["a"; "b"] ["1"; "2"; "3"]
  = [(Some "a", CStr "1"); (Some "b", CStr "2"); (None, CList ["3"])]
  /\ dictreader_row ["a"; "b"] ["1"] = [(Some "a", CStr "1"); (Some "b", CNone)]
  /\ dictreader_row ["a"; "b"; "a"] ["1"; "2"; "3"]
     = [(Some "a", CStr "3"); (Some "b", CStr "2")].
Proof. repeat split; reflexivity. Qed.

(** A row of empty cells that is longer than the header is kept, for the
    list of its surplus cells is not empty. *)
Example long_row_of_empty_cells_is_kept :
  collect_recipients (dictreader_rows ["a"; "b"] [[EmptyString; EmptyString; EmptyString]])
  = [[(Some "a", EmptyString); (Some "b", EmptyString); (None, "['']")]].
Proof. reflexivity. Qed.

Example one_decimal_rounds_to_even :
  format_1f 262144 (1024 * 1024) = "0.2" /\ format_1f 786432 (1024 * 1024) = "0.8"
  /\ format_1f (30 * 1024 * 1024) (1024 * 1024) = "30.0".
Proof. repeat split; reflexivity. Qed.

Example basename_samples :
  basename "/tmp/report.pdf" = "report.pdf" /\ basename "report.pdf" = "report.pdf"
  /\ split_slash "text/plain" = Some ("text", "plain").
Proof. repeat split; reflexivity. Qed.

(* ===================================================================== *)
(** ** Facts about [str.replace] *)
(* ===================================================================== *)

Module ReplaceFacts.

Import PyStr.

Lemma prefix_app (a rest : string) : String.prefix a (a ++ rest) = true.
Proof.
  induction a as [|c a IH]; cbn [append String.prefix].
  - destruct rest; reflexivity.
  - destruct (ascii_dec c c) as [_|N]; [exact IH | contradiction].
Qed.

Lemma replace_scan_skip (old new a rest : string) :
  replace_scan old new (a ++ rest) (String.length a) = replace_scan old new rest 0.
Proof.
  induction a as [|c a IH]; simpl.
  - reflexivity.
  - exact IH.
Qed.

(** An occurrence at the head is replaced and the scan resumes after it. *)
Lemma replace_head (c : ascii) (old' new rest : string) :
  replace (String c old' ++ rest) (String c old') new
  = new ++ replace rest (String c old') new.
Proof.
  unfold replace.
  change (String c old' ++ rest) with (String c (old' ++ rest)).
  cbn [replace_scan].
  change (String c (old' ++ rest)) with (String c old' ++ rest).
  rewrite prefix_app.
  cbn [String.length]. rewrite Nat.sub_succ, Nat.sub_0_r.
  rewrite replace_scan_skip. reflexivity.
Qed.

(** Where no occurrence starts, the character is kept. *)
Lemma replace_keep (c d : ascii) (old' new s : string) :
  String.prefix (String c old') (String d s) = false ->
  replace (String d s) (String c old') new
  = String d (replace s (String c old') new).
Proof.
  intros H. unfold replace. cbn [replace_scan]. rewrite H. reflexivity.
Qed.

Lemma prefix_other_char (c d : ascii) (old' s : string) :
  Ascii.eqb c d = false -> String.prefix (String c old') (String d s) = false.
Proof.
  intros H. cbn [String.prefix]. destruct (ascii_dec c d) as [E|_]; [|reflexivity].
  subst d. rewrite Ascii.eqb_refl in H. discriminate.
Qed.

(** Text without the first character of [old] passes unchanged. *)
Lemma replace_text (c : ascii) (old' new s rest : string) :
  has_char c s = false ->
  replace (s ++ rest) (String c old') new = s ++ replace rest (String c old') new.
Proof.
  induction s as [|d s IH]; intros H.
  - reflexivity.
  - simpl in H. apply orb_false_iff in H. destruct H as [Hd Hs].
    change (String d s ++ rest) with (String d (s ++ rest)).
    rewrite replace_keep by (apply prefix_other_char; exact Hd).
    rewrite IH by exact Hs. reflexivity.
Qed.

Lemma append_assoc (a b c : string) : (a ++ b) ++ c = a ++ (b ++ c).
Proof. induction a as [|x a IH]; simpl; [reflexivity | now rewrite IH]. Qed.

Lemma append_nil_r (a : string) : a ++ EmptyString = a.
Proof. induction a as [|x a IH]; simpl; [reflexivity | now rewrite IH]. Qed.

Lemma has_char_app (c : ascii) (a b : string) :
  has_char c (a ++ b) = has_char c a || has_char c b.
Proof.
  induction a as [|x a IH]; simpl; [reflexivity|].
  rewrite IH. apply orb_assoc.
Qed.

Lemma no_brace_cons (c : ascii) (s : string) :
  no_brace (String c s) = true ->
  Ascii.eqb "{" c = false /\ Ascii.eqb "}" c = false /\ no_brace s = true.
Proof.
  unfold no_brace. simpl. intros H.
  apply andb_true_iff in H. destruct H as [H1 H2].
  apply negb_true_iff, orb_false_iff in H1.
  apply negb_true_iff, orb_false_iff in H2.
  destruct H1 as [H1 H1'], H2 as [H2 H2'].
  rewrite H1', H2'. auto.
Qed.

Lemma prefix_cons_eq (a : ascii) (s1 s2 : string) :
  String.prefix (String a s1) (String a s2) = String.prefix s1 s2.
Proof.
  cbn [String.prefix]. destruct (ascii_dec a a) as [_|N]; [reflexivity | contradiction].
Qed.

Lemma prefix_cons_neq (a b : ascii) (s1 s2 : string) :
  a <> b -> String.prefix (String a s1) (String b s2) = false.
Proof.
  intros N. cbn [String.prefix].
  destruct (ascii_dec a b) as [E|_]; [contradiction | reflexivity].
Qed.

Lemma ascii_eqb_false_neq (a b : ascii) : Ascii.eqb a b = false -> a <> b.
Proof. intros H E. subst b. rewrite Ascii.eqb_refl in H. discriminate. Qed.

(** Two names without braces that differ cannot be taken for one another
    where they are closed. *)
Lemma prefix_closing_differs (m n rest : string) :
  no_brace m = true -> no_brace n = true -> m <> n ->
  String.prefix (m ++ "}}") (n ++ "}}" ++ rest) = false.
Proof.
  revert n. induction m as [|a m IH]; intros n Hm Hn Hne.
  - destruct n as [|b n]; [congruence|].
    apply no_brace_cons in Hn. destruct Hn as (_ & Hb & _).
    cbn [append]. apply prefix_cons_neq. now apply ascii_eqb_false_neq.
  - apply no_brace_cons in Hm. destruct Hm as (_ & Ha & Hm).
    destruct n as [|b n]; cbn [append].
    + apply prefix_cons_neq. intros E. subst a. discriminate.
    + apply no_brace_cons in Hn. destruct Hn as (_ & _ & Hn).
      destruct (ascii_dec a b) as [E|N].
      * subst b. rewrite prefix_cons_eq. apply IH; [exact Hm | exact Hn | congruence].
      * now apply prefix_cons_neq.
Qed.

(** The head of what follows an opening brace of a placeholder is never
    an opening brace. *)
Lemma prefix_second_brace (old' n rest : string) :
  no_brace n = true ->
  String.prefix (String "{" (String "{" old')) (String "{" (n ++ "}}" ++ rest)) = false.
Proof.
  intros Hn. rewrite prefix_cons_eq.
  destruct n as [|b n]; cbn [append].
  - apply prefix_cons_neq. discriminate.
  - apply no_brace_cons in Hn. destruct Hn as (Hb & _ & _).
    apply prefix_cons_neq. now apply ascii_eqb_false_neq.
Qed.

(** The placeholder of another name passes unchanged. *)
Lemma replace_other_field (m n new rest : string) :
  no_brace m = true -> no_brace n = true -> m <> n ->
  replace (segment_text (Field n) ++ rest) (segment_text (Field m)) new
  = segment_text (Field n) ++ replace rest (segment_text (Field m)) new.
Proof.
  intros Hm Hn Hne. cbn [segment_text].
  rewrite !append_assoc.
  change ("{{" ++ n ++ "}}" ++ rest) with (String "{" (String "{" (n ++ "}}" ++ rest))).
  change ("{{" ++ m ++ "}}") with (String "{" (String "{" (m ++ "}}"))).
  rewrite replace_keep.
  2:{ rewrite !prefix_cons_eq. now apply prefix_closing_differs. }
  rewrite replace_keep by (now apply prefix_second_brace).
  rewrite <- append_assoc.
  rewrite replace_text.
  - rewrite append_assoc. reflexivity.
  - rewrite has_char_app. unfold no_brace in Hn.
    apply andb_true_iff in Hn. destruct Hn as [Hn _].
    apply negb_true_iff in Hn. rewrite Hn. reflexivity.
Qed.

(** The placeholder of the name itself gives way to the value. *)
Lemma replace_same_field (m new rest : string) :
  replace (segment_text (Field m) ++ rest) (segment_text (Field m)) new
  = new ++ replace rest (segment_text (Field m)) new.
Proof. cbn [segment_text]. apply replace_head. Qed.

Lemma replace_nil (c : ascii) (old' new : string) :
  replace EmptyString (String c old') new = EmptyString.
Proof. reflexivity. Qed.

Lemma replace_segments (m v : string) (segs : list segment) :
  no_brace m = true ->
  forallb plain_segment segs = true ->
  replace (template_text segs) (segment_text (Field m)) v
  = template_text (map (substitute m v) segs).
Proof.
  intros Hm. induction segs as [|g segs IH]; intros Hs.
  - reflexivity.
  - simpl in Hs. apply andb_true_iff in Hs. destruct Hs as [Hg Hs].
    cbn [template_text map]. destruct g as [s|n]; cbn [substitute].
    + cbn [segment_text]. change ("{{" ++ m ++ "}}") with (String "{" ("{" ++ m ++ "}}")).
      rewrite replace_text.
      * f_equal. apply IH, Hs.
      * unfold plain_segment, no_open_brace in Hg. now apply negb_true_iff in Hg.
    + destruct (String.eqb m n) eqn:E.
      * apply String.eqb_eq in E. subst n.
        rewrite replace_same_field. cbn [segment_text]. f_equal. apply IH, Hs.
      * apply String.eqb_neq in E.
        rewrite replace_other_field by assumption.
        f_equal. apply IH, Hs.
Qed.

Lemma substitute_plain (m v : string) (segs : list segment) :
  no_open_brace v = true ->
  forallb plain_segment segs = true ->
  forallb plain_segment (map (substitute m v) segs) = true.
Proof.
  intros Hv. induction segs as [|g segs IH]; intros Hs; [reflexivity|].
  simpl in Hs. apply andb_true_iff in Hs. destruct Hs as [Hg Hs].
  cbn [map forallb]. rewrite (IH Hs), andb_true_r.
  destruct g as [s|n]; cbn [substitute]; [exact Hg|].
  destruct (String.eqb m n); [exact Hv | exact Hg].
Qed.

Lemma fill_substitute (k : PyDict.key) (v : string) (data : record) (g : segment) :
  fill data (substitute (PyDict.key_str k) v g) = fill ((k, v) :: data) g.
Proof.
  destruct g as [s|n]; cbn [substitute fill column_value fst snd]; [reflexivity|].
  destruct (String.eqb (PyDict.key_str k) n); reflexivity.
Qed.

Lemma fill_all_substitute (k : PyDict.key) (v : string) (data : record)
    (segs : list segment) :
  fill_all data (map (substitute (PyDict.key_str k) v) segs)
  = fill_all ((k, v) :: data) segs.
Proof.
  induction segs as [|g segs IH]; [reflexivity|].
  cbn [map fill_all]. rewrite IH, fill_substitute. reflexivity.
Qed.

Lemma fill_all_nil (segs : list segment) : fill_all [] segs = template_text segs.
Proof.
  induction segs as [|g segs IH]; [reflexivity|].
  cbn [fill_all template_text]. rewrite IH. destruct g; reflexivity.
Qed.

(** Field after field, the substitution comes to filling every piece. *)
Lemma basic_template_replace_segments (data : record) (segs : list segment) :
  forallb plain_field data = true ->
  forallb plain_segment segs = true ->
  basic_template_replace (template_text segs) data = fill_all data segs.
Proof.
  revert segs. induction data as [|[k v] data IH]; intros segs Hd Hs.
  - symmetry. apply fill_all_nil.
  - simpl in Hd. apply andb_true_iff in Hd. destruct Hd as [Hkv Hd].
    unfold plain_field in Hkv. cbn [fst snd] in Hkv.
    apply andb_true_iff in Hkv. destruct Hkv as [Hk Hv].
    unfold basic_template_replace. cbn [fold_left fst snd].
    change (placeholder k) with (segment_text (Field (PyDict.key_str k))).
    rewrite replace_segments by assumption.
    fold (basic_template_replace
            (template_text (map (substitute (PyDict.key_str k) v) segs)) data).
    rewrite IH; [apply fill_all_substitute | exact Hd |].
    now apply substitute_plain.
Qed.

End ReplaceFacts.

(* ===================================================================== *)
(** ** Running computations *)
(* ===================================================================== *)

Module Run.

Local Open Scope list_scope.

Lemma runs_ret {A : Type} (a : A) (t : trace) : runs (ret a) t (Return a) [].
Proof. unfold runs, ret. now rewrite app_nil_r. Qed.

Lemma runs_raise {A : Type} (e : exn) (t : trace) : runs (@raise A e) t (Raise e) [].
Proof. unfold runs, raise. now rewrite app_nil_r. Qed.

Lemma runs_emit (e : event) (t : trace) : runs (emit e) t (Return tt) [e].
Proof. reflexivity. Qed.

Lemma runs_history (t : trace) : runs history t (Return t) [].
Proof. unfold runs, history. now rewrite app_nil_r. Qed.

Lemma runs_bind_ret {A B : Type} (m : M A) (k : A -> M B) (t : trace)
    (a : A) (e1 e2 : list event) (o : outcome B) :
  runs m t (Return a) e1 -> runs (k a) (t ++ e1) o e2 ->
  runs (bind m k) t o (e1 ++ e2).
Proof. unfold runs, bind. intros -> ->. now rewrite app_assoc. Qed.

Lemma runs_bind_raise {A B : Type} (m : M A) (k : A -> M B) (t : trace)
    (e : exn) (e1 : list event) :
  runs m t (Raise e) e1 -> runs (bind m k) t (Raise e) e1.
Proof. unfold runs, bind. now intros ->. Qed.

Lemma runs_try_ret {A : Type} (m : M A) (h : exn -> M A) (t : trace)
    (a : A) (e1 : list event) :
  runs m t (Return a) e1 -> runs (try_except m h) t (Return a) e1.
Proof. unfold runs, try_except. now intros ->. Qed.

Lemma runs_try_raise {A : Type} (m : M A) (h : exn -> M A) (t : trace)
    (e : exn) (e1 e2 : list event) (o : outcome A) :
  runs m t (Raise e) e1 -> runs (h e) (t ++ e1) o e2 ->
  runs (try_except m h) t o (e1 ++ e2).
Proof. unfold runs, try_except. intros -> ->. now rewrite app_assoc. Qed.

(** Binding a value that is at hand runs what follows. *)
Lemma runs_bind_pure {A B : Type} (a : A) (k : A -> M B) (t : trace)
    (o : outcome B) (evs : list event) :
  runs (k a) t o evs -> runs (bind (ret a) k) t o evs.
Proof. exact (fun H => H). Qed.

(** A run has one result. *)
Lemma runs_unique {A : Type} (m : M A) (t : trace) (o o' : outcome A)
    (evs evs' : list event) :
  runs m t o evs -> runs m t o' evs' -> o = o' /\ evs = evs'.
Proof.
  unfold runs. intros H H'. rewrite H in H'. inversion H'; subst.
  split; [reflexivity|]. eapply app_inv_head; eassumption.
Qed.

Lemma smtp_calls_app (a b : list event) :
  smtp_calls (a ++ b) = smtp_calls a ++ smtp_calls b.
Proof. apply filter_app. Qed.

Lemma logs_no_smtp (evs : list event) :
  forallb is_log evs = true -> smtp_calls evs = [].
Proof.
  induction evs as [|e evs IH]; [reflexivity|].
  simpl. intros H. apply andb_true_iff in H. destruct H as [He H].
  destruct e; try discriminate; simpl; auto.
Qed.

Lemma logs_are_log_or_smtp (evs : list event) :
  forallb is_log evs = true -> forallb is_log_or_smtp evs = true.
Proof.
  induction evs as [|e evs IH]; [reflexivity|].
  simpl. intros H. apply andb_true_iff in H. destruct H as [He H].
  unfold is_log_or_smtp at 1. rewrite He. simpl. auto.
Qed.

(** Closes a goal [exists o evs, runs m t o evs /\ P evs] when [m] is
    straight-line code. *)
Ltac run_line :=
  repeat first
    [ apply runs_ret | apply runs_raise | apply runs_emit | apply runs_history
    | eapply runs_bind_ret | eapply runs_bind_raise ].

Section Components.

Variable os : Env.

(** [create_attachment] does not look at the trace and only logs. *)
Lemma create_attachment_runs (h : AttachmentHandler) (path : string) :
  exists o evs, (forall t, runs (create_attachment os h path) t o evs)
                /\ forallb is_log evs = true.
Proof.
  unfold create_attachment.
  destruct (fs os path) as [| |size data];
    try (eexists _, _; split; [intros t; run_line | reflexivity]).
  destruct (max_size_bytes h <? size)%Z;
    try (eexists _, _; split; [intros t; run_line | reflexivity]).
  destruct (split_slash _) as [[main_type sub_type]|];
    try (eexists _, _; split; [intros t; run_line | reflexivity]).
  destruct data; eexists _, _; (split; [intros t; run_line | reflexivity]).
Qed.

Lemma create_attachment_invalid (h : AttachmentHandler) (path : string) (t : trace) :
  invalid_attachment os h path = true ->
  exists msg, runs (create_attachment os h path) t (Raise (EmailSendError msg)) [].
Proof.
  unfold invalid_attachment, create_attachment.
  destruct (fs os path) as [| |size data]; intros H;
    try (eexists; apply runs_raise).
  rewrite H. eexists; apply runs_raise.
Qed.

Lemma create_attachment_attachable (h : AttachmentHandler) (path : string) :
  attachable os h path = true ->
  exists part evs, (forall t, runs (create_attachment os h path) t (Return part) evs)
                   /\ forallb is_log evs = true.
Proof.
  unfold attachable, create_attachment.
  destruct (fs os path) as [| |size [data|e]]; try discriminate.
  intros H. apply andb_true_iff in H. destruct H as [Hsize Hsplit].
  apply negb_true_iff in Hsize. rewrite Hsize.
  destruct (split_slash _) as [[main_type sub_type]|]; [|discriminate].
  eexists _, _; split; [intros t; run_line | reflexivity].
Qed.

Lemma attach_file_runs (h : AttachmentHandler) (path : string)
    (attached : list mime_part) :
  exists o evs, (forall t, runs (attach_file os h path attached) t o evs)
    /\ forallb is_log evs = true
    /\ (forall e, o = Raise e ->
        exists msg, e = EmailSendError ("Attachment error: " ++ msg)%string)
    /\ (invalid_attachment os h path = true -> exists e, o = Raise e)
    /\ (attachable os h path = true -> exists parts, o = Return parts).
Proof.
  unfold attach_file.
  destruct (attachable os h path) eqn:Hok.
  - destruct (create_attachment_attachable h path Hok) as (part & evs & Hrun & Hlog).
    eexists _, _. split; [|split; [|split; [|split]]].
    + intros t. apply runs_try_ret.
      eapply runs_bind_ret; [apply Hrun | apply runs_ret].
    + now rewrite app_nil_r.
    + discriminate.
    + intros Hbad. exfalso. revert Hok Hbad. unfold attachable, invalid_attachment.
      destruct (fs os path) as [| |size [data|e]]; try discriminate.
      intros H1 H2. rewrite H2 in H1. discriminate.
    + eauto.
  - destruct (create_attachment_runs h path) as ([part|e] & evs & Hrun & Hlog).
    + eexists _, _. split; [|split; [|split; [|split]]].
      * intros t. apply runs_try_ret.
        eapply runs_bind_ret; [apply Hrun | apply runs_ret].
      * now rewrite app_nil_r.
      * discriminate.
      * intros Hbad.
        destruct (create_attachment_invalid h path [] Hbad) as (msg & Hbad').
        destruct (runs_unique _ _ _ _ _ _ (Hrun []) Hbad') as [E _]. discriminate.
      * discriminate.
    + eexists _, _. split; [|split; [|split; [|split]]].
      * intros t. eapply runs_try_raise.
        -- eapply runs_bind_raise. apply Hrun.
        -- run_line.
      * rewrite forallb_app, Hlog. reflexivity.
      * intros e' [= <-]. eexists. reflexivity.
      * eauto.
      * discriminate.
Qed.

Lemma attach_loop_runs (h : AttachmentHandler) (paths : list string) :
  forall attached : list mime_part,
  exists o evs, (forall t, runs (for_each paths (attach_file os h) attached) t o evs)
    /\ forallb is_log evs = true
    /\ (forall e, o = Raise e ->
        exists msg, e = EmailSendError ("Attachment error: " ++ msg)%string)
    /\ (existsb (invalid_attachment os h) paths = true -> exists e, o = Raise e)
    /\ (forallb (attachable os h) paths = true -> exists parts, o = Return parts).
Proof.
  induction paths as [|path paths IH]; intros attached.
  - exists (Return attached), []. repeat split.
    + intros t. apply runs_ret.
    + discriminate.
    + discriminate.
    + eauto.
  - destruct (attach_file_runs h path attached)
      as ([parts1|e1] & evs1 & Hrun1 & Hlog1 & Hexn1 & Hbad1 & Hok1).
    + destruct (IH parts1) as (o & evs & Hrun & Hlog & Hexn & Hbad & Hok).
      exists o, (evs1 ++ evs). split; [|split; [|split; [|split]]].
      * intros t. cbn [for_each]. eapply runs_bind_ret; [apply Hrun1 | apply Hrun].
      * rewrite forallb_app, Hlog1, Hlog. reflexivity.
      * exact Hexn.
      * cbn [existsb]. intros H. apply orb_true_iff in H. destruct H as [H|H].
        -- destruct (Hbad1 H) as (e & He). discriminate.
        -- auto.
      * cbn [forallb]. intros H. apply andb_true_iff in H. destruct H as [_ H]. auto.
    + exists (Raise e1), evs1. split; [|split; [|split; [|split]]].
      * intros t. cbn [for_each]. eapply runs_bind_raise. apply Hrun1.
      * exact Hlog1.
      * intros e [= <-]. now apply Hexn1.
      * eauto.
      * cbn [forallb]. intros H. apply andb_true_iff in H. destruct H as [H _].
        destruct (Hok1 H) as (parts & Hparts). discriminate.
Qed.

Lemma log_each_runs (entry : string -> event) (recipients : list string) :
  (forall r, is_log (entry r) = true) ->
  exists evs, (forall t, runs (log_each entry recipients) t (Return tt) evs)
              /\ forallb is_log evs = true.
Proof.
  intros Hentry. unfold log_each.
  induction recipients as [|r recipients IH].
  - exists []. split; [intros t; apply runs_ret | reflexivity].
  - destruct IH as (evs & Hrun & Hlog).
    exists ([entry r] ++ evs). split.
    + intros t. cbn [for_each]. eapply runs_bind_ret; [apply runs_emit | apply Hrun].
    + cbn [app forallb]. now rewrite Hentry, Hlog.
Qed.

(** The optional attachments of [send_email]. *)
Lemma attachments_run (h : AttachmentHandler) (attachments : option (list string)) :
  exists o evs,
    (forall t, runs (match attachments with
                     | Some paths => attach_files os h paths
                     | None => ret []
                     end) t o evs)
    /\ forallb is_log evs = true
    /\ (forall e, o = Raise e ->
        exists msg, e = EmailSendError ("Attachment error: " ++ msg)%string)
    /\ (attachments_invalid os h attachments = true -> exists e, o = Raise e)
    /\ (attachments_ok os h attachments = true -> exists parts, o = Return parts).
Proof.
  destruct attachments as [paths|].
  - apply attach_loop_runs.
  - exists (Return []), []. repeat split.
    + intros t. apply runs_ret.
    + discriminate.
    + discriminate.
    + eauto.
Qed.

Lemma send_email_many (h : AttachmentHandler) (cfg : smtp_config) (sender : string)
    (r : string) (l : list string) (subject body : string) (html : option string)
    (attachments : option (list string)) (name : option string) (t : trace) :
  exists o evs,
    runs (send_email os h cfg sender (ManyRecipients (r :: l)) subject body html
            attachments name) t o evs
    /\ forallb is_log_or_smtp evs = true
    /\ (not_sent o evs \/ handed_over os cfg t (PyStr.join ", " (r :: l)) o evs)
    /\ (attachments_invalid os h attachments = true ->
        smtp_calls evs = [] /\
        exists msg, o = Raise (EmailSendError ("Attachment error: " ++ msg)%string))
    /\ (attachments_ok os h attachments = true ->
        handed_over os cfg t (PyStr.join ", " (r :: l)) o evs).
Proof.
  destruct (attachments_run h attachments)
    as (oA & evsA & HrunA & HlogA & HexnA & HbadA & HokA).
  pose proof (logs_no_smtp _ HlogA) as HquietA.
  cbv beta iota delta [send_email].
  set (e1 := Log INFO ("Sending email to: " ++ PyStr.join ", " (r :: l))%string).
  set (e2 := LogSmtpConnection (smtp_server cfg) (smtp_port cfg) (smtp_username cfg)).
  destruct oA as [attached|e].
  - set (from := match name with
                 | Some n => if PyStr.truthy n then (n ++ " <" ++ sender ++ ">")%string
                             else sender
                 | None => sender
                 end).
    set (bodies := match html with
                   | Some html0 =>
                       if PyStr.truthy html0
                       then [text_part "plain" body; text_part "html" html0]
                       else [text_part "plain" body]
                   | None => [text_part "plain" body]
                   end).
    set (msg := {| msg_from := from; msg_to := PyStr.join ", " (r :: l);
                   msg_subject := subject; msg_parts := bodies ++ attached |}).
    set (so_far := ((t ++ [e1]) ++ [e2]) ++ evsA).
    assert (Hcount : List.length (smtp_calls so_far) = List.length (smtp_calls t)).
    { unfold so_far. rewrite !smtp_calls_app, HquietA. cbn. now rewrite !app_nil_r. }
    set (res := smtp os (List.length (smtp_calls so_far)) cfg msg).
    assert (Hhanded : forall tail,
               forallb is_log tail = true ->
               handed_over os cfg t (PyStr.join ", " (r :: l))
                 match smtp_failure_text res with
                 | None => Return true
                 | Some text => Raise (EmailSendError ("SMTP error: " ++ text)%string)
                 end
                 ([e1] ++ [e2] ++ evsA ++ [] ++ [Smtp cfg msg res] ++ tail)).
    { intros tail Htail. exists msg. cbv zeta. rewrite <- Hcount. fold res.
      split; [reflexivity|]. split; [|reflexivity].
      rewrite !smtp_calls_app, HquietA, (logs_no_smtp _ Htail). reflexivity. }
    assert (Hevents : forall tail,
               forallb is_log tail = true ->
               forallb is_log_or_smtp
                 ([e1] ++ [e2] ++ evsA ++ [] ++ [Smtp cfg msg res] ++ tail) = true).
    { intros tail Htail.
      rewrite !forallb_app, (logs_are_log_or_smtp _ HlogA),
        (logs_are_log_or_smtp _ Htail). reflexivity. }
    assert (HS : exists evsS,
               (forall t', runs (if message_accepted res
                                 then log_each (fun x => LogEmailSuccess x subject
                                                           (List.length attached)) (r :: l)
                                 else ret tt) t' (Return tt) evsS)
               /\ forallb is_log evsS = true).
    { destruct (message_accepted res).
      - apply log_each_runs. reflexivity.
      - exists []. split; [intros t'; apply runs_ret | reflexivity]. }
    destruct HS as (evsS & HrunS & HlogS).
    destruct (smtp_failure_text res) as [text|] eqn:Hres.
    + destruct (log_each_runs (fun x => LogEmailFailure x text subject) (r :: l))
        as (evsL & HrunL & HlogL); [reflexivity|].
      assert (Htail : forallb is_log (evsS ++ evsL ++ []) = true).
      { rewrite !forallb_app, HlogS, HlogL. reflexivity. }
      exists (Raise (EmailSendError ("SMTP error: " ++ text)%string)),
             ([e1] ++ [e2] ++ evsA ++ [] ++ [Smtp cfg msg res] ++ evsS ++ evsL ++ []).
      split; [|split; [|split; [|split]]].
      * eapply runs_bind_ret; [apply runs_emit|].
        eapply runs_bind_ret; [apply runs_emit|].
        eapply runs_bind_ret; [apply HrunA|].
        eapply runs_bind_ret; [apply runs_history|].
        eapply runs_bind_ret; [apply runs_emit|].
        fold so_far. fold msg. fold res.
        eapply runs_bind_ret; [apply HrunS|].
        rewrite Hres.
        eapply runs_bind_ret; [apply HrunL | apply runs_raise].
      * now apply Hevents.
      * right. now apply Hhanded.
      * intros Hbad. destruct (HbadA Hbad) as (e & He). discriminate.
      * intros _. now apply Hhanded.
    + assert (Htail : forallb is_log (evsS ++ []) = true).
      { rewrite !forallb_app, HlogS. reflexivity. }
      exists (Return true),
             ([e1] ++ [e2] ++ evsA ++ [] ++ [Smtp cfg msg res] ++ evsS ++ []).
      split; [|split; [|split; [|split]]].
      * eapply runs_bind_ret; [apply runs_emit|].
        eapply runs_bind_ret; [apply runs_emit|].
        eapply runs_bind_ret; [apply HrunA|].
        eapply runs_bind_ret; [apply runs_history|].
        eapply runs_bind_ret; [apply runs_emit|].
        fold so_far. fold msg. fold res.
        eapply runs_bind_ret; [apply HrunS|].
        rewrite Hres. apply runs_ret.
      * now apply Hevents.
      * right. now apply Hhanded.
      * intros Hbad. destruct (HbadA Hbad) as (e' & He). discriminate.
      * intros _. now apply Hhanded.
  - destruct (HexnA e eq_refl) as (m & ->).
    assert (Hquiet : smtp_calls ([e1] ++ [e2] ++ evsA) = []).
    { rewrite !smtp_calls_app, HquietA. reflexivity. }
    exists (Raise (EmailSendError ("Attachment error: " ++ m)%string)),
           ([e1] ++ [e2] ++ evsA).
    split; [|split; [|split; [|split]]].
    + eapply runs_bind_ret; [apply runs_emit|].
      eapply runs_bind_ret; [apply runs_emit|].
      eapply runs_bind_raise. apply HrunA.
    + rewrite !forallb_app, (logs_are_log_or_smtp _ HlogA). reflexivity.
    + left. split; [exact Hquiet | eauto].
    + intros _. split; [exact Hquiet | eauto].
    + intros Hok. destruct (HokA Hok) as (parts & Hparts). discriminate.
Qed.

Lemma send_email_one (h : AttachmentHandler) (cfg : smtp_config) (sender : string)
    (address : string) (subject body : string) (html : option string)
    (attachments : option (list string)) (name : option string) (t : trace) :
  exists o evs,
    runs (send_email os h cfg sender (OneRecipient address) subject body html
            attachments name) t o evs
    /\ forallb is_log_or_smtp evs = true
    /\ (not_sent o evs \/ handed_over os cfg t address o evs)
    /\ (attachments_invalid os h attachments = true ->
        smtp_calls evs = [] /\
        exists msg, o = Raise (EmailSendError ("Attachment error: " ++ msg)%string))
    /\ (attachments_ok os h attachments = true -> handed_over os cfg t address o evs).
Proof.
  exact (send_email_many h cfg sender address [] subject body html attachments name t).
Qed.

Lemma send_email_none (h : AttachmentHandler) (cfg : smtp_config) (sender : string)
    (subject body : string) (html : option string)
    (attachments : option (list string)) (name : option string) (t : trace) :
  runs (send_email os h cfg sender NoRecipient subject body html attachments name)
       t (Raise (EmailSendError "No recipients specified")) [].
Proof. apply runs_raise. Qed.

(** [render_template] only logs and raises nothing but [TemplateError];
    when the template file reads, it ends as the rendering of its text
    does. *)
Lemma render_template_runs (template_path : string) (data : record) (t : trace) :
  exists o evs, runs (render_template os template_path data) t o evs
    /\ forallb is_log evs = true
    /\ (forall e, o = Raise e -> exists msg, e = TemplateError msg)
    /\ (forall content,
          fst (read_text os template_path []) = Return content ->
          o = match jinja2 os with
              | Some render =>
                  match render t content data with
                  | inl body => Return body
                  | inr e => Raise (TemplateError ("Template rendering error: " ++ e)%string)
                  end
              | None => Return (basic_template_replace content data)
              end).
Proof.
  unfold render_template, read_text.
  destruct (fs os template_path) as [| |size [bytes|e]].
  - eexists _, _. split; [apply runs_raise|]. split; [reflexivity|].
    split; [intros e [= <-]; eauto | discriminate].
  - eexists _, _. split; [|split; [|split]].
    + eapply runs_bind_raise. eapply runs_try_raise; apply runs_raise.
    + reflexivity.
    + intros e [= <-]. eauto.
    + discriminate.
  - destruct (utf8_decode os bytes) as [text|e].
    + destruct (jinja2 os) as [render|].
      * destruct (render t text data) as [rendered|e] eqn:Hrender.
        -- eexists _, _. split; [|split; [|split]].
           ++ eapply runs_bind_ret; [apply runs_try_ret, runs_ret|].
              apply runs_try_ret.
              eapply runs_bind_ret.
              { eapply runs_bind_ret; [apply runs_history|].
                cbv beta. rewrite !app_nil_r, Hrender. apply runs_ret. }
              eapply runs_bind_ret; [apply runs_emit | apply runs_ret].
           ++ reflexivity.
           ++ discriminate.
           ++ intros content [= <-]. now rewrite Hrender.
        -- eexists _, _. split; [|split; [|split]].
           ++ eapply runs_bind_ret; [apply runs_try_ret, runs_ret|].
              eapply runs_try_raise; [|apply runs_raise].
              eapply runs_bind_raise.
              eapply runs_bind_ret; [apply runs_history|].
              cbv beta. rewrite !app_nil_r, Hrender. apply runs_raise.
           ++ reflexivity.
           ++ intros e' [= <-]. eauto.
           ++ intros content [= <-]. now rewrite Hrender.
      * eexists _, _. split; [|split; [|split]].
        -- eapply runs_bind_ret; [apply runs_try_ret, runs_ret|].
           apply runs_try_ret. run_line.
        -- reflexivity.
        -- discriminate.
        -- intros content [= <-]. reflexivity.
    + eexists _, _. split; [|split; [|split]].
      * eapply runs_bind_raise. eapply runs_try_raise; apply runs_raise.
      * reflexivity.
      * intros e' [= <-]. eauto.
      * discriminate.
  - eexists _, _. split; [|split; [|split]].
    + eapply runs_bind_raise. eapply runs_try_raise; apply runs_raise.
    + reflexivity.
    + intros e' [= <-]. eauto.
    + discriminate.
Qed.

Lemma get_or_some (rd : record) (a default : string) :
  PyDict.get rd email_key = Some a -> PyDict.get_or rd email_key default = a.
Proof. unfold PyDict.get_or. now intros ->. Qed.


(** The end of the [try] block: nothing is sent and it raises, or the
    server is used once. *)
Lemma send_rendered_runs (app : EmailApplication) (smtp_cfg : smtp_config)
    (email_cfg : email_section)
    (atts : option (list string)) (i : nat) (rd : record) (r : results)
    (body subject : string) (t : trace) :
  exists o evs,
    runs (send_rendered os app smtp_cfg email_cfg atts i rd r body subject) t o evs
    /\ forallb is_log_or_smtp evs = true
    /\ ((smtp_calls evs = [] /\ exists e, o = Raise e) \/
        exists a, PyDict.get rd email_key = Some a
                  /\ tried os smtp_cfg t a r o evs)
    /\ (attachments_invalid os (attachment_handler app) atts = true ->
        smtp_calls evs = [] /\ exists e, o = Raise e)
    /\ (PyDict.get rd email_key = None ->
        smtp_calls evs = [] /\ exists e, o = Raise e)
    /\ (attachments_ok os (attachment_handler app) atts = true ->
        forall a, PyDict.get rd email_key = Some a ->
                  tried os smtp_cfg t a r o evs).
Proof.
  unfold send_rendered.
  destruct (PyDict.get rd email_key) as [a|] eqn:Hget.
  2:{ exists (Raise (KeyError "email")), [].
      split; [eapply runs_bind_raise, runs_raise|].
      split; [reflexivity|].
      assert (Hnone : smtp_calls [] = [] /\
                      exists e, Raise (KeyError "email") = @Raise results e) by eauto.
      repeat split; eauto; discriminate. }
  destruct (send_email_one (attachment_handler app) smtp_cfg
              (smtp_username smtp_cfg) a subject body None atts
              (sender_name_of email_cfg) t)
    as (oS & evsS & HrunS & HlogS & Hcase & HbadS & HokS).
  unfold handed_over in *. cbv zeta in *.
  destruct Hcase as [[HqS (m & ->)] | (msg & Hto & HcallS & ->)].
  - exists (Raise (EmailSendError m)), evsS.
    split; [apply runs_bind_pure; eapply runs_bind_raise, HrunS|].
    split; [exact HlogS|].
    assert (Hnone : smtp_calls evsS = [] /\
                    exists e, Raise (EmailSendError m) = @Raise results e) by eauto.
    split; [left; exact Hnone|].
    split; [intros _; exact Hnone|].
    split; [discriminate|].
    intros Hok. destruct (HokS Hok) as (msg & _ & Hcall & _).
    rewrite HqS in Hcall. discriminate.
  - assert (Hbad : attachments_invalid os (attachment_handler app) atts = true ->
                   False).
    { intros Hbad. destruct (HbadS Hbad) as [HqS _].
      rewrite HqS in HcallS. discriminate. }
    assert (Hfinish : forall o evsL,
               runs (send_rendered os app smtp_cfg email_cfg atts i rd r body subject) t o
                    (evsS ++ evsL) ->
               forallb is_log evsL = true ->
               o = match smtp_failure_text
                           (smtp os (List.length (smtp_calls t)) smtp_cfg msg) with
                   | None => Return (count_sent r)
                   | Some text => Raise (EmailSendError ("SMTP error: " ++ text)%string)
                   end ->
               exists o evs,
                 runs (send_rendered os app smtp_cfg email_cfg atts i rd r body subject) t o evs
                 /\ forallb is_log_or_smtp evs = true
                 /\ ((smtp_calls evs = [] /\ exists e, o = Raise e) \/
                     exists a', Some a = Some a'
                                /\ tried os smtp_cfg t a' r o evs)
                 /\ (attachments_invalid os (attachment_handler app) atts = true ->
                     smtp_calls evs = [] /\ exists e, o = Raise e)
                 /\ (Some a = None -> smtp_calls evs = [] /\ exists e, o = Raise e)
                 /\ (attachments_ok os (attachment_handler app) atts = true ->
                     forall a', Some a = Some a' ->
                                tried os smtp_cfg t a' r o evs)).
    { intros o evsL Hrun HlogL Ho.
      assert (Ht : tried os smtp_cfg t a r o (evsS ++ evsL)).
      { exists msg. cbv zeta. split; [exact Hto|]. split; [|exact Ho].
        rewrite smtp_calls_app, HcallS, (logs_no_smtp _ HlogL). reflexivity. }
      exists o, (evsS ++ evsL).
      split; [exact Hrun|].
      split; [rewrite forallb_app, HlogS; now apply logs_are_log_or_smtp|].
      split; [right; eauto|].
      split; [intros H; destruct (Hbad H)|].
      split; [discriminate|].
      intros _ a' [= <-]. exact Ht. }
    unfold send_rendered in Hfinish. rewrite Hget in Hfinish.
    destruct (smtp_failure_text _) as [text|] eqn:Hres.
    + eapply (Hfinish _ []);
        [ rewrite app_nil_r; apply runs_bind_pure; eapply runs_bind_raise, HrunS
        | reflexivity | reflexivity ].
    + destruct (i mod 10 =? 0)%nat eqn:Hi.
      * eapply (Hfinish _ ([_] ++ []));
          [ apply runs_bind_pure; eapply runs_bind_ret; [apply HrunS|];
            cbv beta iota zeta;
            eapply runs_bind_ret; [apply runs_emit | apply runs_ret]
          | reflexivity | reflexivity ].
      * eapply (Hfinish _ []);
          [ apply runs_bind_pure; eapply runs_bind_ret; [apply HrunS|];
            cbv beta iota zeta; apply runs_bind_pure, runs_ret
          | reflexivity | reflexivity ].
Qed.

Lemma skipped_intro (rd : record) (r : results) (text : string) (evs : list event) :
  smtp_calls evs = [] ->
  skipped rd r
    (append_error (count_failed r)
       ("Error sending to " ++ PyDict.get_or rd email_key "unknown" ++ ": " ++ text)%string)
    evs.
Proof. intros H. split; [exact H | eauto]. Qed.

Lemma record_failure_runs (rd : record) (r : results) (e : exn) (t : trace) :
  runs (record_failure rd r e) t
    (Return (append_error (count_failed r)
               ("Error sending to " ++ PyDict.get_or rd email_key "unknown" ++ ": "
                ++ exn_str e)%string))
    ([Log ERROR ("Error sending to " ++ PyDict.get_or rd email_key "unknown" ++ ": "
                 ++ exn_str e)%string] ++ []).
Proof. unfold record_failure. eapply runs_bind_ret; [apply runs_emit | apply runs_ret]. Qed.

(** What a turn of the loop of [send_bulk_emails] comes to, once the body
    is rendered and whatever the subject: it returns, having recorded a
    failure without using the server or the answer of the server. *)
Lemma rendered_turn_runs (app : EmailApplication) (smtp_cfg : smtp_config)
    (email_cfg : email_section)
    (atts : option (list string)) (i : nat) (rd : record) (r : results)
    (body subject : string) (evs1 : list event) (t : trace) :
  smtp_calls evs1 = [] -> forallb is_log evs1 = true ->
  exists r' evs,
    runs (try_except (send_rendered os app smtp_cfg email_cfg atts i rd r body subject)
                     (record_failure rd r)) (t ++ evs1) (Return r') evs
    /\ forallb is_log_or_smtp (evs1 ++ evs) = true
    /\ (skipped rd r r' (evs1 ++ evs) \/
        exists a, PyDict.get rd email_key = Some a
                  /\ attempted os smtp_cfg t a r r' (evs1 ++ evs))
    /\ (attachments_invalid os (attachment_handler app) atts = true ->
        skipped rd r r' (evs1 ++ evs))
    /\ (PyDict.get rd email_key = None -> skipped rd r r' (evs1 ++ evs))
    /\ (attachments_ok os (attachment_handler app) atts = true ->
        forall a, PyDict.get rd email_key = Some a ->
                  attempted os smtp_cfg t a r r' (evs1 ++ evs)).
Proof.
  intros Hq1 Hlog1.
  destruct (send_rendered_runs app smtp_cfg email_cfg atts i rd r body subject (t ++ evs1))
    as (o & evs2 & Hrun & Hlog & Hcase & Hbad & Hnone & Hok).
  unfold tried in *. cbv zeta in *.
  rewrite smtp_calls_app, Hq1, app_nil_r in Hcase, Hok.
  assert (Hlogs : forall evsL, forallb is_log evsL = true ->
                    forallb is_log_or_smtp (evs1 ++ evs2 ++ evsL) = true).
  { intros evsL HL.
    rewrite !forallb_app, (logs_are_log_or_smtp _ Hlog1), Hlog,
      (logs_are_log_or_smtp _ HL). reflexivity. }
  assert (Hcalls : forall evsL, forallb is_log evsL = true ->
                     smtp_calls (evs1 ++ evs2 ++ evsL) = smtp_calls evs2).
  { intros evsL HL.
    rewrite !smtp_calls_app, Hq1, (logs_no_smtp _ HL), app_nil_r. reflexivity. }
  destruct o as [r2|e].
  - (* the [try] block returned: the use of the server went through *)
    assert (Hatt : forall a,
               (exists msg,
                   msg_to msg = a /\
                   smtp_calls evs2 =
                     [Smtp smtp_cfg msg
                        (smtp os (List.length (smtp_calls t)) smtp_cfg msg)] /\
                   Return r2 =
                     match smtp_failure_text
                             (smtp os (List.length (smtp_calls t)) smtp_cfg msg) with
                     | None => Return (count_sent r)
                     | Some text => Raise (EmailSendError ("SMTP error: " ++ text)%string)
                     end) ->
               attempted os smtp_cfg t a r r2 (evs1 ++ evs2 ++ [])).
    { intros a (msg & Hto & Hcall & Ho). exists msg. cbv zeta.
      split; [exact Hto|]. split; [rewrite Hcalls by reflexivity; exact Hcall|].
      destruct (smtp_failure_text _); [discriminate|]. now inversion Ho. }
    exists r2, (evs2 ++ []).
    split; [rewrite app_nil_r; apply runs_try_ret, Hrun|].
    split; [now apply Hlogs|].
    split.
    { destruct Hcase as [[_ (e & He)] | (a & Hget & Ht)]; [discriminate|].
      right. exists a. split; [exact Hget | now apply Hatt]. }
    split.
    { intros H. destruct (Hbad H) as [_ (e & He)]. discriminate. }
    split.
    { intros H. destruct (Hnone H) as [_ (e & He)]. discriminate. }
    intros H a Hget. apply Hatt. now apply Hok.
  - (* the [try] block raised: the [except] block records the failure *)
    pose proof (record_failure_runs rd r e ((t ++ evs1) ++ evs2)) as Hrec.
    assert (Hatt : forall a,
               PyDict.get rd email_key = Some a ->
               (exists msg,
                   msg_to msg = a /\
                   smtp_calls evs2 =
                     [Smtp smtp_cfg msg
                        (smtp os (List.length (smtp_calls t)) smtp_cfg msg)] /\
                   Raise e =
                     match smtp_failure_text
                             (smtp os (List.length (smtp_calls t)) smtp_cfg msg) with
                     | None => Return (count_sent r)
                     | Some text => Raise (EmailSendError ("SMTP error: " ++ text)%string)
                     end) ->
               attempted os smtp_cfg t a r
                 (append_error (count_failed r)
                    ("Error sending to " ++ PyDict.get_or rd email_key "unknown" ++ ": "
                     ++ exn_str e)%string)
                 (evs1 ++ evs2 ++ [Log ERROR
                    ("Error sending to " ++ PyDict.get_or rd email_key "unknown" ++ ": "
                     ++ exn_str e)%string] ++ [])).
    { intros a Hget (msg & Hto & Hcall & Ho). exists msg. cbv zeta.
      split; [exact Hto|]. split; [rewrite Hcalls by reflexivity; exact Hcall|].
      destruct (smtp_failure_text _) as [text|]; [|discriminate].
      inversion Ho; subst e. rewrite (get_or_some _ _ _ Hget). reflexivity. }
    assert (Hskip : smtp_calls evs2 = [] ->
               skipped rd r
                 (append_error (count_failed r)
                    ("Error sending to " ++ PyDict.get_or rd email_key "unknown" ++ ": "
                     ++ exn_str e)%string)
                 (evs1 ++ evs2 ++ [Log ERROR
                    ("Error sending to " ++ PyDict.get_or rd email_key "unknown" ++ ": "
                     ++ exn_str e)%string] ++ [])).
    { intros Hq2. apply skipped_intro. rewrite Hcalls by reflexivity. exact Hq2. }
    eexists _, (evs2 ++ _).
    split; [eapply runs_try_raise; [exact Hrun | exact Hrec]|].
    split; [now apply Hlogs|].
    split.
    { destruct Hcase as [[Hq2 _] | (a & Hget & Ht)].
      - left. now apply Hskip.
      - right. exists a. split; [exact Hget | now apply Hatt]. }
    split.
    { intros H. destruct (Hbad H) as [Hq2 _]. now apply Hskip. }
    split.
    { intros H. destruct (Hnone H) as [Hq2 _]. now apply Hskip. }
    intros H a Hget. apply Hatt; [exact Hget | now apply Hok].
Qed.

(** A turn of the loop of [send_bulk_emails] always returns. *)
Lemma send_to_recipient_runs (app : EmailApplication) (smtp_cfg : smtp_config)
    (email_cfg : email_section)
    (tp subj : string) (atts : option (list string)) (i : nat) (rd : record)
    (r : results) (t : trace) :
  exists r' evs,
    runs (send_to_recipient os app smtp_cfg email_cfg tp subj atts i rd r)
         t (Return r') evs
    /\ turn_outcome os app smtp_cfg tp subj atts rd t r r' evs.
Proof.
  assert (Hfail : forall e evs0,
             runs (try_send os app smtp_cfg email_cfg tp subj atts i rd r)
                  t (Raise e) evs0 ->
             forallb is_log evs0 = true ->
             (template_renderer app <> None -> renders os tp subj rd -> False) ->
             exists r' evs,
               runs (send_to_recipient os app smtp_cfg email_cfg tp subj atts i rd r)
                    t (Return r') evs
               /\ turn_outcome os app smtp_cfg tp subj atts rd t r r' evs).
  { intros e evs0 Hrun Hlog0 Hno.
    eexists _, (evs0 ++ _).
    split; [eapply runs_try_raise; [exact Hrun | apply record_failure_runs]|].
    unfold turn_outcome.
    split; [rewrite forallb_app, (logs_are_log_or_smtp _ Hlog0); reflexivity|].
    match goal with
    | |- (skipped ?rd ?r ?r' ?evs \/ _) /\ _ =>
        assert (Hskip : skipped rd r r' evs)
    end.
    { apply skipped_intro. rewrite smtp_calls_app, (logs_no_smtp _ Hlog0). reflexivity. }
    split; [left; exact Hskip|].
    split; [intros _; exact Hskip|].
    split; [intros _; exact Hskip|].
    split; [intros _; exact Hskip|].
    intros H1 H2. destruct (Hno H1 H2). }
  destruct (template_renderer app) as [renderer|] eqn:Hrenderer.
  2:{ apply (Hfail (AttributeError "'NoneType' object has no attribute 'render_template'")
                   []).
      - unfold try_send. rewrite Hrenderer. apply runs_raise.
      - reflexivity.
      - intros H. now destruct H. }
  destruct (render_template_runs tp rd t) as (o1 & evs1 & Hrun1 & Hlog1 & _ & Hcontent).
  pose proof (logs_no_smtp _ Hlog1) as Hq1.
  assert (Hrendered : forall body subject,
             o1 = Return body ->
             runs
               (match jinja2 os with
                | Some render =>
                    so_far <- history ;;
                    match render so_far subj rd with
                    | inl rendered => ret rendered
                    | inr e => raise (OtherException e)
                    end
                | None => ret (basic_template_replace subj rd)
                end) (t ++ evs1) (Return subject) [] ->
             exists r' evs,
               runs (send_to_recipient os app smtp_cfg email_cfg tp subj atts i rd r)
                    t (Return r') evs
               /\ turn_outcome os app smtp_cfg tp subj atts rd t r r' evs).
  { intros body subject -> Hsubject.
    destruct (rendered_turn_runs app smtp_cfg email_cfg atts i rd r body subject evs1 t
                Hq1 Hlog1)
      as (r' & evs & Hrun & H2 & H3 & H4 & H5 & H6).
    exists r', (evs1 ++ evs).
    split.
    { unfold send_to_recipient, try_send. rewrite Hrenderer.
      unfold runs in *. unfold try_except, bind in *.
      rewrite Hrun1. rewrite Hsubject, app_nil_r.
      rewrite <- app_assoc in Hrun. exact Hrun. }
    unfold turn_outcome.
    split; [exact H2|]. split; [exact H3|]. split; [exact H4|].
    split; [exact H5|].
    split; [intros H; congruence|].
    intros _ _. exact H6. }
  destruct o1 as [body|e].
  2:{ apply (Hfail e evs1).
      - unfold try_send. rewrite Hrenderer. eapply runs_bind_raise, Hrun1.
      - exact Hlog1.
      - intros _ (content & Hread & Hjinja).
        specialize (Hcontent content Hread).
        destruct (jinja2 os) as [render|]; [|discriminate].
        destruct (Hjinja t) as [(b & Hb) _]. rewrite Hb in Hcontent. discriminate. }
  destruct (jinja2 os) as [render|] eqn:Hjinja.
  - destruct (render (t ++ evs1) subj rd) as [subject|e] eqn:Hrender.
    + apply (Hrendered body subject eq_refl).
      unfold runs, bind, history. rewrite Hrender. unfold ret.
      now rewrite app_nil_r.
    + apply (Hfail (OtherException e) (evs1 ++ [])).
      * unfold try_send. rewrite Hrenderer, Hjinja.
        eapply runs_bind_ret; [apply Hrun1|].
        eapply runs_bind_raise.
        unfold runs, bind, history. rewrite Hrender. unfold raise.
        now rewrite app_nil_r.
      * now rewrite app_nil_r.
      * intros _ (content & _ & Hall). rewrite Hjinja in Hall.
        destruct (Hall (t ++ evs1)) as [_ (s' & Hs)]. rewrite Hs in Hrender.
        discriminate.
  - eapply (Hrendered body _ eq_refl). apply runs_ret.
Qed.

Lemma read_text_runs (path : string) :
  exists o, forall t, runs (read_text os path) t o [].
Proof.
  unfold read_text.
  destruct (fs os path) as [| |size [bytes|e]];
    try (eexists; intros t; apply runs_raise).
  destruct (utf8_decode os bytes); eexists; intros t;
    [apply runs_ret | apply runs_raise].
Qed.

Lemma parse_rows_runs (delimiter text : string) (decode_error : option string) :
  exists o evs, (forall t, runs (parse_rows os delimiter text decode_error) t o evs)
    /\ forallb is_log evs = true
    /\ (forall l, o = Return l -> l <> []).
Proof.
  unfold parse_rows.
  destruct (csv_reader os text delimiter) as [[|[|f fieldnames] data] csv_failure].
  - destruct csv_failure; [|destruct decode_error]; eexists _, _;
      (split; [intros t; apply runs_raise|]); split; (reflexivity || discriminate).
  - eexists _, _.
    (split; [intros t; apply runs_raise|]); split; (reflexivity || discriminate).
  - destruct csv_failure as [e|]; [|destruct decode_error as [e|]].
    + eexists _, _. split; [intros t; run_line|]. split; (reflexivity || discriminate).
    + eexists _, _. split; [intros t; run_line|]. split; (reflexivity || discriminate).
    + destruct (collect_recipients _) as [|rd l].
      * eexists _, _. split; [intros t; run_line|].
        split; (reflexivity || discriminate).
      * eexists _, _. split; [intros t; run_line|].
        split; [reflexivity|]. intros l' [= <-]. discriminate.
Qed.

Lemma parse_recipients_runs (text : string) :
  exists o evs, (forall t, runs (parse_recipients os text) t o evs)
    /\ forallb is_log evs = true
    /\ (forall l, o = Return l -> l <> []).
Proof. apply parse_rows_runs. Qed.

(** A file that decodes is read as its text is parsed. *)
Lemma read_csv_decoded (csv_file text : string) :
  fst (read_text os csv_file []) = Return text ->
  read_csv os csv_file = parse_recipients os text.
Proof.
  unfold read_text, read_csv.
  destruct (fs os csv_file) as [| |size [bytes|e]]; try discriminate.
  destruct (utf8_decode os bytes); [|discriminate].
  now intros [= ->].
Qed.

Lemma read_csv_runs (csv_file : string) :
  exists o evs, (forall t, runs (read_csv os csv_file) t o evs)
    /\ forallb is_log evs = true
    /\ (forall l, o = Return l -> l <> []).
Proof.
  unfold read_csv.
  destruct (fs os csv_file) as [| |size [bytes|e]];
    try (eexists _, _; split; [intros t; apply runs_raise|];
         split; (reflexivity || discriminate)).
  destruct (utf8_decode os bytes) as [text|e]; [apply parse_recipients_runs|].
  destruct (utf8_before_error os bytes) as [[sample text]|]; [apply parse_rows_runs|].
  eexists _, _; split; [intros t; apply runs_raise|];
    split; (reflexivity || discriminate).
Qed.

Lemma csv_error_of_is_CSVError (e : exn) : exists msg, csv_error_of e = CSVError msg.
Proof. destruct e; eexists; reflexivity. Qed.

(** [read_recipients] does not look at the trace, only logs, raises
    nothing but [CSVError] and returns no empty list. *)
Lemma read_recipients_runs (csv_file : string) :
  exists o evs, (forall t, runs (read_recipients os csv_file) t o evs)
    /\ forallb is_log evs = true
    /\ (forall e, o = Raise e -> exists msg, e = CSVError msg)
    /\ (forall l, o = Return l -> l <> []).
Proof.
  assert (Hmain : exists o evs,
             (forall t, runs (try_except (read_csv os csv_file)
                                (fun e => raise (csv_error_of e))) t o evs)
             /\ forallb is_log evs = true
             /\ (forall e, o = Raise e -> exists msg, e = CSVError msg)
             /\ (forall l, o = Return l -> l <> [])).
  { destruct (read_csv_runs csv_file) as ([l|e] & evs & Hrun & Hlog & Hne).
    - exists (Return l), evs. split; [|split; [|split]].
      + intros t. apply runs_try_ret, Hrun.
      + exact Hlog.
      + discriminate.
      + exact Hne.
    - exists (Raise (csv_error_of e)), (evs ++ []). split; [|split; [|split]].
      + intros t. eapply runs_try_raise; [apply Hrun | apply runs_raise].
      + now rewrite app_nil_r.
      + intros e' [= <-]. apply csv_error_of_is_CSVError.
      + discriminate. }
  unfold read_recipients.
  destruct (fs os csv_file); try exact Hmain.
  eexists _, _. split; [intros t; apply runs_raise|].
  split; [reflexivity|]. split; [intros e [= <-]; eauto | discriminate].
Qed.

(** What loads does not depend on the trace. *)
Lemma loads_runs (csv_path : string) (l : list record) :
  loads os csv_path l ->
  exists evs, (forall t, runs (read_recipients os csv_path) t (Return l) evs)
              /\ forallb is_log evs = true /\ l <> [].
Proof.
  intros Hloads.
  destruct (read_recipients_runs csv_path) as (o & evs & Hrun & Hlog & _ & Hne).
  unfold loads in Hloads. pose proof (Hrun []) as H0. unfold runs in H0.
  rewrite H0 in Hloads. cbn [fst] in Hloads. subst o.
  exists evs. split; [exact Hrun|]. split; [exact Hlog | now apply Hne].
Qed.

(* --------------------------------------------------------------------- *)
(** *** The loop of [send_bulk_emails] *)



Section Loop.

Variables (app : EmailApplication) (smtp_cfg : smtp_config) (email_cfg : email_section)
          (tp subj : string) (atts : option (list string)).

Local Abbreviation loop := (send_loop os app smtp_cfg email_cfg tp subj atts).
Local Abbreviation turn := (send_to_recipient os app smtp_cfg email_cfg tp subj atts).




(** When every turn is one that records a failure without the server, be
    it for an attachment that is turned down or for the renderer that is
    not there, the loop counts every recipient as failed and the server
    is never used. *)
Lemma send_loop_skipped (recipients : list record) :
  (forall rd t r r' evs,
      turn_outcome os app smtp_cfg tp subj atts rd t r r' evs -> skipped rd r r' evs) ->
  forall i r t,
  exists r' evs,
    runs (loop i recipients r) t (Return r') evs
    /\ smtp_calls evs = []
    /\ total r' = total r
    /\ sent r' = sent r
    /\ failed r' = failed r + List.length recipients
    /\ List.length (errors r') = List.length (errors r) + List.length recipients
    /\ success r' = success r.
Proof.
  intros Hbad.
  induction recipients as [|rd recipients IH]; intros i r t.
  - exists r, []. split; [apply runs_ret|].
    cbn [List.length]. repeat split; try reflexivity; lia.
  - destruct (send_to_recipient_runs app smtp_cfg email_cfg tp subj atts i rd r t)
      as (r1 & e1 & Hrun1 & Hturn).
    destruct (Hbad _ _ _ _ _ Hturn) as (Hq1 & text & Hr1).
    destruct (IH (S i) r1 (t ++ e1)) as (r2 & e2 & Hrun2 & Hq2 & Ht & Hs & Hf & He & Hsu).
    exists r2, (e1 ++ e2). split.
    + cbn [send_loop]. eapply runs_bind_ret; eassumption.
    + rewrite smtp_calls_app, Hq1, Hq2, Ht, Hs, Hf, He, Hsu. subst r1.
      cbn [total sent failed errors success append_error count_failed List.length].
      rewrite length_app. cbn [List.length].
      repeat split; try reflexivity; lia.
Qed.

Lemma send_loop_invalid (recipients : list record) :
  attachments_invalid os (attachment_handler app) atts = true ->
  forall i r t,
  exists r' evs,
    runs (loop i recipients r) t (Return r') evs
    /\ smtp_calls evs = []
    /\ total r' = total r
    /\ sent r' = sent r
    /\ failed r' = failed r + List.length recipients
    /\ List.length (errors r') = List.length (errors r) + List.length recipients
    /\ success r' = success r.
Proof.
  intros Hbad. apply send_loop_skipped.
  intros rd t r r' evs (_ & _ & H & _). now apply H.
Qed.

(** With a renderer, nothing in the way and a server that takes every
    message, every turn counts a message sent. *)
Lemma send_loop_delivered (recipients : list record) :
  template_renderer app <> None ->
  Forall (ready os tp subj) recipients ->
  attachments_ok os (attachment_handler app) atts = true ->
  forall i r t,
  (forall n msg, List.length (smtp_calls t) <= n ->
                 smtp_failure_text (smtp os n smtp_cfg msg) = None) ->
  exists r' evs,
    runs (loop i recipients r) t (Return r') evs
    /\ map smtp_recipient (smtp_calls evs) = map address recipients
    /\ r' = {| total := total r; sent := sent r + List.length recipients;
               failed := failed r; errors := errors r; success := success r |}.
Proof.
  intros Hrenderer Hready Hok.
  induction Hready as [|rd recipients [Hrenders Hemail] Hready IH]; intros i r t Hserver.
  - exists r, []. split; [apply runs_ret|]. split; [reflexivity|].
    cbn [List.length]. rewrite Nat.add_0_r. now destruct r.
  - unfold has_email in Hemail.
    destruct (PyDict.get rd email_key) as [a|] eqn:Hget; [|discriminate].
    destruct (send_to_recipient_runs app smtp_cfg email_cfg tp subj atts i rd r t)
      as (r1 & e1 & Hrun1 & _ & _ & _ & _ & _ & Hatt).
    destruct (Hatt Hrenderer Hrenders Hok a Hget) as (msg & Hto & Hcall & Hr1).
    cbv zeta in Hcall, Hr1. rewrite Hserver in Hr1 by lia. subst r1.
    destruct (IH (S i) (count_sent r) (t ++ e1)) as (r2 & e2 & Hrun2 & Hcalls2 & ->).
    { intros n msg' Hn. apply Hserver.
      rewrite smtp_calls_app, Hcall, length_app in Hn. cbn [List.length] in Hn. lia. }
    eexists _, (e1 ++ e2). split; [|split].
    + cbn [send_loop]. eapply runs_bind_ret; eassumption.
    + rewrite smtp_calls_app, Hcall. cbn [List.app map smtp_recipient].
      rewrite Hcalls2, Hto. unfold address at 2. now rewrite (get_or_some _ _ _ Hget).
    + cbn [total sent failed errors success count_sent List.length].
      f_equal. lia.
Qed.


End Loop.

(** A step that returns without an event leaves the run as it is. *)
Lemma runs_bind_quiet {A B : Type} (m : M A) (k : A -> M B) (t : trace)
    (a : A) (o : outcome B) (evs : list event) :
  runs m t (Return a) [] -> runs (k a) t o evs -> runs (bind m k) t o evs.
Proof.
  unfold runs, bind. intros H. rewrite H, app_nil_r. exact (fun H' => H').
Qed.

Lemma subscript_some {A : Type} (value : option A) (key : string) (v : A) (t : trace) :
  value = Some v -> subscript value key t = (Return v, t).
Proof. now intros ->. Qed.

Lemma or_configured_some (x d : option string) (m : M string) (v : string) (t : trace) :
  argument_or x d = Some v ->
  (forall w, d = Some w -> m t = (Return w, t)) ->
  or_configured x m t = (Return v, t).
Proof.
  unfold argument_or, or_configured. intros Hv Hm.
  destruct x as [s|]; [destruct (PyStr.truthy s)|]; auto.
  now inversion Hv.
Qed.

Lemma files_value_some (cfg : app_config) (field : files_section -> option string)
    (key w : string) (t : trace) :
  configured_file cfg field = Some w ->
  files_value cfg field key t = (Return w, t).
Proof.
  unfold configured_file, files_value. destruct (cfg_files cfg) as [files|]; [|discriminate].
  intros H. unfold bind. cbn [subscript ret]. now apply subscript_some.
Qed.

(** An application whose configuration has what the run reads is run as
    its locals say. *)
Lemma send_bulk_emails_campaign (app : EmailApplication)
    (csv_file template_file subject : option string)
    (attachments : option (list string)) (c : campaign) (t : trace) :
  campaign_of app csv_file template_file subject = Some c ->
  send_bulk_emails os app csv_file template_file subject attachments t
  = (emit (Log INFO "Reading recipient data from CSV...") ;;;
     recipients <- read_recipients os (campaign_csv c) ;;
     let r0 := {| total := List.length recipients; sent := 0; failed := 0;
                  errors := []; success := false |} in
     emit (Log INFO ("Starting bulk email send to " ++ PyStr.str_of_nat (total r0)
                     ++ " recipients")) ;;;
     r <- send_loop os app (campaign_smtp c) (campaign_email c) (campaign_template c)
            (campaign_subject c) attachments 1 recipients r0 ;;
     let final := set_success r in
     emit (Log INFO ("Bulk email completed - Sent: " ++ PyStr.str_of_nat (sent final)
                     ++ ", Failed: " ++ PyStr.str_of_nat (failed final))) ;;;
     ret final) t.
Proof.
  unfold campaign_of, send_bulk_emails.
  destruct (config app) as [| |cfg]; try discriminate.
  destruct (argument_or csv_file _) as [csv|] eqn:Hcsv; [|discriminate].
  destruct (argument_or template_file _) as [template|] eqn:Htemplate; [|discriminate].
  destruct (argument_or subject _) as [text|] eqn:Htext; [|discriminate].
  destruct (cfg_smtp cfg) as [smtp_cfg|] eqn:Hsmtp; [|discriminate].
  destruct (cfg_email cfg) as [email_cfg|] eqn:Hemail; [|discriminate].
  intros [= <-]. cbn [campaign_csv campaign_template campaign_subject campaign_smtp
                      campaign_email].
  assert (H1 : forall t', or_configured csv_file
                            (files_value cfg files_csv_recipients "csv_recipients") t'
                          = (Return csv, t')).
  { intros t'. eapply or_configured_some; [exact Hcsv|].
    intros w Hw. now apply files_value_some. }
  assert (H2 : forall t', or_configured template_file
                            (files_value cfg files_email_template "email_template") t'
                          = (Return template, t')).
  { intros t'. eapply or_configured_some; [exact Htemplate|].
    intros w Hw. now apply files_value_some. }
  assert (H3 : forall t', or_configured subject
                            (email <- subscript (Some email_cfg) "email" ;;
                             subscript (email_default_subject email) "default_subject") t'
                          = (Return text, t')).
  { intros t'. eapply or_configured_some; [exact Htext|].
    intros w Hw. unfold configured_subject in Hw. rewrite Hemail in Hw.
    unfold bind. cbn [subscript ret]. now apply subscript_some. }
  unfold bind at 1. rewrite H1.
  unfold bind at 1. rewrite H2.
  unfold bind at 1. rewrite H3.
  unfold bind, subscript, ret, emit.
  destruct (read_recipients os csv _) as [[recipients|e] t1]; reflexivity.
Qed.

(** The whole run, given what the loop comes to. *)
Lemma send_bulk_emails_runs (app : EmailApplication)
    (csv_file template_file subject : option string)
    (attachments : option (list string)) (c : campaign) (recipients : list record) :
  campaign_of app csv_file template_file subject = Some c ->
  loads os (campaign_csv c) recipients ->
  exists before,
    forallb is_log before = true /\
    forall t r evs,
      runs (send_loop os app (campaign_smtp c) (campaign_email c)
              (campaign_template c) (campaign_subject c)
              attachments 1 recipients
              {| total := List.length recipients; sent := 0; failed := 0;
                 errors := []; success := false |})
           (t ++ before) (Return r) evs ->
      exists after,
        forallb is_log after = true /\
        runs (send_bulk_emails os app csv_file template_file subject attachments)
             t (Return (set_success r)) (before ++ evs ++ after).
Proof.
  intros Hcampaign Hloads.
  destruct (loads_runs _ _ Hloads) as (evsR & HrunR & HlogR & _).
  exists ([Log INFO "Reading recipient data from CSV..."] ++ evsR ++
          [Log INFO ("Starting bulk email send to "
                     ++ PyStr.str_of_nat (List.length recipients) ++ " recipients")%string]).
  split.
  { rewrite !forallb_app, HlogR. reflexivity. }
  intros t r evs Hloop.
  exists ([Log INFO ("Bulk email completed - Sent: "
                     ++ PyStr.str_of_nat (sent (set_success r)) ++ ", Failed: "
                     ++ PyStr.str_of_nat (failed (set_success r)))%string] ++ []).
  split; [reflexivity|].
  unfold runs. rewrite (send_bulk_emails_campaign _ _ _ _ _ _ _ Hcampaign).
  change (runs (emit (Log INFO "Reading recipient data from CSV...") ;;;
                recipients0 <- read_recipients os (campaign_csv c) ;;
                let r0 := {| total := List.length recipients0; sent := 0; failed := 0;
                             errors := []; success := false |} in
                emit (Log INFO ("Starting bulk email send to "
                                ++ PyStr.str_of_nat (total r0) ++ " recipients")) ;;;
                r1 <- send_loop os app (campaign_smtp c) (campaign_email c)
                        (campaign_template c) (campaign_subject c) attachments 1
                        recipients0 r0 ;;
                let final := set_success r1 in
                emit (Log INFO ("Bulk email completed - Sent: "
                                ++ PyStr.str_of_nat (sent final)
                                ++ ", Failed: " ++ PyStr.str_of_nat (failed final))) ;;;
                ret final)
               t (Return (set_success r))
               (([Log INFO "Reading recipient data from CSV..."] ++ evsR ++
                 [Log INFO ("Starting bulk email send to "
                            ++ PyStr.str_of_nat (List.length recipients)
                            ++ " recipients")%string])
                ++ evs
                ++ [Log INFO ("Bulk email completed - Sent: "
                              ++ PyStr.str_of_nat (sent (set_success r)) ++ ", Failed: "
                              ++ PyStr.str_of_nat (failed (set_success r)))%string]
                ++ [])).
  rewrite <- !app_assoc.
  eapply runs_bind_ret; [apply runs_emit|].
  eapply runs_bind_ret; [apply HrunR|].
  eapply runs_bind_ret; [apply runs_emit|].
  eapply runs_bind_ret.
  - rewrite !app_assoc in Hloop. exact Hloop.
  - eapply runs_bind_ret; [apply runs_emit | apply runs_ret].
Qed.

End Components.

End Run.

(* ===================================================================== *)
(** ** The bulk run of [EmailApplication] *)
(* ===================================================================== *)

Section BulkRun.

Import Run.
Local Open Scope list_scope.

Variable os : Env.

(** C1, as amended.  A shared attachment that is missing, no regular file
    or above the size limit does not abort the run: [send_email] raises
    [EmailSendError] with the text [Attachment error: ...] before it
    turns to the server, the loop records this as the failure of the
    recipient and goes on.  The run returns with every recipient counted
    as failed, none as sent, and the server is never used. *)
Theorem invalid_attachment_fails_each_recipient
    (app : EmailApplication)
    (csv_file template_file subject : option string)
    (attachments : option (list string)) (c : campaign)
    (recipients : list record) (t : trace) :
  campaign_of app csv_file template_file subject = Some c ->
  loads os (campaign_csv c) recipients ->
  attachments_invalid os (attachment_handler app) attachments = true ->
  (exists r evs,
      runs (send_bulk_emails os app csv_file template_file subject attachments)
           t (Return r) evs
      /\ smtp_calls evs = []
      /\ total r = List.length recipients
      /\ sent r = 0
      /\ failed r = List.length recipients
      /\ List.length (errors r) = List.length recipients
      /\ success r = false)
  /\ (forall smtp_cfg sender to subject' body html name t',
        exists msg evs,
          runs (send_email os (attachment_handler app) smtp_cfg sender
                  (OneRecipient to) subject' body html attachments name)
               t' (Raise (EmailSendError ("Attachment error: " ++ msg)%string)) evs
          /\ smtp_calls evs = []).
Proof.
  intros Hcampaign Hloads Hbad. split.
  - destruct (send_bulk_emails_runs os app csv_file template_file subject
                attachments c recipients Hcampaign Hloads) as (before & Hlog0 & Hrun).
    destruct (send_loop_invalid os app (campaign_smtp c) (campaign_email c)
                (campaign_template c) (campaign_subject c)
                attachments recipients Hbad 1
                {| total := List.length recipients; sent := 0; failed := 0;
                   errors := []; success := false |} (t ++ before))
      as (r & evs & Hloop & Hq & Ht & Hs & Hf & He & _).
    destruct (Hrun t r evs Hloop) as (after & Hlog1 & Hwhole).
    exists (set_success r), (before ++ evs ++ after).
    split; [exact Hwhole|].
    split; [rewrite !smtp_calls_app, Hq, (logs_no_smtp _ Hlog0), (logs_no_smtp _ Hlog1);
            reflexivity|].
    cbn [set_success total sent failed errors success] in *.
    repeat split; try assumption.
    rewrite Hf. cbn [List.length Nat.add].
    destruct (loads_runs os _ _ Hloads) as (_ & _ & _ & Hne).
    destruct recipients; [congruence | reflexivity].
  - intros smtp_cfg sender to subject' body html name t'.
    destruct (send_email_one os (attachment_handler app) smtp_cfg sender to subject'
                body html attachments name t')
      as (o & evs & Hrun & _ & _ & Hinvalid & _).
    destruct (Hinvalid Hbad) as (Hq & msg & ->).
    exists msg, evs. split; assumption.
Qed.



End BulkRun.

(** At an instance: the five recipients of [recipients.csv] and an
    attachment of 30 MB against the limit of 25 MB. *)
Lemma invalid_attachment_fails_each_recipient_witness :
  (exists r evs,
      runs (send_bulk_emails Demo.world Demo.application None None None
              (Some ["big.bin"])) [] (Return r) evs
      /\ smtp_calls evs = []
      /\ total r = 5 /\ sent r = 0 /\ failed r = 5
      /\ List.length (errors r) = 5 /\ success r = false)
  /\ (forall smtp_cfg sender to subject' body html name t',
        exists msg evs,
          runs (send_email Demo.world (attachment_handler Demo.application)
                  smtp_cfg sender (OneRecipient to) subject' body html
                  (Some ["big.bin"]) name)
               t' (Raise (EmailSendError ("Attachment error: " ++ msg))) evs
          /\ smtp_calls evs = []).
Proof.
  apply (invalid_attachment_fails_each_recipient Demo.world Demo.application
           None None None (Some ["big.bin"]) Demo.news Demo.five_recipients []);
    reflexivity.
Defined.

(** The claim as the specification words it fails: with a missing
    attachment the run does not raise; it enters the loop, logs a send
    for the first recipient and returns five failures. *)
Lemma invalid_attachment_does_not_abort_run :
  exists r t,
    send_bulk_emails Demo.world Demo.application None None None
      (Some ["missing.pdf"]) [] = (Return r, t)
    /\ failed r = 5
    /\ In (Log INFO "Sending email to: ann@example.org") t.
Proof.
  eexists _, _. split; [vm_compute; reflexivity|].
  split; [reflexivity|]. cbn [In]. auto 20.
Qed.



(* ===================================================================== *)
(** ** Basic rendering *)
(* ===================================================================== *)

(** C5, as amended.  A template made of plain text and of placeholders
    [{{name}}], rendered by the basic strategy against a record whose
    column names are without braces and whose values are without opening
    brace, the text between the placeholders without opening brace as
    well: every placeholder whose column the record has gives way to the
    value of the column, and every other placeholder stays as it is
    written.  So ["Hello {{name}}"] renders to ["Hello Jane"] and
    ["Hi {{missing}}"] stays as it is. *)
Theorem basic_render_fills_known_placeholders
    (data : record) (segs : list segment) :
  forallb plain_field data = true ->
  forallb plain_segment segs = true ->
  basic_template_replace (template_text segs) data = fill_all data segs
  /\ basic_template_replace "Hello {{name}}" [(Some "name", "Jane")] = "Hello Jane"
  /\ basic_template_replace "Hi {{missing}}" [(Some "name", "Jane")] = "Hi {{missing}}".
Proof.
  intros Hdata Hsegs. split.
  - now apply ReplaceFacts.basic_template_replace_segments.
  - split; reflexivity.
Qed.

(** At an instance: a known and an unknown placeholder in one template. *)
Lemma basic_render_fills_known_placeholders_witness :
  basic_template_replace "Dear {{name}}, your code is {{code}}."
    [(Some "name", "Jane"); (Some "email", "jane@example.org")]
  = "Dear Jane, your code is {{code}}."
  /\ basic_template_replace "Hello {{name}}" [(Some "name", "Jane")] = "Hello Jane"
  /\ basic_template_replace "Hi {{missing}}" [(Some "name", "Jane")] = "Hi {{missing}}".
Proof.
  apply (basic_render_fills_known_placeholders
           [(Some "name", "Jane"); (Some "email", "jane@example.org")]
           [Text "Dear "; Field "name"; Text ", your code is "; Field "code"; Text "."]);
    reflexivity.
Defined.

(** The claim as the specification words it fails: the placeholder
    [{{greeting}}] has its column in the record, and what stands for it
    in the output is not the value of the column, since the value holds
    the placeholder of a later column, which is replaced in its turn. *)
Lemma known_placeholder_is_not_always_its_value :
  column_value [(Some "greeting", "Dear {{name}}"); (Some "name", "Jane")] "greeting"
  = Some "Dear {{name}}"
  /\ basic_template_replace (template_text [Field "greeting"])
       [(Some "greeting", "Dear {{name}}"); (Some "name", "Jane")]
     = "Dear Jane"
  /\ basic_template_replace (template_text [Field "greeting"])
       [(Some "greeting", "Dear {{name}}"); (Some "name", "Jane")]
     <> fill_all [(Some "greeting", "Dear {{name}}"); (Some "name", "Jane")]
                 [Field "greeting"].
Proof.
  split; [reflexivity|]. split; [reflexivity|]. discriminate.
Qed.

(** C10.  The basic substitution goes field by field over the whole text
    so far: the first field is replaced, then the others in what came
    out.  A value that holds the placeholder of a later field has it
    replaced too, which one substitution of all the fields at once
    ([fill_all]) would not do, and the same fields in another order give
    another text. *)
Theorem basic_render_is_sequential (k1 k2 v : string) :
  no_brace k1 = true -> no_brace k2 = true -> k1 <> k2 ->
  no_open_brace v = true ->
  (forall content k w data,
      basic_template_replace content ((k, w) :: data)
      = basic_template_replace (PyStr.replace content (placeholder k) w) data)
  /\ basic_template_replace (placeholder (Some k1))
       [(Some k1, placeholder (Some k2)); (Some k2, v)] = v
  /\ fill_all [(Some k1, placeholder (Some k2)); (Some k2, v)] [Field k1]
     = placeholder (Some k2)
  /\ basic_template_replace (placeholder (Some k1))
       [(Some k2, v); (Some k1, placeholder (Some k2))] = placeholder (Some k2).
Proof.
  intros Hk1 Hk2 Hne Hv.
  assert (Hself : forall k w,
             PyStr.replace ("{{" ++ k ++ "}}") ("{{" ++ k ++ "}}") w = w).
  { intros k w.
    pose proof (ReplaceFacts.replace_same_field k w EmptyString) as H.
    cbn [segment_text] in H. rewrite ReplaceFacts.append_nil_r in H.
    rewrite H.
    change ("{{" ++ k ++ "}}") with (String "{" ("{" ++ k ++ "}}")).
    rewrite ReplaceFacts.replace_nil. apply ReplaceFacts.append_nil_r. }
  split; [reflexivity|]. split; [|split].
  - unfold basic_template_replace, placeholder, PyDict.key_str.
    cbn [fold_left fst snd]. now rewrite !Hself.
  - unfold placeholder. cbn [fill_all fill column_value PyDict.key_str].
    rewrite String.eqb_refl. apply ReplaceFacts.append_nil_r.
  - unfold basic_template_replace, placeholder, PyDict.key_str.
    cbn [fold_left fst snd].
    pose proof (ReplaceFacts.replace_other_field k2 k1 v EmptyString Hk2 Hk1
                  (fun E => Hne (eq_sym E))) as H.
    cbn [segment_text] in H. rewrite ReplaceFacts.append_nil_r in H.
    rewrite H.
    change ("{{" ++ k2 ++ "}}") with (String "{" ("{" ++ k2 ++ "}}")).
    rewrite ReplaceFacts.replace_nil, ReplaceFacts.append_nil_r.
    apply Hself.
Qed.

(** At an instance: the value of [a] is the placeholder of [b]. *)
Lemma basic_render_is_sequential_witness :
  (forall content k w data,
      basic_template_replace content ((k, w) :: data)
      = basic_template_replace (PyStr.replace content (placeholder k) w) data)
  /\ basic_template_replace "{{a}}" [(Some "a", "{{b}}"); (Some "b", "X")] = "X"
  /\ fill_all [(Some "a", "{{b}}"); (Some "b", "X")] [Field "a"] = "{{b}}"
  /\ basic_template_replace "{{a}}" [(Some "b", "X"); (Some "a", "{{b}}")] = "{{b}}".
Proof.
  apply (basic_render_is_sequential "a" "b" "X");
    try reflexivity. discriminate.
Defined.

(* ===================================================================== *)
(** ** The size limit of attachments *)
(* ===================================================================== *)

Lemma nearest_tenths_is_nearest (n d : Z) :
  (0 < d)%Z -> (0 <= n)%Z ->
  (2 * Z.abs (10 * n - nearest_tenths n d * d) <= d)%Z
  /\ (0 <= nearest_tenths n d)%Z.
Proof.
  intros Hd Hn. unfold nearest_tenths.
  pose proof (Z.div_mod (10 * n) d ltac:(lia)) as Hdm.
  pose proof (Z.mod_pos_bound (10 * n) d Hd) as Hr.
  assert (Hq : (0 <= 10 * n / d)%Z) by (apply Z.div_pos; lia).
  destruct (Z.ltb_spec (2 * ((10 * n) mod d)) d);
    [|destruct (Z.ltb_spec d (2 * ((10 * n) mod d)));
      [|destruct (Z.even (10 * n / d))]]; split; nia.
Qed.

Lemma one_digit (z : Z) :
  (0 <= z < 10)%Z -> String.length (PyStr.str_of_Z z) = 1.
Proof.
  intros H.
  assert (z = 0 \/ z = 1 \/ z = 2 \/ z = 3 \/ z = 4 \/ z = 5 \/ z = 6 \/ z = 7
          \/ z = 8 \/ z = 9)%Z as Hz by lia.
  repeat (destruct Hz as [->|Hz]; [reflexivity|]). subst z. reflexivity.
Qed.

(** C6, as amended.  A file larger than [max_size_bytes] is turned down
    with the message [File too large: <actual>MB (max: <limit>MB)].  The
    actual size is in megabytes with one decimal, the tenth nearest to
    the size (ties to the even tenth); the limit is printed as the float
    it is, the whole number of megabytes followed by [.0].  For a file of
    30 MB against the limit of 25 MB the message is
    [File too large: 30.0MB (max: 25.0MB)].  Size and limit are below
    [2^53], where the floats of the source are the exact numbers. *)
Theorem too_large_attachment_is_reported
    (os : Env) (h : AttachmentHandler) (file_path : string)
    (file_size : Z) (data : string + string) (t : trace) :
  fs os file_path = Regular file_size data ->
  (0 <= file_size < 2 ^ 53)%Z ->
  (0 <= max_size_mb h < 2 ^ 53)%Z ->
  (max_size_bytes h < file_size)%Z ->
  exists tenths : Z,
    (2 * Z.abs (10 * file_size - tenths * (1024 * 1024)) <= 1024 * 1024)%Z
    /\ (0 <= tenths)%Z
    /\ String.length (PyStr.str_of_Z (tenths mod 10)) = 1
    /\ runs (create_attachment os h file_path) t
         (Raise (EmailSendError
                   ("File too large: " ++ PyStr.str_of_Z (tenths / 10) ++ "."
                    ++ PyStr.str_of_Z (tenths mod 10) ++ "MB (max: "
                    ++ PyStr.str_of_Z (max_size_mb h) ++ ".0MB)"))) []
    /\ too_large_message {| max_size_mb := 25 |} (30 * 1024 * 1024)
       = "File too large: 30.0MB (max: 25.0MB)".
Proof.
  intros Hfs [Hsize _] _ Hlarge.
  destruct (nearest_tenths_is_nearest file_size (1024 * 1024)) as [Hnear Hpos];
    [lia | exact Hsize |].
  exists (nearest_tenths file_size (1024 * 1024)).
  split; [exact Hnear|]. split; [exact Hpos|].
  split; [apply one_digit, Z.mod_pos_bound; lia|].
  split; [|reflexivity].
  unfold create_attachment. rewrite Hfs.
  apply Z.ltb_lt in Hlarge. rewrite Hlarge.
  replace (too_large_message h file_size)
    with ("File too large: "
          ++ PyStr.str_of_Z (nearest_tenths file_size (1024 * 1024) / 10) ++ "."
          ++ PyStr.str_of_Z (nearest_tenths file_size (1024 * 1024) mod 10)
          ++ "MB (max: " ++ PyStr.str_of_Z (max_size_mb h) ++ ".0MB)").
  - apply Run.runs_raise.
  - unfold too_large_message, format_1f, str_of_whole_float.
    cbv zeta. now rewrite !ReplaceFacts.append_assoc.
Qed.

(** At an instance: the file of 30 MB of the small world, limit 25 MB. *)
Lemma too_large_attachment_is_reported_witness :
  exists tenths : Z,
    (2 * Z.abs (10 * (30 * 1024 * 1024) - tenths * (1024 * 1024)) <= 1024 * 1024)%Z
    /\ (0 <= tenths)%Z
    /\ String.length (PyStr.str_of_Z (tenths mod 10)) = 1
    /\ runs (create_attachment Demo.world {| max_size_mb := 25 |} "big.bin") []
         (Raise (EmailSendError
                   ("File too large: " ++ PyStr.str_of_Z (tenths / 10) ++ "."
                    ++ PyStr.str_of_Z (tenths mod 10) ++ "MB (max: "
                    ++ PyStr.str_of_Z 25 ++ ".0MB)"))) []
    /\ too_large_message {| max_size_mb := 25 |} (30 * 1024 * 1024)
       = "File too large: 30.0MB (max: 25.0MB)".
Proof.
  apply (too_large_attachment_is_reported Demo.world {| max_size_mb := 25 |}
           "big.bin" (30 * 1024 * 1024) (inl "x") []).
  - reflexivity.
  - lia.
  - simpl. lia.
  - reflexivity.
Defined.

(** The claim as the specification words it fails: for the file of 30 MB
    against the limit of 25 MB the message gives the limit as [25.0MB];
    the text [25MB] is not in it. *)
Lemma too_large_message_prints_limit_as_float :
  create_attachment Demo.world {| max_size_mb := 25 |} "big.bin" []
  = (Raise (EmailSendError "File too large: 30.0MB (max: 25.0MB)"), [])
  /\ PyStr.contains "File too large: 30.0MB (max: 25.0MB)" "25MB" = false.
Proof. split; reflexivity. Qed.

(* ===================================================================== *)
(** ** Rendering and the outside world *)
(* ===================================================================== *)





(* ===================================================================== *)
(** ** Loading the recipients *)
(* ===================================================================== *)

Module CsvFacts.

Local Open Scope list_scope.

Lemma key_eqb_eq (a b : PyDict.key) : PyDict.key_eqb a b = true <-> a = b.
Proof.
  destruct a as [x|], b as [y|]; cbn; split; try congruence; try discriminate.
  - intros H. apply String.eqb_eq in H. now subst.
  - intros [= ->]. apply String.eqb_refl.
Qed.

Lemma key_eqb_neq (a b : PyDict.key) : a <> b -> PyDict.key_eqb a b = false.
Proof.
  intros H. destruct (PyDict.key_eqb a b) eqn:E; [|reflexivity].
  apply key_eqb_eq in E. contradiction.
Qed.

(** A new key goes to the end. *)
Lemma set_fresh {V : Type} (d : PyDict.dict V) (k : PyDict.key) (v : V) :
  ~ In k (PyDict.keys d) -> PyDict.set d k v = d ++ [(k, v)].
Proof.
  induction d as [|[k' v'] d IH]; intros Hk; [reflexivity|].
  cbn [PyDict.set]. cbn in Hk.
  rewrite key_eqb_neq by (intros ->; apply Hk; now left).
  cbn [app]. f_equal. apply IH. intros Hin. apply Hk. now right.
Qed.

(** Pairs with distinct new keys are stored as they come. *)
Lemma store_distinct {V : Type} (pairs : list (PyDict.key * V)) :
  forall d : PyDict.dict V,
  NoDup (map fst pairs) ->
  (forall k, In k (map fst pairs) -> ~ In k (PyDict.keys d)) ->
  fold_left (fun d kv => PyDict.set d (fst kv) (snd kv)) pairs d = d ++ pairs.
Proof.
  induction pairs as [|[k v] pairs IH]; intros d Hnd Hfresh.
  - now rewrite app_nil_r.
  - cbn [fold_left fst snd]. cbn [map fst] in Hnd, Hfresh.
    apply NoDup_cons_iff in Hnd. destruct Hnd as [Hk Hnd].
    rewrite set_fresh by (apply Hfresh; now left).
    rewrite IH.
    + now rewrite <- app_assoc.
    + exact Hnd.
    + intros k' Hin. unfold PyDict.keys. rewrite map_app, in_app_iff.
      intros [H|[H|[]]].
      * apply (Hfresh k'); [now right | exact H].
      * cbn in H. subst k'. contradiction.
Qed.

Lemma of_pairs_distinct {V : Type} (pairs : list (PyDict.key * V)) :
  NoDup (map fst pairs) -> PyDict.of_pairs pairs = pairs.
Proof.
  intros Hnd. unfold PyDict.of_pairs. rewrite store_distinct; auto.
Qed.

Lemma keys_combine {A B : Type} (l1 : list A) :
  forall l2 : list B, map fst (combine l1 l2) = firstn (List.length l2) l1.
Proof.
  induction l1 as [|a l1 IH]; intros [|b l2]; cbn; try reflexivity.
  now rewrite IH.
Qed.

Lemma values_combine {A B : Type} (l1 : list A) :
  forall l2 : list B,
  List.length l2 <= List.length l1 -> map snd (combine l1 l2) = l2.
Proof.
  induction l1 as [|a l1 IH]; intros [|b l2] H; cbn in *; try reflexivity; try lia.
  rewrite IH by lia. reflexivity.
Qed.

Lemma map_combine_snd {A B C : Type} (f : B -> C) (l1 : list A) :
  forall l2 : list B,
  map (fun kv => (fst kv, f (snd kv))) (combine l1 l2) = combine l1 (map f l2).
Proof.
  induction l1 as [|a l1 IH]; intros [|b l2]; cbn; try reflexivity.
  now rewrite IH.
Qed.

Lemma NoDup_map_Some (l : list string) : NoDup l -> NoDup (map Some l).
Proof.
  induction 1 as [|x l Hx Hnd IH]; cbn; constructor; [|exact IH].
  rewrite in_map_iff. intros (y & [= ->] & Hy). contradiction.
Qed.

Lemma NoDup_firstn {A : Type} (n : nat) (l : list A) : NoDup l -> NoDup (firstn n l).
Proof.
  intros H. rewrite <- (firstn_skipn n l) in H. now apply NoDup_app_remove_r in H.
Qed.

Lemma NoDup_skipn {A : Type} (n : nat) (l : list A) : NoDup l -> NoDup (skipn n l).
Proof.
  intros H. rewrite <- (firstn_skipn n l) in H. now apply NoDup_app_remove_l in H.
Qed.

Lemma NoDup_apart {A : Type} (l1 l2 : list A) (x : A) :
  NoDup (l1 ++ l2) -> In x l2 -> ~ In x l1.
Proof.
  induction l1 as [|a l1 IH]; intros Hnd H2 H1; [exact H1|].
  cbn in Hnd. apply NoDup_cons_iff in Hnd. destruct Hnd as [Ha Hnd].
  destruct H1 as [->|H1].
  - apply Ha. rewrite in_app_iff. now right.
  - now apply (IH Hnd H2).
Qed.

Lemma pad_with_none (fieldnames : list string) :
  forall row : list string,
  List.length row <= List.length fieldnames ->
  combine (map Some fieldnames) (map CStr row)
  ++ map (fun key => (Some key, CNone)) (skipn (List.length row) fieldnames)
  = combine (map Some fieldnames)
            (map CStr row
             ++ repeat CNone (List.length fieldnames - List.length row)).
Proof.
  induction fieldnames as [|f fieldnames IH]; intros [|c row] H; cbn in *;
    try reflexivity; try lia.
  - f_equal. specialize (IH [] ltac:(cbn; lia)). cbn in IH.
    rewrite Nat.sub_0_r in IH. destruct fieldnames; exact IH.
  - f_equal. apply IH. lia.
Qed.

(** A row no longer than a header of distinct names: every column has
    its cell, or [None]. *)
Lemma dictreader_row_short (fieldnames row : list string) :
  NoDup fieldnames ->
  List.length row <= List.length fieldnames ->
  dictreader_row fieldnames row
  = combine (map Some fieldnames)
            (map CStr row
             ++ repeat CNone (List.length fieldnames - List.length row)).
Proof.
  intros Hnd Hlen. unfold dictreader_row.
  assert (Hkeys : PyDict.keys (combine (map Some fieldnames) (map CStr row))
                  = map Some (firstn (List.length row) fieldnames)).
  { unfold PyDict.keys. rewrite keys_combine, length_map, firstn_map. reflexivity. }
  assert (Hdistinct : NoDup (PyDict.keys (combine (map Some fieldnames) (map CStr row))))
    by (rewrite Hkeys; apply NoDup_map_Some, NoDup_firstn, Hnd).
  rewrite (of_pairs_distinct _ Hdistinct).
  destruct (Nat.ltb_spec (List.length fieldnames) (List.length row)); [lia|].
  destruct (Nat.ltb_spec (List.length row) (List.length fieldnames)).
  - rewrite <- pad_with_none by exact Hlen.
    rewrite <- (store_distinct
                  (map (fun key => (Some key, CNone))
                       (skipn (List.length row) fieldnames))).
    + generalize (combine (map Some fieldnames) (map CStr row)).
      induction (skipn (List.length row) fieldnames) as [|k l IH]; intros d;
        [reflexivity | apply IH].
    + rewrite map_map. cbn [fst]. apply NoDup_map_Some, NoDup_skipn, Hnd.
    + intros k. rewrite map_map. cbn [fst]. rewrite Hkeys.
      rewrite !in_map_iff. intros (x & <- & Hx) (y & [= ->] & Hy).
      revert Hy. apply NoDup_apart with (l2 := skipn (List.length row) fieldnames);
        [|exact Hx].
      now rewrite firstn_skipn.
  - replace (List.length fieldnames - List.length row) with 0 by lia.
    cbn [repeat]. now rewrite app_nil_r.
Qed.

Lemma strip_empty_or_truthy (s : string) :
  (if PyStr.truthy s then PyStr.strip s else EmptyString) = PyStr.strip s.
Proof. destruct s; reflexivity. Qed.

Lemma clean_cells (row : list string) (n : nat) :
  map clean_value (map CStr row ++ repeat CNone n)
  = map PyStr.strip row ++ repeat EmptyString n.
Proof.
  rewrite map_app, map_map, map_repeat. f_equal.
  apply map_ext. intros s. unfold clean_value. cbn [cell_truthy cell_str].
  apply strip_empty_or_truthy.
Qed.

Lemma any_cell (row : list string) (n : nat) :
  existsb cell_truthy (map CStr row ++ repeat CNone n) = raw_nonempty row.
Proof.
  rewrite existsb_app. unfold raw_nonempty.
  replace (existsb cell_truthy (repeat CNone n)) with false
    by (induction n; cbn; auto).
  rewrite orb_false_r. induction row as [|c row IH]; cbn; [reflexivity|].
  now rewrite IH.
Qed.

(** The cleaning loop keeps the keys of a row whose keys are distinct. *)
Lemma clean_row_distinct (row : PyDict.dict cell) :
  NoDup (PyDict.keys row) ->
  clean_row row = map (fun kv => (fst kv, clean_value (snd kv))) row.
Proof.
  intros Hnd. unfold clean_row.
  transitivity (fold_left (fun d kv => PyDict.set d (fst kv) (snd kv))
                  (map (fun kv => (fst kv, clean_value (snd kv))) row) []).
  - generalize (@nil (PyDict.key * string)).
    induction row as [|kv row IH]; intros d; [reflexivity|].
    cbn [fold_left map fst snd]. apply IH.
    unfold PyDict.keys in *. cbn in Hnd. now apply NoDup_cons_iff in Hnd.
  - apply of_pairs_distinct. rewrite map_map. cbn [fst]. exact Hnd.
Qed.

(** What the reader and the loop of [read_recipients] make of the rows of
    a file whose header has distinct names and no row is longer than
    the header. *)
Lemma collect_recipients_spec (fieldnames : list string) (data : list (list string)) :
  NoDup fieldnames ->
  forallb (fun row => Nat.leb (List.length row) (List.length fieldnames)) data = true ->
  collect_recipients (dictreader_rows fieldnames data)
  = map (record_of fieldnames) (filter raw_nonempty data).
Proof.
  intros Hnd. unfold collect_recipients, dictreader_rows.
  induction data as [|row data IH]; intros Hlen; [reflexivity|].
  cbn [forallb] in Hlen. apply andb_true_iff in Hlen. destruct Hlen as [Hrow Hlen].
  apply Nat.leb_le in Hrow.
  cbn [filter]. destruct (is_blank_row row) eqn:Hblank.
  - destruct row; [|discriminate].
    cbn [negb raw_nonempty existsb]. apply IH, Hlen.
  - cbn [negb map filter].
    rewrite (dictreader_row_short fieldnames row Hnd Hrow).
    assert (Hvals : List.length
                      (map CStr row
                       ++ repeat CNone (List.length fieldnames - List.length row))
                    = List.length (map Some fieldnames)).
    { rewrite length_app, !length_map, repeat_length. lia. }
    unfold any_value, PyDict.values.
    rewrite values_combine by (rewrite Hvals; apply Nat.le_refl). rewrite any_cell.
    destruct (raw_nonempty row); [|apply IH, Hlen].
    cbn [map]. f_equal; [|apply IH, Hlen].
    rewrite clean_row_distinct.
    + rewrite map_combine_snd, clean_cells. reflexivity.
    + unfold PyDict.keys. rewrite keys_combine, Hvals, firstn_all.
      now apply NoDup_map_Some.
Qed.

(** The keys of a record are the header. *)
Lemma record_of_keys (fieldnames row : list string) :
  List.length row <= List.length fieldnames ->
  PyDict.keys (record_of fieldnames row) = map Some fieldnames.
Proof.
  intros Hlen. unfold PyDict.keys, record_of. rewrite keys_combine.
  rewrite length_app, length_map, repeat_length.
  replace (List.length row + (List.length fieldnames - List.length row))
    with (List.length (map Some fieldnames)) by (rewrite length_map; lia).
  apply firstn_all.
Qed.

End CsvFacts.

(** A cell that is not empty after trimming is not empty before. *)
Lemma nonempty_after_trimming_raw (row : list string) :
  nonempty_after_trimming row = true -> raw_nonempty row = true.
Proof.
  unfold nonempty_after_trimming, blank_after_trimming, raw_nonempty.
  induction row as [|c row IH]; [discriminate|].
  cbn [forallb existsb]. destruct c as [|a c].
  - cbn [PyStr.truthy orb]. exact IH.
  - reflexivity.
Qed.

(** Among rows none of which is a row of blanks, the rows that the loop
    keeps are the rows with a cell that is not empty after trimming. *)
Lemma kept_rows_settled (data : list (list string)) :
  forallb settled_row data = true ->
  filter raw_nonempty data = filter nonempty_after_trimming data.
Proof.
  induction data as [|row data IH]; [reflexivity|].
  cbn [forallb filter]. intros H. apply andb_true_iff in H. destruct H as [Hrow H].
  rewrite (IH H). unfold settled_row in Hrow.
  destruct (nonempty_after_trimming row) eqn:Hn.
  - now rewrite (nonempty_after_trimming_raw row Hn).
  - rewrite orb_false_r in Hrow. apply negb_true_iff in Hrow. now rewrite Hrow.
Qed.

(** C4, as amended.  A file that the reader, run with the delimiter that
    the sniffer finds in the first 1024 characters (the comma when it
    finds none), cuts into a header of distinct column names and rows
    none of which is longer than the header, each of them empty in every
    cell or with a cell that is not empty after trimming, at least one
    of the latter kind: it loads to one record for every row that has a
    cell that is not empty after trimming, as many records as such rows,
    in their order, each with all the columns of the header in header
    order and the trimmed cell (the empty string where the row is short)
    as value.  A row all of whose cells are empty is passed over. *)
Theorem header_rows_load_to_records
    (os : Env) (csv_file : string) (size : Z) (bytes text : string)
    (fieldnames : list string) (data : list (list string)) (t : trace) :
  fs os csv_file = Regular size (inl bytes) ->
  utf8_decode os bytes = inl text ->
  csv_reader os text (sniff_delimiter os text) = (fieldnames :: data, None) ->
  fieldnames <> [] ->
  NoDup fieldnames ->
  forallb (fun row => Nat.leb (List.length row) (List.length fieldnames)) data = true ->
  forallb settled_row data = true ->
  filter nonempty_after_trimming data <> [] ->
  exists recipients evs,
    runs (read_recipients os csv_file) t (Return recipients) evs
    /\ recipients = map (record_of fieldnames) (filter nonempty_after_trimming data)
    /\ List.length recipients = List.length (filter nonempty_after_trimming data)
    /\ Forall (fun r => PyDict.keys r = map Some fieldnames) recipients.
Proof.
  intros Hfs Hdec Hcsv Hheader Hnd Hlen Hsettled Hsome.
  pose proof (CsvFacts.collect_recipients_spec fieldnames data Hnd Hlen) as Hcollect.
  rewrite (kept_rows_settled data Hsettled) in Hcollect.
  assert (Hkeys : Forall (fun r => PyDict.keys r = map Some fieldnames)
                    (map (record_of fieldnames) (filter nonempty_after_trimming data))).
  { apply Forall_forall. intros r Hr. apply in_map_iff in Hr.
    destruct Hr as (row & <- & Hrow). apply CsvFacts.record_of_keys.
    apply filter_In in Hrow. destruct Hrow as [Hrow _].
    rewrite forallb_forall in Hlen. apply Nat.leb_le. now apply Hlen. }
  assert (Hcount : List.length (map (record_of fieldnames)
                                  (filter nonempty_after_trimming data))
                   = List.length (filter nonempty_after_trimming data))
    by apply length_map.
  destruct fieldnames as [|f fieldnames]; [congruence|].
  destruct (map (record_of (f :: fieldnames)) (filter nonempty_after_trimming data))
    as [|rd l] eqn:Hmap.
  { apply map_eq_nil in Hmap. contradiction. }
  eexists (rd :: l), _. split; [|split; [reflexivity|split; assumption]].
  unfold read_recipients. rewrite Hfs. apply Run.runs_try_ret.
  unfold read_csv. rewrite Hfs, Hdec.
  unfold parse_recipients, parse_rows. rewrite Hcsv, Hcollect.
  cbv beta iota zeta. Run.run_line.
Qed.

(** At an instance: the file of the small world with a row of empty
    cells between two recipients. *)
Lemma header_rows_load_to_records_witness :
  exists recipients evs,
    runs (read_recipients Demo.world "gaps.csv") [] (Return recipients) evs
    /\ recipients
       = [[(Some "name", "Ann"); (Some "email", "ann@example.org")];
          [(Some "name", "Bob"); (Some "email", "bob@example.org")]]
    /\ List.length recipients = 2
    /\ Forall (fun r => PyDict.keys r = [Some "name"; Some "email"]) recipients.
Proof.
  apply (header_rows_load_to_records Demo.world "gaps.csv" 53 Demo.gaps_text
           Demo.gaps_text ["name"; "email"] (tl Demo.gaps_rows) []).
  - reflexivity.
  - reflexivity.
  - reflexivity.
  - discriminate.
  - repeat constructor; simpl; intuition discriminate.
  - reflexivity.
  - reflexivity.
  - discriminate.
Defined.

(** The claim as the specification words it fails.  A file of one column,
    a header and two rows when it is cut at the comma, loads to records
    that do not have the column of the header: the sniffer takes the
    letter [m], which every line has once, for the delimiter.  And a file
    that has its header and no row does not load to no record: loading
    raises. *)
Lemma sniffed_delimiter_and_empty_load :
  (csv_reader Demo.world Demo.addresses_text ","
   = ([["email"]; ["ann@example.org"]; ["bob@example.org"]], None)
   /\ fst (read_recipients Demo.world "addresses.csv" [])
      = Return [[(Some "e", "ann@exa"); (Some "ail", "ple.org")];
                [(Some "e", "bob@exa"); (Some "ail", "ple.org")]])
  /\ (csv_reader Demo.world Demo.header_text (sniff_delimiter Demo.world Demo.header_text)
      = ([["name"; "email"]], None)
      /\ fst (read_recipients Demo.world "header.csv" [])
         = Raise (CSVError
                    "Error reading CSV file: No valid recipients found in CSV file")).
Proof.
  split; split; reflexivity.
Qed.

(** A row whose cells are all empty after trimming is loaded when a cell
    holds blanks: the rows are tested before they are trimmed, where the
    comment of the test reads [Skip empty rows]. *)
Lemma row_of_blanks_is_loaded :
  In [" "; "  "] (tl Demo.rows_with_spaces)
  /\ blank_after_trimming [" "; "  "] = true
  /\ fst (read_recipients Demo.world "spaces.csv" [])
     = Return [[(Some "name", "Ann"); (Some "email", "ann@example.org")];
               [(Some "name", EmptyString); (Some "email", EmptyString)]].
Proof.
  split; [cbn; auto|]. split; reflexivity.
Qed.

(* ===================================================================== *)
(** ** The worker thread *)
(* ===================================================================== *)

Module WorkerFacts.

Import Run.
Local Open Scope list_scope.

Section Worker.

Variables (os : Env) (w : EmailWorker).

(** A turn of the worker always returns; it counts the recipient as sent
    or as failed and emits its signals around the send. *)
Lemma worker_step_runs (n i : nat) (rd : record) (r : results) (t : trace) :
  exists r' block,
    runs (worker_step os w n i rd r) t (Return r') block
    /\ turn_events n i rd block
    /\ total r' = total r
    /\ success r' = success r
    /\ sent r' + failed r' = S (sent r + failed r).
Proof.
  set (p := ProgressUpdated (i + 1) n).
  set (s := StatusUpdated ("Sending to " ++ reported_as rd ++ "...")%string).
  assert (Hsend : exists o mid,
             runs (send_email os (email_app_handler w) (email_app_smtp w)
                     (smtp_username (email_app_smtp w))
                     match PyDict.get rd email_key with
                     | Some address => OneRecipient address
                     | None => NoRecipient
                     end
                     (basic_template_replace (worker_subject w) rd)
                     (basic_template_replace (template_content w) rd)
                     None (Some (worker_attachments w)) None)
                  ((t ++ [p]) ++ [s]) o mid
             /\ forallb is_log_or_smtp mid = true
             /\ List.length (smtp_calls mid) <= 1
             /\ (o = Return true \/ exists e, o = Raise e)).
  { destruct (PyDict.get rd email_key) as [a|].
    - destruct (send_email_one os (email_app_handler w) (email_app_smtp w)
                  (smtp_username (email_app_smtp w)) a
                  (basic_template_replace (worker_subject w) rd)
                  (basic_template_replace (template_content w) rd)
                  None (Some (worker_attachments w)) None ((t ++ [p]) ++ [s]))
        as (o & mid & Hrun & Hlog & Hcase & _).
      exists o, mid. split; [exact Hrun|]. split; [exact Hlog|].
      destruct Hcase as [[Hq (m & ->)] | (msg & _ & Hcall & ->)].
      + rewrite Hq. split; [cbn; lia | eauto].
      + rewrite Hcall. split; [cbn; lia|].
        destruct (smtp_failure_text _); eauto.
    - eexists _, []. split; [apply send_email_none|].
      split; [reflexivity|]. split; [cbn; lia | eauto]. }
  destruct Hsend as (o & mid & Hrun & Hlog & Hcalls & Ho).
  unfold worker_step, worker_try, worker_except.
  destruct Ho as [-> | (e & ->)].
  - exists (count_sent r),
           ([p] ++ [s] ++ mid ++ [EmailSent (reported_as rd) true EmptyString] ++ []).
    split; [|split; [|split; [|split]]].
    + apply runs_try_ret.
      eapply runs_bind_ret; [apply runs_emit|].
      eapply runs_bind_ret; [apply runs_emit|].
      eapply runs_bind_ret; [exact Hrun|].
      eapply runs_bind_ret; [apply runs_emit | apply runs_ret].
    + exists mid, true, EmptyString. now rewrite app_nil_r.
    + reflexivity.
    + reflexivity.
    + cbn. lia.
  - exists (append_error (count_failed r) (exn_str e)),
           (([p] ++ [s] ++ mid) ++ [EmailSent (reported_as rd) false (exn_str e)] ++ []).
    split; [|split; [|split; [|split]]].
    + eapply runs_try_raise.
      * eapply runs_bind_ret; [apply runs_emit|].
        eapply runs_bind_ret; [apply runs_emit|].
        eapply runs_bind_raise. exact Hrun.
      * eapply runs_bind_ret; [apply runs_emit | apply runs_ret].
    + exists mid, false, (exn_str e). rewrite app_nil_r, <- !app_assoc. auto.
    + reflexivity.
    + reflexivity.
    + cbn. lia.
Qed.

(** The loop of the worker stops at the first test that finds the flag
    set, or at the end of the list: [k] recipients have their turn. *)
Lemma worker_loop_runs (n : nat) (stop_called : nat -> bool)
    (recipients : list record) :
  forall i flag r t,
  exists k r' evs,
    runs (worker_loop os w n stop_called i flag recipients r) t (Return r') evs
    /\ k <= List.length recipients
    /\ turns_events n i (firstn k recipients) evs
    /\ total r' = total r
    /\ success r' = success r
    /\ sent r' + failed r' = sent r + failed r + k
    /\ (flag = true -> k = 0)
    /\ (flag = false ->
        (forall j, j < k -> stop_called (i + j) = false)
        /\ (k < List.length recipients -> stop_called (i + k) = true)).
Proof.
  induction recipients as [|rd recipients IH]; intros i flag r t.
  - exists 0, r, []. split; [apply runs_ret|]. cbn [List.length firstn turns_events].
    split; [lia|]. split; [reflexivity|]. split; [reflexivity|].
    split; [reflexivity|]. split; [lia|]. split; [reflexivity|].
    intros _. split; intros; lia.
  - cbn [worker_loop]. destruct (flag || stop_called i) eqn:Hflag.
    + exists 0, r, []. split; [apply runs_ret|]. cbn [List.length firstn turns_events].
      split; [lia|]. split; [reflexivity|]. split; [reflexivity|].
      split; [reflexivity|]. split; [lia|]. split; [reflexivity|].
      intros ->. cbn [orb] in Hflag. split; [intros j Hj; lia|].
      intros _. rewrite Nat.add_0_r. exact Hflag.
    + apply orb_false_iff in Hflag. destruct Hflag as [-> Hstop].
      destruct (worker_step_runs n i rd r t)
        as (r1 & block & Hrun1 & Hturn & Ht1 & Hs1 & Hc1).
      destruct (IH (S i) false r1 (t ++ block))
        as (k & r2 & evs & Hrun2 & Hk & Hturns & Ht2 & Hs2 & Hc2 & _ & Hfirst).
      destruct (Hfirst eq_refl) as [Hbefore Hat].
      exists (S k), r2, (block ++ evs).
      split; [eapply runs_bind_ret; eassumption|].
      split; [cbn [List.length]; lia|].
      split.
      { cbn [firstn turns_events]. exists block, evs.
        split; [reflexivity|]. split; [exact Hturn | exact Hturns]. }
      split; [congruence|]. split; [congruence|]. split; [lia|].
      split; [discriminate|]. intros _. split.
      * intros [|j] Hj; [now rewrite Nat.add_0_r|].
        rewrite <- Nat.add_succ_comm. apply Hbefore. lia.
      * cbn [List.length]. intros Hlt. rewrite <- Nat.add_succ_comm. apply Hat. lia.
Qed.

(** The per-recipient signals and the uses of the server in the events
    of some turns. *)
Lemma turns_events_signals (n : nat) (l : list record) :
  forall i evs,
  turns_events n i l evs ->
  map signal_recipient (filter is_email_sent evs) = map reported_as l
  /\ List.length (smtp_calls evs) <= List.length l.
Proof.
  assert (Hmid : forall mid, forallb is_log_or_smtp mid = true ->
                             filter is_email_sent mid = []).
  { induction mid as [|e mid IH]; [reflexivity|].
    cbn [forallb filter]. intros H. apply andb_true_iff in H. destruct H as [He H].
    destruct e; try discriminate; cbn; auto. }
  induction l as [|rd l IH]; intros i evs H.
  - cbn in H. subst evs. split; [reflexivity | cbn; lia].
  - cbn [turns_events] in H.
    destruct H as (block & rest & -> & (mid & ok & err & -> & Hlog & Hcalls) & Hrest).
    destruct (IH _ _ Hrest) as [Hsig Hsmtp].
    split.
    + rewrite !filter_app, (Hmid mid Hlog). cbn [filter is_email_sent List.app map
        signal_recipient]. now rewrite Hsig.
    + rewrite !smtp_calls_app, !length_app. cbn [smtp_calls filter is_smtp List.length].
      cbn [List.length]. unfold smtp_calls in *. lia.
Qed.

End Worker.

End WorkerFacts.

Section WorkerRun.

Import Run.
Local Open Scope list_scope.

Variable os : Env.

(** C3.  When the flag is found set at the test that follows [k]
    recipients (the send in flight when [stop()] was called has ended by
    then), no further recipient is started: the results have [total]
    equal to the number of recipients, [sent + failed] equal to [k], the
    per-recipient signals are those of the first [k] recipients, in
    their order, and the server was used [k] times at most. *)
Theorem cancellation_stops_before_next_recipient
    (w : EmailWorker) (stop_called : nat -> bool) (k : nat) (t : trace) :
  k <= List.length (recipients_data w) ->
  (forall j, j < k -> stop_called j = false) ->
  (k < List.length (recipients_data w) -> stop_called k = true) ->
  exists r evs,
    runs (run_bulk_email os w stop_called) t (Return r)
         ([StatusUpdated "Reading recipients...";
           ProgressUpdated 0 (List.length (recipients_data w))]
          ++ evs ++ [Finished r])
    /\ total r = List.length (recipients_data w)
    /\ sent r + failed r = k
    /\ map signal_recipient (filter is_email_sent evs)
       = map reported_as (firstn k (recipients_data w))
    /\ List.length (smtp_calls evs) <= k.
Proof.
  intros Hk Hbefore Hat.
  set (n := List.length (recipients_data w)) in *.
  set (r0 := {| total := n; sent := 0; failed := 0; errors := []; success := false |}).
  set (t0 := (t ++ [StatusUpdated "Reading recipients..."]) ++ [ProgressUpdated 0 n]).
  destruct (WorkerFacts.worker_loop_runs os w n stop_called (recipients_data w)
              0 false r0 t0)
    as (k' & r & evs & Hrun & Hk' & Hturns & Ht & _ & Hc & _ & Hfirst).
  destruct (Hfirst eq_refl) as [Hbefore' Hat'].
  assert (k' = k).
  { destruct (Nat.lt_trichotomy k' k) as [Hlt|[Heq|Hgt]]; [|exact Heq|].
    - rewrite Hbefore in Hat' by exact Hlt. fold n in Hat'.
      assert (k' < n) by lia. specialize (Hat' H). discriminate.
    - specialize (Hbefore' k Hgt). cbn [Nat.add] in Hbefore'.
      rewrite Hat in Hbefore' by (fold n in Hk'; lia). discriminate. }
  subst k'.
  destruct (WorkerFacts.turns_events_signals _ _ _ _ Hturns) as [Hsig Hsmtp].
  exists (set_success r), evs.
  split; [|split; [|split; [|split]]].
  - change ([StatusUpdated "Reading recipients..."; ProgressUpdated 0 n]
            ++ evs ++ [Finished (set_success r)])
      with ([StatusUpdated "Reading recipients..."] ++ [ProgressUpdated 0 n]
            ++ evs ++ [Finished (set_success r)] ++ []).
    unfold run_bulk_email. fold n. fold r0.
    eapply runs_bind_ret; [apply runs_emit|].
    eapply runs_bind_ret; [apply runs_emit|].
    eapply runs_bind_ret; [exact Hrun|].
    eapply runs_bind_ret; [apply runs_emit | apply runs_ret].
  - cbn [set_success total]. exact Ht.
  - cbn [set_success sent failed]. cbn [r0 sent failed] in Hc. lia.
  - exact Hsig.
  - rewrite length_firstn in Hsmtp. lia.
Qed.

(** C7, as amended.  The worker emits its signals turn by turn, in the
    order of the recipients.  In the turn of the recipient at index [i]
    the progress signal [(i + 1, total)] and the status signal come
    first, before the send; then come the events of the send; the
    per-recipient signal comes last, after the send.  Nothing of a later
    recipient comes before, and the [finished] signal closes the run. *)
Theorem worker_signals_follow_recipients
    (w : EmailWorker) (stop_called : nat -> bool) (t : trace) :
  exists k r evs,
    k <= List.length (recipients_data w)
    /\ runs (run_bulk_email os w stop_called) t (Return r)
         ([StatusUpdated "Reading recipients...";
           ProgressUpdated 0 (List.length (recipients_data w))]
          ++ evs ++ [Finished r])
    /\ turns_events (List.length (recipients_data w)) 0
         (firstn k (recipients_data w)) evs.
Proof.
  set (n := List.length (recipients_data w)) in *.
  set (r0 := {| total := n; sent := 0; failed := 0; errors := []; success := false |}).
  set (t0 := (t ++ [StatusUpdated "Reading recipients..."]) ++ [ProgressUpdated 0 n]).
  destruct (WorkerFacts.worker_loop_runs os w n stop_called (recipients_data w)
              0 false r0 t0)
    as (k & r & evs & Hrun & Hk & Hturns & _).
  exists k, (set_success r), evs.
  split; [exact Hk|]. split; [|exact Hturns].
  change ([StatusUpdated "Reading recipients..."; ProgressUpdated 0 n]
          ++ evs ++ [Finished (set_success r)])
    with ([StatusUpdated "Reading recipients..."] ++ [ProgressUpdated 0 n]
          ++ evs ++ [Finished (set_success r)] ++ []).
  unfold run_bulk_email. fold n. fold r0.
  eapply runs_bind_ret; [apply runs_emit|].
  eapply runs_bind_ret; [apply runs_emit|].
  eapply runs_bind_ret; [exact Hrun|].
  eapply runs_bind_ret; [apply runs_emit | apply runs_ret].
Qed.

End WorkerRun.

(** At an instance: ten recipients, [stop()] called while the fifth is in
    flight. *)
Lemma cancellation_stops_before_next_recipient_witness :
  exists r evs,
    runs (run_bulk_email Demo.world Demo.worker Demo.stop_during_fifth) [] (Return r)
         ([StatusUpdated "Reading recipients..."; ProgressUpdated 0 10]
          ++ evs ++ [Finished r])%list
    /\ total r = 10
    /\ sent r + failed r = 5
    /\ map signal_recipient (filter is_email_sent evs)
       = ["ann@example.org"; "bob@example.org"; "cy@example.org";
          "di@example.org"; "ed@example.org"]
    /\ List.length (smtp_calls evs) <= 5.
Proof.
  apply (cancellation_stops_before_next_recipient Demo.world Demo.worker
           Demo.stop_during_fifth 5 []).
  - simpl. lia.
  - intros j Hj. unfold Demo.stop_during_fifth.
    destruct (Nat.eqb_spec j 5); [lia | reflexivity].
  - reflexivity.
Defined.

(** The claim as the specification words it fails: the progress signal
    that counts the first recipient is emitted before the message for
    that recipient is handed to the server. *)
Lemma progress_signal_precedes_the_send :
  let t := snd (run_bulk_email Demo.world Demo.worker (fun _ => false) []) in
  first_index (is_progress 1 10) t = Some 2
  /\ first_index is_smtp t = Some 6
  /\ first_index is_email_sent t = Some 8.
Proof. repeat split; vm_compute; reflexivity. Qed.

(* ===================================================================== *)
(** ** Facts about [dict] assignment *)
(* ===================================================================== *)

Module DictFacts.

Local Open Scope list_scope.

Lemma key_eqb_refl (k : PyDict.key) : PyDict.key_eqb k k = true.
Proof. destruct k as [s|]; [apply String.eqb_refl | reflexivity]. Qed.

Lemma key_eqb_true (a b : PyDict.key) : PyDict.key_eqb a b = true -> a = b.
Proof.
  destruct a as [x|], b as [y|]; cbn; try discriminate; [|reflexivity].
  intros H. apply String.eqb_eq in H. now subst.
Qed.

Lemma key_eqb_false (a b : PyDict.key) : a <> b -> PyDict.key_eqb a b = false.
Proof.
  intros H. destruct (PyDict.key_eqb a b) eqn:E; [|reflexivity].
  now apply key_eqb_true in E.
Qed.

(** A key just assigned holds the value assigned. *)
Lemma get_set_same {V : Type} (d : PyDict.dict V) (k : PyDict.key) (v : V) :
  PyDict.get (PyDict.set d k v) k = Some v.
Proof.
  induction d as [|[k' v'] d IH]; cbn [PyDict.set PyDict.get].
  - now rewrite key_eqb_refl.
  - destruct (PyDict.key_eqb k' k) eqn:E; cbn [PyDict.get]; rewrite E; auto.
Qed.

(** The other keys hold what they held. *)
Lemma get_set_other {V : Type} (d : PyDict.dict V) (k q : PyDict.key) (v : V) :
  k <> q -> PyDict.get (PyDict.set d k v) q = PyDict.get d q.
Proof.
  intros Hkq.
  induction d as [|[k' v'] d IH]; cbn [PyDict.set PyDict.get].
  - now rewrite (key_eqb_false _ _ Hkq).
  - destruct (PyDict.key_eqb k' k) eqn:E; cbn [PyDict.get].
    + apply key_eqb_true in E. subst k'. now rewrite (key_eqb_false _ _ Hkq).
    + destruct (PyDict.key_eqb k' q); [reflexivity | exact IH].
Qed.

Lemma get_absent {V : Type} (d : PyDict.dict V) (k : PyDict.key) :
  ~ In k (PyDict.keys d) -> PyDict.get d k = None.
Proof.
  induction d as [|[k' v'] d IH]; [reflexivity|].
  cbn [PyDict.keys map fst In PyDict.get]. intros H.
  rewrite key_eqb_false by tauto. apply IH. unfold PyDict.keys. tauto.
Qed.

(** An assignment keeps the keys in their places and adds the key at the
    end when it is new. *)
Lemma keys_set {V : Type} (d : PyDict.dict V) (k : PyDict.key) (v : V) :
  exists added,
    PyDict.keys (PyDict.set d k v) = PyDict.keys d ++ added /\ incl added [k].
Proof.
  induction d as [|[k' v'] d IH]; cbn [PyDict.set].
  - exists [k]. split; [reflexivity | apply incl_refl].
  - destruct (PyDict.key_eqb k' k).
    + exists []. split; [now rewrite app_nil_r | apply incl_nil_l].
    + destruct IH as (added & Hkeys & Hincl). exists added.
      split; [|exact Hincl]. unfold PyDict.keys in *. cbn [map fst List.app].
      now rewrite Hkeys.
Qed.

End DictFacts.

(* ===================================================================== *)
(** ** What the counters of a run add up to *)
(* ===================================================================== *)

Module CountFacts.

Import Run.
Local Open Scope list_scope.

Lemma deliveries_app (a b : list event) :
  deliveries (a ++ b) = deliveries a ++ deliveries b.
Proof. apply filter_app. Qed.

Lemma failed_uses_app (a b : list event) :
  failed_uses (a ++ b) = failed_uses a ++ failed_uses b.
Proof. apply filter_app. Qed.

Lemma acceptances_app (a b : list event) :
  acceptances (a ++ b) = acceptances a ++ acceptances b.
Proof. apply filter_app. Qed.

(** Only a use of the server can be a delivery. *)
Lemma deliveries_of_calls (evs : list event) :
  deliveries evs = deliveries (smtp_calls evs).
Proof.
  induction evs as [|e evs IH]; [reflexivity|].
  unfold deliveries, smtp_calls in *. cbn [filter].
  destruct e; cbn [is_smtp is_delivery]; try exact IH.
  destruct res; cbn [filter is_delivery]; now rewrite IH.
Qed.

Lemma failed_uses_of_calls (evs : list event) :
  failed_uses evs = failed_uses (smtp_calls evs).
Proof.
  induction evs as [|e evs IH]; [reflexivity|].
  unfold failed_uses, smtp_calls in *. cbn [filter].
  destruct e; cbn [is_smtp is_failed_use]; try exact IH.
  destruct res; cbn [filter is_failed_use smtp_failure_text]; now rewrite IH.
Qed.

Lemma acceptances_of_calls (evs : list event) :
  acceptances evs = acceptances (smtp_calls evs).
Proof.
  induction evs as [|e evs IH]; [reflexivity|].
  unfold acceptances, smtp_calls in *. cbn [filter].
  destruct e; cbn [is_smtp is_acceptance]; try exact IH.
  destruct res; cbn [filter is_acceptance message_accepted]; now rewrite IH.
Qed.

Lemma no_calls_no_deliveries (evs : list event) :
  smtp_calls evs = [] -> deliveries evs = [].
Proof. intros H. now rewrite deliveries_of_calls, H. Qed.

Lemma no_calls_no_failed_uses (evs : list event) :
  smtp_calls evs = [] -> failed_uses evs = [].
Proof. intros H. now rewrite failed_uses_of_calls, H. Qed.

Lemma no_calls_no_acceptances (evs : list event) :
  smtp_calls evs = [] -> acceptances evs = [].
Proof. intros H. now rewrite acceptances_of_calls, H. Qed.

(** A use went through exactly when it gave no failure text. *)
Lemma deliveries_of_one_call (cfg : smtp_config) (msg : message) (res : smtp_outcome) :
  List.length (deliveries [Smtp cfg msg res])
  = match smtp_failure_text res with None => 1 | Some _ => 0 end.
Proof. now destruct res. Qed.

Lemma failed_uses_of_one_call (cfg : smtp_config) (msg : message) (res : smtp_outcome) :
  List.length (failed_uses [Smtp cfg msg res])
  = match smtp_failure_text res with None => 0 | Some _ => 1 end.
Proof. now destruct res. Qed.

(** A use of the server went through or did not. *)
Lemma calls_split (evs : list event) :
  List.length (smtp_calls evs)
  = List.length (deliveries evs) + List.length (failed_uses evs).
Proof.
  induction evs as [|e evs IH]; [reflexivity|].
  unfold smtp_calls, deliveries, failed_uses in *. cbn [filter].
  destruct e; cbn [is_smtp is_delivery is_failed_use]; try exact IH.
  destruct res; cbn [smtp_failure_text List.length]; lia.
Qed.

(** A message that the server has although the use did not go through
    is one whose connection failed to close. *)
Lemma accepted_and_failed (res : smtp_outcome) (text : string) :
  message_accepted res = true -> smtp_failure_text res = Some text ->
  res = ExitFailed text.
Proof. destruct res; cbn; try discriminate. now intros _ [= ->]. Qed.

Section Counts.

Variable os : Env.

(** [send_email] ends in [True] after a use of the server that went
    through, or in an [EmailSendError]; it uses the server once at most.
    When it raises although the server has the message, the connection
    failed to close. *)
Lemma send_email_outcome (h : AttachmentHandler) (cfg : smtp_config) (sender : string)
    (recipient : recipient_arg) (subject body : string) (html : option string)
    (attachments : option (list string)) (name : option string) (t : trace) :
  exists o evs,
    runs (send_email os h cfg sender recipient subject body html attachments name) t o evs
    /\ forallb is_log_or_smtp evs = true
    /\ List.length (smtp_calls evs) <= 1
    /\ ((o = Return true /\ List.length (deliveries evs) = 1
         /\ acceptances evs = deliveries evs)
        \/ ((exists msg, o = Raise (EmailSendError msg)) /\ deliveries evs = []
            /\ forall e, In e (acceptances evs) ->
                 exists text, smtp_result e = ExitFailed text
                              /\ o = Raise (EmailSendError ("SMTP error: " ++ text)%string))).
Proof.
  assert (Hcase : forall to o evs,
             not_sent o evs \/ handed_over os cfg t to o evs ->
             List.length (smtp_calls evs) <= 1
             /\ ((o = Return true /\ List.length (deliveries evs) = 1
                  /\ acceptances evs = deliveries evs)
                 \/ ((exists msg, o = Raise (EmailSendError msg)) /\ deliveries evs = []
                     /\ forall e, In e (acceptances evs) ->
                          exists text,
                            smtp_result e = ExitFailed text
                            /\ o = Raise (EmailSendError ("SMTP error: " ++ text)%string)))).
  { intros to o evs [[Hq Hraise] | (msg & _ & Hcall & ->)].
    - rewrite Hq. split; [cbn; lia|]. right. split; [exact Hraise|].
      split; [now apply no_calls_no_deliveries|].
      rewrite (no_calls_no_acceptances _ Hq). intros e [].
    - rewrite Hcall. split; [cbn; lia|].
      rewrite deliveries_of_calls, acceptances_of_calls, Hcall.
      set (res := smtp os (List.length (smtp_calls t)) cfg msg).
      destruct (smtp_failure_text res) as [text|] eqn:Hres.
      + right. split; [eauto|]. split; [now destruct res|].
        unfold acceptances. cbn [filter is_acceptance].
        destruct (message_accepted res) eqn:Hacc; [|intros e []].
        intros e [<-|[]]. exists text. cbn [smtp_result].
        split; [now apply accepted_and_failed | reflexivity].
      + left. destruct res; try discriminate. repeat split. }
  assert (Hnone : exists o evs,
             runs (@raise bool (EmailSendError "No recipients specified")) t o evs
             /\ forallb is_log_or_smtp evs = true
             /\ List.length (smtp_calls evs) <= 1
             /\ ((o = Return true /\ List.length (deliveries evs) = 1
                  /\ acceptances evs = deliveries evs)
                 \/ ((exists msg, o = Raise (EmailSendError msg)) /\ deliveries evs = []
                     /\ forall e, In e (acceptances evs) ->
                          exists text,
                            smtp_result e = ExitFailed text
                            /\ o = Raise (EmailSendError ("SMTP error: " ++ text)%string)))).
  { eexists _, []. split; [apply runs_raise|]. split; [reflexivity|].
    split; [cbn; lia|]. right. split; [eauto|]. split; [reflexivity|]. intros e []. }
  destruct recipient as [a | [|r l] | ].
  - destruct (send_email_one os h cfg sender a subject body html attachments name t)
      as (o & evs & Hrun & Hlog & Hc & _).
    exists o, evs. split; [exact Hrun|]. split; [exact Hlog|]. eapply Hcase, Hc.
  - exact Hnone.
  - destruct (send_email_many os h cfg sender r l subject body html attachments name t)
      as (o & evs & Hrun & Hlog & Hc & _).
    exists o, evs. split; [exact Hrun|]. split; [exact Hlog|]. eapply Hcase, Hc.
  - exact Hnone.
Qed.

Section Bulk.

Variables (app : EmailApplication) (smtp_cfg : smtp_config) (email_cfg : email_section)
          (tp subj : string) (atts : option (list string)).

(** A turn of the loop of [send_bulk_emails] counts the recipient once:
    as sent if the use of the server went through, as failed with one
    more error text if not. *)
Lemma send_to_recipient_counts (i : nat) (rd : record) (r : results) (t : trace) :
  exists r' evs,
    runs (send_to_recipient os app smtp_cfg email_cfg tp subj atts i rd r)
         t (Return r') evs
    /\ total r' = total r
    /\ sent r' = sent r + List.length (deliveries evs)
    /\ sent r' + failed r' = sent r + failed r + 1
    /\ List.length (errors r') + failed r = List.length (errors r) + failed r'
    /\ List.length (smtp_calls evs) <= 1
    /\ failed r + List.length (failed_uses evs) <= failed r'
    /\ List.length (smtp_calls evs)
       = List.length (deliveries evs) + List.length (failed_uses evs).
Proof.
  destruct (send_to_recipient_runs os app smtp_cfg email_cfg tp subj atts i rd r t)
    as (r' & evs & Hrun & _ & Hcase & _).
  exists r', evs. split; [exact Hrun|].
  destruct Hcase as [(Hq & text & ->) | (a & _ & msg & _ & Hcall & ->)].
  - rewrite (no_calls_no_deliveries _ Hq), (no_calls_no_failed_uses _ Hq), Hq.
    cbn [total sent failed errors append_error count_failed List.length].
    rewrite length_app. cbn [List.length]. repeat split; lia.
  - rewrite deliveries_of_calls, failed_uses_of_calls, Hcall,
      deliveries_of_one_call, failed_uses_of_one_call.
    destruct (smtp_failure_text _) as [text|];
      cbn [total sent failed errors append_error count_failed count_sent List.length];
      rewrite ?length_app; cbn [List.length]; repeat split; lia.
Qed.

Lemma send_loop_counts (recipients : list record) :
  forall i r t,
  exists r' evs,
    runs (send_loop os app smtp_cfg email_cfg tp subj atts i recipients r)
         t (Return r') evs
    /\ total r' = total r
    /\ sent r' = sent r + List.length (deliveries evs)
    /\ sent r' + failed r' = sent r + failed r + List.length recipients
    /\ List.length (errors r') + failed r = List.length (errors r) + failed r'
    /\ List.length (smtp_calls evs) <= List.length recipients
    /\ failed r + List.length (failed_uses evs) <= failed r'
    /\ List.length (smtp_calls evs)
       = List.length (deliveries evs) + List.length (failed_uses evs).
Proof.
  induction recipients as [|rd recipients IH]; intros i r t.
  - exists r, []. split; [apply runs_ret|].
    cbn [List.length deliveries failed_uses filter smtp_calls].
    repeat split; lia.
  - destruct (send_to_recipient_counts i rd r t)
      as (r1 & e1 & Hrun1 & Ht1 & Hs1 & Hc1 & He1 & Hq1 & Hf1 & Hu1).
    destruct (IH (S i) r1 (t ++ e1))
      as (r2 & e2 & Hrun2 & Ht2 & Hs2 & Hc2 & He2 & Hq2 & Hf2 & Hu2).
    exists r2, (e1 ++ e2). split.
    + cbn [send_loop]. eapply runs_bind_ret; eassumption.
    + rewrite deliveries_app, failed_uses_app, smtp_calls_app, !length_app.
      cbn [List.length]. repeat split; lia.
Qed.

End Bulk.

(** A step that returns without an event is passed over. *)
Lemma bind_returns {A B : Type} (m : M A) (k : A -> M B) (a : A) (t : trace) :
  m t = (Return a, t) -> bind m k t = k a t.
Proof. unfold bind. now intros ->. Qed.

(** [x or d] when [d] raises for want of a key. *)
Lemma or_configured_outcome (x d : option string) (m : M string) (t : trace) :
  (forall w, d = Some w -> m t = (Return w, t)) ->
  (d = None -> exists key, In key bulk_keys /\ m t = (Raise (KeyError key), t)) ->
  match argument_or x d with
  | Some v => or_configured x m t = (Return v, t)
  | None => exists key, In key bulk_keys /\ or_configured x m t = (Raise (KeyError key), t)
  end.
Proof.
  intros Hsome Hnone. unfold argument_or, or_configured.
  assert (Hd : match d with
               | Some v => m t = (Return v, t)
               | None => exists key, In key bulk_keys /\ m t = (Raise (KeyError key), t)
               end) by (destruct d; auto).
  destruct x as [s|]; [destruct (PyStr.truthy s)|]; auto.
Qed.

Lemma files_value_none (cfg : app_config) (field : files_section -> option string)
    (key : string) (t : trace) :
  In key bulk_keys ->
  configured_file cfg field = None ->
  exists key', In key' bulk_keys /\ files_value cfg field key t = (Raise (KeyError key'), t).
Proof.
  intros Hkey. unfold configured_file, files_value, bind.
  destruct (cfg_files cfg) as [files|]; cbn [subscript ret raise].
  - intros ->. exists key. split; [exact Hkey | reflexivity].
  - intros _. exists "files". split; [cbn; auto | reflexivity].
Qed.

Lemma default_subject_none (cfg : app_config) (t : trace) :
  configured_subject cfg = None ->
  exists key, In key bulk_keys
    /\ (email <- subscript (cfg_email cfg) "email" ;;
        subscript (email_default_subject email) "default_subject") t
       = (Raise (KeyError key), t).
Proof.
  unfold configured_subject, bind.
  destruct (cfg_email cfg) as [email|]; cbn [subscript ret raise].
  - intros ->. exists "default_subject". split; [cbn; auto 10 | reflexivity].
  - intros _. exists "email". split; [cbn; auto 10 | reflexivity].
Qed.

Lemma default_subject_some (cfg : app_config) (w : string) (t : trace) :
  configured_subject cfg = Some w ->
  (email <- subscript (cfg_email cfg) "email" ;;
   subscript (email_default_subject email) "default_subject") t
  = (Return w, t).
Proof.
  unfold configured_subject, bind.
  destruct (cfg_email cfg) as [email|]; cbn [subscript ret raise]; [|discriminate].
  now intros ->.
Qed.

(** A configuration that lacks a key which the run reads: the run
    raises before the server is used, [KeyError] for the key, or the
    [CSVError] of the recipients when it comes first. *)
Lemma send_bulk_emails_lacking (app : EmailApplication) (cfg : app_config)
    (csv_file template_file subject : option string)
    (attachments : option (list string)) (t : trace) :
  config app = Assigned cfg ->
  campaign_of app csv_file template_file subject = None ->
  exists e evs,
    runs (send_bulk_emails os app csv_file template_file subject attachments)
         t (Raise e) evs
    /\ smtp_calls evs = []
    /\ ((exists key, In key bulk_keys /\ e = KeyError key)
        \/ exists msg, e = CSVError msg).
Proof.
  intros Hconfig. unfold campaign_of, send_bulk_emails. rewrite Hconfig.
  pose proof (or_configured_outcome csv_file (configured_file cfg files_csv_recipients)
                (files_value cfg files_csv_recipients "csv_recipients") t
                (fun w H => files_value_some cfg _ _ w t H)
                (files_value_none cfg _ "csv_recipients" t ltac:(cbn; auto))) as H1.
  pose proof (or_configured_outcome template_file
                (configured_file cfg files_email_template)
                (files_value cfg files_email_template "email_template") t
                (fun w H => files_value_some cfg _ _ w t H)
                (files_value_none cfg _ "email_template" t ltac:(cbn; auto))) as H2.
  pose proof (or_configured_outcome subject (configured_subject cfg)
                (email <- subscript (cfg_email cfg) "email" ;;
                 subscript (email_default_subject email) "default_subject") t
                (fun w H => default_subject_some cfg w t H)
                (default_subject_none cfg t)) as H3.
  assert (Hkey : forall (m : M results) key,
             In key bulk_keys -> m t = (Raise (KeyError key), t) ->
             exists e evs,
               runs m t (Raise e) evs /\ smtp_calls evs = []
               /\ ((exists key, In key bulk_keys /\ e = KeyError key)
                   \/ exists msg, e = CSVError msg)).
  { intros m key Hin Hm. exists (KeyError key), [].
    split; [unfold runs; now rewrite app_nil_r|]. split; [reflexivity|]. eauto. }
  destruct (argument_or csv_file _) as [csv|].
  2:{ intros _. destruct H1 as (key & Hin & H1). apply (Hkey _ key Hin).
      unfold bind at 1. now rewrite H1. }
  destruct (argument_or template_file _) as [template|].
  2:{ intros _. destruct H2 as (key & Hin & H2). apply (Hkey _ key Hin).
      unfold bind at 1. rewrite H1. unfold bind at 1. now rewrite H2. }
  destruct (argument_or subject _) as [text|].
  2:{ intros _. destruct H3 as (key & Hin & H3). apply (Hkey _ key Hin).
      unfold bind at 1. rewrite H1. unfold bind at 1. rewrite H2.
      unfold bind at 1. now rewrite H3. }
  intros Hsections.
  set (first := Log INFO "Reading recipient data from CSV...").
  destruct (read_recipients_runs os csv) as (o & evsR & HrunR & HlogR & Hexn & _).
  assert (Hquiet : smtp_calls ([first] ++ evsR) = []).
  { rewrite smtp_calls_app, (logs_no_smtp _ HlogR). reflexivity. }
  assert (Hstart : forall o' evs,
             runs (emit first ;;;
                   recipients <- read_recipients os csv ;;
                   let r0 := {| total := List.length recipients; sent := 0; failed := 0;
                                errors := []; success := false |} in
                   smtp_cfg <- subscript (cfg_smtp cfg) "smtp" ;;
                   email_cfg <- subscript (cfg_email cfg) "email" ;;
                   emit (Log INFO ("Starting bulk email send to "
                                   ++ PyStr.str_of_nat (total r0) ++ " recipients")) ;;;
                   r <- send_loop os app smtp_cfg email_cfg template text attachments
                          1 recipients r0 ;;
                   let final := set_success r in
                   emit (Log INFO ("Bulk email completed - Sent: "
                                   ++ PyStr.str_of_nat (sent final)
                                   ++ ", Failed: " ++ PyStr.str_of_nat (failed final))) ;;;
                   ret final) t o' evs ->
             runs (csv_path <- or_configured csv_file
                                 (files_value cfg files_csv_recipients "csv_recipients") ;;
                   template_path <- or_configured template_file
                                      (files_value cfg files_email_template
                                         "email_template") ;;
                   email_subject <- or_configured subject
                                      (email <- subscript (cfg_email cfg) "email" ;;
                                       subscript (email_default_subject email)
                                         "default_subject") ;;
                   emit first ;;;
                   recipients <- read_recipients os csv_path ;;
                   let r0 := {| total := List.length recipients; sent := 0; failed := 0;
                                errors := []; success := false |} in
                   smtp_cfg <- subscript (cfg_smtp cfg) "smtp" ;;
                   email_cfg <- subscript (cfg_email cfg) "email" ;;
                   emit (Log INFO ("Starting bulk email send to "
                                   ++ PyStr.str_of_nat (total r0) ++ " recipients")) ;;;
                   r <- send_loop os app smtp_cfg email_cfg template_path email_subject
                          attachments 1 recipients r0 ;;
                   let final := set_success r in
                   emit (Log INFO ("Bulk email completed - Sent: "
                                   ++ PyStr.str_of_nat (sent final)
                                   ++ ", Failed: " ++ PyStr.str_of_nat (failed final))) ;;;
                   ret final) t o' evs).
  { intros o' evs. unfold runs. intros H.
    rewrite (bind_returns _ _ csv t H1). cbv beta.
    rewrite (bind_returns _ _ template t H2). cbv beta.
    rewrite (bind_returns _ _ text t H3). exact H. }
  destruct o as [l|e].
  - destruct (cfg_smtp cfg) as [smtp_cfg|] eqn:Hsmtp.
    + destruct (cfg_email cfg) as [email_cfg|] eqn:Hemail; [discriminate|].
      exists (KeyError "email"), ([first] ++ evsR ++ []).
      split; [|split; [now rewrite app_nil_r | left; exists "email"; cbn; auto 10]].
      apply Hstart.
      eapply runs_bind_ret; [apply runs_emit|].
      eapply runs_bind_ret; [apply HrunR|].
      cbv zeta. apply runs_bind_pure. eapply runs_bind_raise, runs_raise.
    + exists (KeyError "smtp"), ([first] ++ evsR ++ []).
      split; [|split; [now rewrite app_nil_r | left; exists "smtp"; cbn; auto 10]].
      apply Hstart.
      eapply runs_bind_ret; [apply runs_emit|].
      eapply runs_bind_ret; [apply HrunR|].
      cbv zeta. eapply runs_bind_raise, runs_raise.
  - exists e, ([first] ++ evsR).
    split; [|split; [exact Hquiet | right; now apply Hexn]].
    apply Hstart.
    eapply runs_bind_ret; [apply runs_emit|].
    eapply runs_bind_raise, HrunR.
Qed.

(** The whole of a call of [send_bulk_emails]. *)
Lemma send_bulk_emails_outcome (app : EmailApplication)
    (csv_file template_file subject : option string)
    (attachments : option (list string)) (t : trace) :
  exists o evs,
    runs (send_bulk_emails os app csv_file template_file subject attachments) t o evs
    /\ match config app with
       | Unassigned =>
           o = Raise (AttributeError "'EmailApplication' object has no attribute 'config'")
           /\ evs = []
       | Falsy => o = Raise (EmailAppError "No configuration loaded") /\ evs = []
       | Assigned _ =>
           match campaign_of app csv_file template_file subject with
           | None =>
               smtp_calls evs = []
               /\ exists e, o = Raise e
                            /\ ((exists key, In key bulk_keys /\ e = KeyError key)
                                \/ exists msg, e = CSVError msg)
           | Some c =>
               match fst (read_recipients os (campaign_csv c) []) with
               | Raise e =>
                   o = Raise e /\ smtp_calls evs = [] /\ exists msg, e = CSVError msg
               | Return l =>
                   exists r,
                     o = Return r
                     /\ total r = List.length l
                     /\ sent r + failed r = total r
                     /\ List.length (errors r) = failed r
                     /\ success r = Nat.eqb (failed r) 0
                     /\ sent r = List.length (deliveries evs)
                     /\ List.length (smtp_calls evs) <= total r
                     /\ List.length (failed_uses evs) <= failed r
                     /\ List.length (smtp_calls evs)
                        = sent r + List.length (failed_uses evs)
               end
           end
       end.
Proof.
  destruct (config app) as [| |cfg] eqn:Hconfig.
  - exists (Raise (AttributeError "'EmailApplication' object has no attribute 'config'")),
           [].
    unfold send_bulk_emails. rewrite Hconfig.
    split; [apply runs_raise | split; reflexivity].
  - exists (Raise (EmailAppError "No configuration loaded")), [].
    unfold send_bulk_emails. rewrite Hconfig.
    split; [apply runs_raise | split; reflexivity].
  - destruct (campaign_of app csv_file template_file subject) as [c|] eqn:Hcampaign.
    2:{ destruct (send_bulk_emails_lacking app cfg csv_file template_file subject
                    attachments t Hconfig Hcampaign) as (e & evs & Hrun & Hq & He).
        exists (Raise e), evs. split; [exact Hrun|]. split; [exact Hq|]. eauto. }
    set (first := Log INFO "Reading recipient data from CSV...").
    destruct (read_recipients_runs os (campaign_csv c))
      as (o & evsR & HrunR & HlogR & Hexn & _).
    pose proof (HrunR []) as H0. unfold runs in H0. rewrite H0. cbn [fst].
    unfold runs. setoid_rewrite (send_bulk_emails_campaign os _ _ _ _ _ _ _ Hcampaign).
    destruct o as [l|e].
    + set (r0 := {| total := List.length l; sent := 0; failed := 0;
                    errors := []; success := false |}).
      set (second := Log INFO ("Starting bulk email send to "
                               ++ PyStr.str_of_nat (total r0) ++ " recipients")%string).
      destruct (send_loop_counts app (campaign_smtp c) (campaign_email c)
                  (campaign_template c) (campaign_subject c) attachments l 1 r0
                  (((t ++ [first]) ++ evsR) ++ [second]))
        as (r & evsL & HrunL & Ht & Hs & Hc & He & Hq & Hf & Hu).
      set (last := Log INFO ("Bulk email completed - Sent: "
                             ++ PyStr.str_of_nat (sent (set_success r)) ++ ", Failed: "
                             ++ PyStr.str_of_nat (failed (set_success r)))%string).
      exists (Return (set_success r)),
             ([first] ++ evsR ++ [second] ++ evsL ++ [last] ++ []).
      split.
      * eapply runs_bind_ret; [apply runs_emit|].
        eapply runs_bind_ret; [apply HrunR|].
        eapply runs_bind_ret; [apply runs_emit|].
        eapply runs_bind_ret; [exact HrunL|].
        eapply runs_bind_ret; [apply runs_emit | apply runs_ret].
      * exists (set_success r). split; [reflexivity|].
        rewrite !deliveries_app, !failed_uses_app, !smtp_calls_app, !length_app.
        rewrite (no_calls_no_deliveries evsR (logs_no_smtp _ HlogR)),
          (no_calls_no_failed_uses evsR (logs_no_smtp _ HlogR)),
          (logs_no_smtp _ HlogR).
        cbn [total sent failed errors success set_success deliveries failed_uses
             smtp_calls filter is_delivery is_failed_use is_smtp first second last
             List.length List.app].
        cbn [total sent failed errors r0 List.length] in Ht, Hs, Hc, He, Hf.
        repeat split; lia.
    + exists (Raise e), ([first] ++ evsR). split.
      * eapply runs_bind_ret; [apply runs_emit|].
        eapply runs_bind_raise. apply HrunR.
      * split; [reflexivity|]. split; [|now apply Hexn].
        rewrite smtp_calls_app, (logs_no_smtp _ HlogR). reflexivity.
Qed.

End Counts.

End CountFacts.

Section BulkOutcome.

Local Open Scope list_scope.

Variable os : Env.

(** send_email never returns False: it returns True after exactly one use
    of the server that went through (the message handed over and the
    connection closed), or raises EmailSendError; in either case it logs
    and uses the server once at most.  It raises also when the server has
    the message and the connection then fails to close: the error is the
    one of the closing.  Without a recipient it raises at once, before
    anything is logged. *)
Theorem send_email_true_or_EmailSendError
    (h : AttachmentHandler) (cfg : smtp_config) (sender : string)
    (recipient : recipient_arg) (subject body : string) (html : option string)
    (attachments : option (list string)) (name : option string) (t : trace) :
  exists o evs,
    runs (send_email os h cfg sender recipient subject body html attachments name) t o evs
    /\ forallb is_log_or_smtp evs = true
    /\ List.length (smtp_calls evs) <= 1
    /\ ((o = Return true /\ List.length (deliveries evs) = 1
         /\ acceptances evs = deliveries evs)
        \/ ((exists msg, o = Raise (EmailSendError msg)) /\ deliveries evs = []
            /\ forall e, In e (acceptances evs) ->
                 exists text, smtp_result e = ExitFailed text
                              /\ o = Raise (EmailSendError ("SMTP error: " ++ text)%string)))
    /\ match recipient with
       | NoRecipient | ManyRecipients [] =>
           o = Raise (EmailSendError "No recipients specified") /\ evs = []
       | _ => True
       end.
Proof.
  destruct (CountFacts.send_email_outcome os h cfg sender recipient subject body html
              attachments name t) as (o & evs & Hrun & Hlog & Hcalls & Hcase).
  exists o, evs. repeat (split; [assumption|]).
  assert (Hnone : forall m : M bool,
             m = raise (EmailSendError "No recipients specified") ->
             runs m t o evs ->
             o = Raise (EmailSendError "No recipients specified") /\ evs = []).
  { intros m -> Hm.
    destruct (Run.runs_unique _ _ _ _ _ _ Hm (Run.runs_raise _ t)) as [-> ->].
    split; reflexivity. }
  destruct recipient as [a | [|r l] | ]; [exact I | | exact I | ].
  - now apply (Hnone _ eq_refl).
  - now apply (Hnone _ eq_refl).
Qed.

(** send_bulk_emails raises only before the first message, and the
    server has not been used then: AttributeError when the attribute
    config was never assigned, EmailAppError when the configuration is
    empty, KeyError when the configuration lacks a key that the run
    reads, the CSVError of read_recipients when the recipients do not
    load.  With a configuration that has the keys and a file that loads
    it returns the results, whatever happens to the recipients. *)
Theorem bulk_run_raises_only_before_sending
    (app : EmailApplication) (csv_file template_file subject : option string)
    (attachments : option (list string)) (t : trace) :
  exists o evs,
    runs (send_bulk_emails os app csv_file template_file subject attachments) t o evs
    /\ match config app with
       | Unassigned =>
           o = Raise (AttributeError "'EmailApplication' object has no attribute 'config'")
           /\ evs = []
       | Falsy => o = Raise (EmailAppError "No configuration loaded") /\ evs = []
       | Assigned _ =>
           match campaign_of app csv_file template_file subject with
           | None =>
               smtp_calls evs = []
               /\ exists e, o = Raise e
                            /\ ((exists key, In key bulk_keys /\ e = KeyError key)
                                \/ exists msg, e = CSVError msg)
           | Some c =>
               match fst (read_recipients os (campaign_csv c) []) with
               | Raise e =>
                   o = Raise e /\ smtp_calls evs = [] /\ exists msg, e = CSVError msg
               | Return l => exists r, o = Return r /\ total r = List.length l
               end
           end
       end.
Proof.
  destruct (CountFacts.send_bulk_emails_outcome os app csv_file template_file subject
              attachments t) as (o & evs & Hrun & H).
  exists o, evs. split; [exact Hrun|].
  destruct (config app) as [| |cfg]; [exact H | exact H |].
  destruct (campaign_of app csv_file template_file subject) as [c|]; [|exact H].
  destruct (fst _) as [l|e]; [|exact H].
  destruct H as (r & Ho & Ht & _). eauto.
Qed.

(** The results send_bulk_emails returns add up: every recipient is
    counted once, as sent or as failed; there is one error text for each
    failure; success says that nothing failed; sent is the number of
    uses of the server that went through, and every use that did not,
    the ones whose connection failed to close after the server had the
    message among them, is among the failed. *)
Theorem bulk_results_add_up
    (app : EmailApplication) (csv_file template_file subject : option string)
    (attachments : option (list string)) (t : trace) :
  exists o evs,
    runs (send_bulk_emails os app csv_file template_file subject attachments) t o evs
    /\ match o with
       | Raise _ => smtp_calls evs = []
       | Return r =>
           sent r + failed r = total r
           /\ List.length (errors r) = failed r
           /\ success r = Nat.eqb (failed r) 0
           /\ sent r = List.length (deliveries evs)
           /\ List.length (smtp_calls evs) <= total r
           /\ List.length (failed_uses evs) <= failed r
           /\ List.length (smtp_calls evs) = sent r + List.length (failed_uses evs)
       end.
Proof.
  destruct (CountFacts.send_bulk_emails_outcome os app csv_file template_file subject
              attachments t) as (o & evs & Hrun & H).
  exists o, evs. split; [exact Hrun|].
  destruct (config app) as [| |cfg].
  - destruct H as [-> ->]. reflexivity.
  - destruct H as [-> ->]. reflexivity.
  - destruct (campaign_of app csv_file template_file subject) as [c|].
    + destruct (fst _) as [l|e].
      * destruct H as (r & -> & _ & H). exact H.
      * destruct H as (-> & Hq & _). exact Hq.
    + destruct H as (Hq & e & -> & _). exact Hq.
Qed.

End BulkOutcome.

(** The application as [__init__] leaves it raises at the first test of
    [send_bulk_emails] and of [send_test_email]. *)
Example fresh_application_has_no_config :
  send_bulk_emails Demo.world Demo.fresh_application None None None None []
  = (Raise (AttributeError "'EmailApplication' object has no attribute 'config'"), [])
  /\ send_test_email Demo.world Demo.fresh_application "2024-01-01 12:00:00" None []
     = (Raise (AttributeError "'EmailApplication' object has no attribute 'config'"), []).
Proof. split; reflexivity. Qed.

(** The dictionary that the main window assigns has no default subject:
    a run without a subject raises [KeyError]. *)
Example window_configuration_lacks_the_subject :
  fst (send_bulk_emails Demo.world
         {| config := Assigned
              {| cfg_smtp := Some Demo.server;
                 cfg_files := Some {| files_csv_recipients := Some "recipients.csv";
                                      files_email_template := None |};
                 cfg_email := Some {| email_default_subject := None;
                                      email_sender_name := None;
                                      email_test_email := Some (Some "me@example.org") |} |};
            template_renderer := None;
            attachment_handler := {| max_size_mb := 25 |} |}
         None (Some "template.txt") None None [])
  = Raise (KeyError "default_subject").
Proof. reflexivity. Qed.

(** Bytes that do not decode: the error of the first read comes before
    anything is logged, a later one after the columns are logged. *)
Example decode_error_early_and_late :
  read_recipients Demo.world_with_bad_bytes "early.csv" []
  = (Raise (CSVError "CSV file encoding error. Please ensure UTF-8 encoding."), [])
  /\ read_recipients Demo.world_with_bad_bytes "late.csv" []
     = (Raise (CSVError "CSV file encoding error. Please ensure UTF-8 encoding."),
        [Log INFO "CSV columns found: name, email"]).
Proof. split; reflexivity. Qed.

(** A server that takes the message and fails to close the connection:
    [send_email] logs the success, then the failure, and raises; the
    bulk run counts the recipient as failed. *)
Example send_email_after_exit_failure :
  send_email Demo.world_closing_badly {| max_size_mb := 25 |} Demo.server
    "team@example.org" (OneRecipient "ann@example.org") "Hi" "Hello" None None None []
  = (Raise (EmailSendError "SMTP error: (421, b'closing')"),
     [Log INFO "Sending email to: ann@example.org";
      LogSmtpConnection "smtp.example.org" 587 "team@example.org";
      Smtp Demo.server
        {| msg_from := "team@example.org"; msg_to := "ann@example.org";
           msg_subject := "Hi"; msg_parts := [text_part "plain" "Hello"] |}
        (ExitFailed "(421, b'closing')");
      LogEmailSuccess "ann@example.org" "Hi" 0;
      LogEmailFailure "ann@example.org" "(421, b'closing')" "Hi"]).
Proof. reflexivity. Qed.

Section BulkDelivered.

Import Run.
Local Open Scope list_scope.

Variable os : Env.

(** When the application has its renderer, template and subject render
    for every recipient, every record has an address, the attachments are
    fine and every use of the server goes through, send_bulk_emails
    returns total = sent = the number of recipients, failed = 0, no error
    and success = True, after one use of the server for each recipient,
    in the order of the file. *)
Theorem bulk_run_all_delivered
    (app : EmailApplication)
    (csv_file template_file subject : option string)
    (attachments : option (list string)) (c : campaign)
    (recipients : list record) (t : trace) :
  campaign_of app csv_file template_file subject = Some c ->
  template_renderer app <> None ->
  loads os (campaign_csv c) recipients ->
  Forall (ready os (campaign_template c) (campaign_subject c)) recipients ->
  attachments_ok os (attachment_handler app) attachments = true ->
  (forall n msg, smtp os n (campaign_smtp c) msg = Delivered) ->
  exists evs,
    runs (send_bulk_emails os app csv_file template_file subject attachments) t
         (Return {| total := List.length recipients; sent := List.length recipients;
                    failed := 0; errors := []; success := true |}) evs
    /\ map smtp_recipient (smtp_calls evs) = map address recipients.
Proof.
  intros Hcampaign Hrenderer Hloads Hready Hok Hserver.
  destruct (send_bulk_emails_runs os app csv_file template_file subject
              attachments c recipients Hcampaign Hloads) as (before & Hlog0 & Hrun).
  destruct (send_loop_delivered os app (campaign_smtp c) (campaign_email c) _ _
              attachments recipients Hrenderer Hready Hok 1
              {| total := List.length recipients; sent := 0; failed := 0;
                 errors := []; success := false |} (t ++ before))
    as (r & evs & Hloop & Hcalls & ->).
  { intros n msg _. now rewrite Hserver. }
  destruct (Hrun t _ evs Hloop) as (after & Hlog1 & Hwhole).
  exists (before ++ evs ++ after). split.
  - exact Hwhole.
  - rewrite !smtp_calls_app, (logs_no_smtp _ Hlog0), (logs_no_smtp _ Hlog1), app_nil_r.
    exact Hcalls.
Qed.

End BulkDelivered.

(** Every record of the small world is ready for its template. *)
Lemma five_recipients_ready :
  Forall (ready Office.world "template.txt" "News for {{name}}") Demo.five_recipients.
Proof.
  unfold Demo.five_recipients.
  repeat (apply Forall_cons;
          [split; [exists "Hello {{name}}"; split; [reflexivity | exact I]
                  | reflexivity]|]).
  apply Forall_nil.
Qed.

(** At an instance: the five recipients of [recipients.csv] and a server
    that takes every message. *)
Lemma bulk_run_all_delivered_witness :
  exists evs,
    runs (send_bulk_emails Office.world Demo.application None None None None) []
         (Return {| total := 5; sent := 5; failed := 0; errors := []; success := true |})
         evs
    /\ map smtp_recipient (smtp_calls evs)
       = ["ann@example.org"; "bob@example.org"; "cy@example.org";
          "di@example.org"; "ed@example.org"].
Proof.
  apply (bulk_run_all_delivered Office.world Demo.application
           None None None None Demo.news Demo.five_recipients []).
  - reflexivity.
  - discriminate.
  - reflexivity.
  - exact five_recipients_ready.
  - reflexivity.
  - intros n msg. reflexivity.
Defined.

(* ===================================================================== *)
(** ** The errors of a bulk run *)
(* ===================================================================== *)

Module ErrorFacts.

Import Run.
Local Open Scope list_scope.

Section Errors.

Variables (os : Env) (app : EmailApplication) (smtp_cfg : smtp_config)
          (email_cfg : email_section) (tp subj : string) (atts : option (list string)).

(** A turn ends with the message sent, or with a failure whose text
    names the recipient by its address. *)
Lemma send_to_recipient_outcome (i : nat) (rd : record) (r : results) (t : trace) :
  exists r' evs outcome,
    runs (send_to_recipient os app smtp_cfg email_cfg tp subj atts i rd r) t (Return r') evs
    /\ r' = match outcome with
            | None => count_sent r
            | Some text =>
                append_error (count_failed r)
                  ("Error sending to " ++ address rd ++ ": " ++ text)%string
            end.
Proof.
  destruct (send_to_recipient_runs os app smtp_cfg email_cfg tp subj atts i rd r t)
    as (r' & evs & Hrun & _ & Hcase & _).
  destruct Hcase as [(_ & text & ->) | (a & Hget & msg & _ & _ & ->)].
  - exists (append_error (count_failed r)
              ("Error sending to " ++ address rd ++ ": " ++ text)%string),
           evs, (Some text).
    split; [exact Hrun | reflexivity].
  - assert (Ha : address rd = a)
      by (unfold address; now rewrite (get_or_some _ _ _ Hget)).
    destruct (smtp_failure_text _) as [text|].
    + eexists _, evs, (Some ("SMTP error: " ++ text)%string).
      split; [exact Hrun | now rewrite Ha].
    + eexists _, evs, None. split; [exact Hrun | reflexivity].
Qed.

Lemma send_loop_outcomes (recipients : list record) :
  forall i r t,
  exists r' evs outcomes,
    runs (send_loop os app smtp_cfg email_cfg tp subj atts i recipients r) t (Return r') evs
    /\ List.length outcomes = List.length recipients
    /\ total r' = total r
    /\ sent r' = sent r + sent_turns outcomes
    /\ errors r' = errors r ++ error_texts (combine recipients outcomes).
Proof.
  induction recipients as [|rd recipients IH]; intros i r t.
  - exists r, [], []. split; [apply runs_ret|]. cbn. rewrite app_nil_r.
    repeat split; lia.
  - destruct (send_to_recipient_outcome i rd r t) as (r1 & e1 & o1 & Hrun1 & Hr1).
    destruct (IH (S i) r1 (t ++ e1)) as (r2 & e2 & os2 & Hrun2 & Hlen & Ht & Hs & He).
    exists r2, (e1 ++ e2), (o1 :: os2). split; [|split; [|split; [|split]]].
    + cbn [send_loop]. eapply runs_bind_ret; eassumption.
    + cbn [List.length]. now rewrite Hlen.
    + rewrite Ht, Hr1. now destruct o1.
    + rewrite Hs, Hr1. unfold sent_turns.
      destruct o1; cbn [filter List.length sent count_sent count_failed append_error]; lia.
    + rewrite He, Hr1. unfold error_texts. cbn [combine flat_map fst snd].
      destruct o1; cbn [errors count_sent count_failed append_error List.app].
      * now rewrite <- app_assoc.
      * reflexivity.
Qed.

End Errors.

End ErrorFacts.

Section BulkErrors.

Import Run.
Local Open Scope list_scope.

Variable os : Env.

(** The errors of the results of send_bulk_emails are those of the
    recipients that failed, in the order of the file, each text naming
    its recipient by the address ("unknown" without one); the others are
    the recipients counted as sent. *)
Theorem bulk_errors_name_the_recipients
    (app : EmailApplication)
    (csv_file template_file subject : option string)
    (attachments : option (list string)) (c : campaign)
    (recipients : list record) (t : trace) :
  campaign_of app csv_file template_file subject = Some c ->
  loads os (campaign_csv c) recipients ->
  exists r evs outcomes,
    runs (send_bulk_emails os app csv_file template_file subject attachments)
         t (Return r) evs
    /\ List.length outcomes = List.length recipients
    /\ errors r = error_texts (combine recipients outcomes)
    /\ sent r = sent_turns outcomes
    /\ total r = List.length recipients.
Proof.
  intros Hcampaign Hloads.
  destruct (send_bulk_emails_runs os app csv_file template_file subject
              attachments c recipients Hcampaign Hloads) as (before & _ & Hrun).
  destruct (ErrorFacts.send_loop_outcomes os app (campaign_smtp c) (campaign_email c)
              (campaign_template c) (campaign_subject c)
              attachments recipients 1
              {| total := List.length recipients; sent := 0; failed := 0;
                 errors := []; success := false |} (t ++ before))
    as (r & evs & outcomes & Hloop & Hlen & Ht & Hs & He).
  destruct (Hrun t r evs Hloop) as (after & _ & Hwhole).
  exists (set_success r), (before ++ evs ++ after), outcomes.
  split; [exact Hwhole|]. split; [exact Hlen|].
  cbn [errors sent total set_success] in *. now rewrite He, Hs, Ht.
Qed.

End BulkErrors.

(** At an instance: five recipients, the server refuses the third
    message. *)
Lemma bulk_errors_name_the_recipients_witness :
  exists r evs outcomes,
    runs (send_bulk_emails Demo.world Demo.application None None None None)
         [] (Return r) evs
    /\ List.length outcomes = 5
    /\ errors r = error_texts (combine Demo.five_recipients outcomes)
    /\ sent r = sent_turns outcomes
    /\ total r = 5.
Proof.
  apply (bulk_errors_name_the_recipients Demo.world Demo.application
           None None None None Demo.news Demo.five_recipients []); reflexivity.
Defined.

(* ===================================================================== *)
(** ** A run without renderer *)
(* ===================================================================== *)

Section WithoutRenderer.

Import Run.
Local Open Scope list_scope.

Variable os : Env.

Lemma send_loop_no_renderer (app : EmailApplication) (smtp_cfg : smtp_config)
    (email_cfg : email_section) (tp subj : string) (atts : option (list string))
    (recipients : list record) :
  template_renderer app = None ->
  forall i r t,
  exists evs,
    runs (send_loop os app smtp_cfg email_cfg tp subj atts i recipients r) t
         (Return {| total := total r; sent := sent r;
                    failed := failed r + List.length recipients;
                    errors := errors r ++ map no_renderer_error recipients;
                    success := success r |}) evs
    /\ smtp_calls evs = [].
Proof.
  intros Hnone.
  induction recipients as [|rd recipients IH]; intros i r t.
  - exists []. split; [|reflexivity].
    cbn [List.length map]. rewrite Nat.add_0_r, app_nil_r.
    destruct r. apply runs_ret.
  - destruct (IH (S i) (append_error (count_failed r) (no_renderer_error rd))
                ((t ++ []) ++ [Log ERROR (no_renderer_error rd)] ++ []))
      as (evs & Hrun & Hq).
    exists (([] ++ [Log ERROR (no_renderer_error rd)] ++ []) ++ evs). split.
    + cbn [send_loop]. eapply runs_bind_ret.
      * unfold send_to_recipient, try_send. rewrite Hnone.
        eapply runs_try_raise; [apply runs_raise | apply record_failure_runs].
      * cbn [total sent failed errors success append_error count_failed
             List.length map List.app] in Hrun |- *.
        rewrite <- !app_assoc in Hrun. cbn [List.app] in Hrun.
        replace (failed r + S (List.length recipients))
          with (failed r + 1 + List.length recipients) by lia.
        exact Hrun.
    + rewrite smtp_calls_app, Hq. reflexivity.
Qed.

(** While the application has no renderer (it has none until load_config
    assigns one), send_bulk_emails fails every recipient at the call of
    the renderer: the run returns total = failed = the number of
    recipients, sent = 0, success = False and one error for each
    recipient, in the order of the file, which names the recipient and
    the missing attribute; the server is never used. *)
Theorem bulk_run_without_renderer_fails_everyone
    (app : EmailApplication)
    (csv_file template_file subject : option string)
    (attachments : option (list string)) (c : campaign)
    (recipients : list record) (t : trace) :
  campaign_of app csv_file template_file subject = Some c ->
  template_renderer app = None ->
  loads os (campaign_csv c) recipients ->
  exists evs,
    runs (send_bulk_emails os app csv_file template_file subject attachments) t
         (Return {| total := List.length recipients; sent := 0;
                    failed := List.length recipients;
                    errors := map no_renderer_error recipients;
                    success := false |}) evs
    /\ smtp_calls evs = [].
Proof.
  intros Hcampaign Hnone Hloads.
  destruct (send_bulk_emails_runs os app csv_file template_file subject
              attachments c recipients Hcampaign Hloads) as (before & Hlog0 & Hrun).
  destruct (send_loop_no_renderer app (campaign_smtp c) (campaign_email c)
              (campaign_template c) (campaign_subject c) attachments recipients Hnone 1
              {| total := List.length recipients; sent := 0; failed := 0;
                 errors := []; success := false |} (t ++ before))
    as (evs & Hloop & Hq).
  destruct (Hrun t _ evs Hloop) as (after & Hlog1 & Hwhole).
  exists (before ++ evs ++ after). split.
  - destruct (loads_runs os _ _ Hloads) as (_ & _ & _ & Hne).
    destruct recipients as [|rd l]; [congruence|]. exact Hwhole.
  - rewrite !smtp_calls_app, Hq, (logs_no_smtp _ Hlog0), (logs_no_smtp _ Hlog1).
    reflexivity.
Qed.

End WithoutRenderer.

(** At an instance: the five recipients of [recipients.csv] and the
    application whose renderer was not assigned. *)
Lemma bulk_run_without_renderer_fails_everyone_witness :
  exists evs,
    runs (send_bulk_emails Demo.world Demo.application_without_renderer
            None None None None) []
         (Return {| total := 5; sent := 0; failed := 5;
                    errors := map no_renderer_error Demo.five_recipients;
                    success := false |}) evs
    /\ smtp_calls evs = [].
Proof.
  apply (bulk_run_without_renderer_fails_everyone Demo.world
           Demo.application_without_renderer None None None None Demo.news
           Demo.five_recipients []); reflexivity.
Defined.

(* ===================================================================== *)
(** ** The message handed to the server *)
(* ===================================================================== *)

Module MessageFacts.

Import Run.
Local Open Scope list_scope.

Lemma map_Some_inj {A : Type} (l1 l2 : list A) : map Some l1 = map Some l2 -> l1 = l2.
Proof.
  revert l2. induction l1 as [|x l1 IH]; intros [|y l2] H; try discriminate.
  - reflexivity.
  - cbn [map] in H. injection H as -> H. f_equal. now apply IH.
Qed.

Section Message.

Variable os : Env.

(** The loop that attaches the files appends the part of each path, in
    the order of the paths. *)
Lemma attach_loop_parts (h : AttachmentHandler) (paths : list string) :
  forall attached : list mime_part,
  exists o evs,
    (forall t, runs (for_each paths (attach_file os h) attached) t o evs)
    /\ forallb is_log evs = true
    /\ (forall parts, o = Return parts ->
        exists new, parts = attached ++ new
                    /\ map Some new = map (attachment_of os h) paths).
Proof.
  induction paths as [|path paths IH]; intros attached.
  - exists (Return attached), []. split; [intros t; apply runs_ret|].
    split; [reflexivity|]. intros parts [= <-]. exists [].
    split; [now rewrite app_nil_r | reflexivity].
  - destruct (create_attachment_runs os h path) as ([part|e] & evs1 & Hrun1 & Hlog1).
    + destruct (IH (attached ++ [part])) as (o & evs & Hrun & Hlog & Hparts).
      exists o, ((evs1 ++ []) ++ evs). split; [|split].
      * intros t. cbn [for_each]. eapply runs_bind_ret; [|apply Hrun].
        unfold attach_file. apply runs_try_ret.
        eapply runs_bind_ret; [apply Hrun1 | apply runs_ret].
      * rewrite !forallb_app, Hlog1, Hlog. reflexivity.
      * intros parts Ho. destruct (Hparts parts Ho) as (new & -> & Hnew).
        exists (part :: new). split; [now rewrite <- app_assoc|].
        cbn [map]. rewrite Hnew. f_equal.
        unfold attachment_of. pose proof (Hrun1 []) as H0. unfold runs in H0.
        now rewrite H0.
    + destruct (attach_file_runs os h path attached)
        as (o1 & evs & Hrun & Hlog & _).
      assert (Ho1 : exists e', o1 = Raise e').
      { pose proof (Hrun []) as Ha. unfold runs, attach_file, try_except, bind in Ha.
        pose proof (Hrun1 []) as Hb. unfold runs in Hb. rewrite Hb in Ha.
        unfold emit, raise in Ha. inversion Ha. eauto. }
      destruct Ho1 as (e' & ->).
      exists (Raise e'), evs. split; [|split].
      * intros t. cbn [for_each]. eapply runs_bind_raise. apply Hrun.
      * exact Hlog.
      * discriminate.
Qed.

(** [send_email] with recipients and attachments that are fine: the
    message, the one use of the server and the outcome. *)
Lemma send_email_hands_over
    (h : AttachmentHandler) (cfg : smtp_config) (sender : string)
    (r : string) (l : list string) (subject body : string) (html : option string)
    (attachments : option (list string)) (name : option string) (t : trace) :
  attachments_ok os h attachments = true ->
  exists o evs attached,
    runs (send_email os h cfg sender (ManyRecipients (r :: l)) subject body html
            attachments name) t o evs
    /\ map Some attached = map (attachment_of os h) (attachment_paths attachments)
    /\ let msg := {| msg_from := from_header sender name;
                     msg_to := PyStr.join ", " (r :: l);
                     msg_subject := subject;
                     msg_parts := body_parts body html ++ attached |} in
       smtp_calls evs = [Smtp cfg msg (smtp os (List.length (smtp_calls t)) cfg msg)]
       /\ o = match smtp_failure_text (smtp os (List.length (smtp_calls t)) cfg msg) with
              | None => Return true
              | Some text => Raise (EmailSendError ("SMTP error: " ++ text)%string)
              end.
Proof.
  intros Hok.
  assert (HA : exists attached evsA,
             (forall t', runs (match attachments with
                               | Some paths => attach_files os h paths
                               | None => ret []
                               end) t' (Return attached) evsA)
             /\ forallb is_log evsA = true
             /\ map Some attached = map (attachment_of os h) (attachment_paths attachments)).
  { destruct attachments as [paths|].
    - destruct (attach_loop_parts h paths [])
        as (o & evsA & Hrun & Hlog & Hparts).
      destruct (attach_loop_runs os h paths []) as (o' & evs' & Hrun' & _ & _ & _ & Hret).
      destruct (Hret Hok) as (parts & ->).
      destruct (runs_unique _ _ _ _ _ _ (Hrun []) (Hrun' [])) as [-> _].
      destruct (Hparts parts eq_refl) as (new & -> & Hnew).
      exists new, evsA. split; [exact Hrun|]. split; [exact Hlog | exact Hnew].
    - exists [], []. split; [intros t'; apply runs_ret|]. split; reflexivity. }
  destruct HA as (attached & evsA & HrunA & HlogA & Hparts).
  pose proof (logs_no_smtp _ HlogA) as HquietA.
  cbv beta iota delta [send_email]. fold (from_header sender name).
  fold (body_parts body html).
  set (e1 := Log INFO ("Sending email to: " ++ PyStr.join ", " (r :: l))%string).
  set (e2 := LogSmtpConnection (smtp_server cfg) (smtp_port cfg) (smtp_username cfg)).
  set (msg := {| msg_from := from_header sender name; msg_to := PyStr.join ", " (r :: l);
                 msg_subject := subject; msg_parts := body_parts body html ++ attached |}).
  set (so_far := ((t ++ [e1]) ++ [e2]) ++ evsA).
  assert (Hcount : List.length (smtp_calls so_far) = List.length (smtp_calls t)).
  { unfold so_far. rewrite !smtp_calls_app, HquietA. cbn. now rewrite !app_nil_r. }
  set (res := smtp os (List.length (smtp_calls so_far)) cfg msg).
  assert (Hcalls : forall tail,
             forallb is_log tail = true ->
             smtp_calls ([e1] ++ [e2] ++ evsA ++ [] ++ [Smtp cfg msg res] ++ tail)
             = [Smtp cfg msg (smtp os (List.length (smtp_calls t)) cfg msg)]).
  { intros tail Htail. rewrite <- Hcount. fold res.
    rewrite !smtp_calls_app, HquietA, (logs_no_smtp _ Htail). reflexivity. }
  assert (HS : exists evsS,
             (forall t', runs (if message_accepted res
                               then log_each (fun x => LogEmailSuccess x subject
                                                         (List.length attached)) (r :: l)
                               else ret tt) t' (Return tt) evsS)
             /\ forallb is_log evsS = true).
  { destruct (message_accepted res).
    - apply log_each_runs. reflexivity.
    - exists []. split; [intros t'; apply runs_ret | reflexivity]. }
  destruct HS as (evsS & HrunS & HlogS).
  destruct (smtp_failure_text res) as [text|] eqn:Hres.
  - destruct (log_each_runs (fun x => LogEmailFailure x text subject) (r :: l))
      as (evsL & HrunL & HlogL); [reflexivity|].
    assert (Htail : forallb is_log (evsS ++ evsL ++ []) = true).
    { rewrite !forallb_app, HlogS, HlogL. reflexivity. }
    exists (Raise (EmailSendError ("SMTP error: " ++ text)%string)),
           ([e1] ++ [e2] ++ evsA ++ [] ++ [Smtp cfg msg res] ++ evsS ++ evsL ++ []),
           attached.
    split; [|split; [exact Hparts | split; [now apply Hcalls|]]].
    + eapply runs_bind_ret; [apply runs_emit|].
      eapply runs_bind_ret; [apply runs_emit|].
      eapply runs_bind_ret; [apply HrunA|].
      eapply runs_bind_ret; [apply runs_history|].
      eapply runs_bind_ret; [apply runs_emit|].
      fold so_far. fold msg. fold res.
      eapply runs_bind_ret; [apply HrunS|].
      rewrite Hres.
      eapply runs_bind_ret; [apply HrunL | apply runs_raise].
    + fold msg. rewrite <- Hcount. fold res. now rewrite Hres.
  - assert (Htail : forallb is_log (evsS ++ []) = true).
    { rewrite !forallb_app, HlogS. reflexivity. }
    exists (Return true),
           ([e1] ++ [e2] ++ evsA ++ [] ++ [Smtp cfg msg res] ++ evsS ++ []), attached.
    split; [|split; [exact Hparts | split; [now apply Hcalls|]]].
    + eapply runs_bind_ret; [apply runs_emit|].
      eapply runs_bind_ret; [apply runs_emit|].
      eapply runs_bind_ret; [apply HrunA|].
      eapply runs_bind_ret; [apply runs_history|].
      eapply runs_bind_ret; [apply runs_emit|].
      fold so_far. fold msg. fold res.
      eapply runs_bind_ret; [apply HrunS|].
      rewrite Hres. apply runs_ret.
    + fold msg. rewrite <- Hcount. fold res. now rewrite Hres.
Qed.

End Message.

End MessageFacts.

Section Message.

Local Open Scope list_scope.

Variable os : Env.

(** With recipients and attachments that are fine, send_email uses the
    server once, for a message that has the name and the address of the
    sender in From, the recipients joined by a comma and a space in To,
    the subject, and as its parts the plain body, the HTML body when one
    is given, then the part of every attachment in the order of the
    paths. *)
Theorem send_email_hands_over_the_message
    (h : AttachmentHandler) (cfg : smtp_config) (sender : string)
    (r : string) (l : list string) (subject body : string) (html : option string)
    (attachments : option (list string)) (name : option string) (t : trace) :
  attachments_ok os h attachments = true ->
  exists o evs attached,
    runs (send_email os h cfg sender (ManyRecipients (r :: l)) subject body html
            attachments name) t o evs
    /\ map Some attached = map (attachment_of os h) (attachment_paths attachments)
    /\ let msg := {| msg_from := from_header sender name;
                     msg_to := PyStr.join ", " (r :: l);
                     msg_subject := subject;
                     msg_parts := body_parts body html ++ attached |} in
       smtp_calls evs = [Smtp cfg msg (smtp os (List.length (smtp_calls t)) cfg msg)].
Proof.
  intros Hok.
  destruct (MessageFacts.send_email_hands_over os h cfg sender r l subject body html
              attachments name t Hok)
    as (o & evs & attached & Hrun & Hparts & Hcall & _).
  exists o, evs, attached. split; [exact Hrun|]. split; [exact Hparts | exact Hcall].
Qed.

End Message.

(** At an instance: two recipients, an HTML body and the template file
    as attachment. *)
Lemma send_email_hands_over_the_message_witness :
  exists o evs attached,
    runs (send_email Office.world {| max_size_mb := 25 |} Demo.server
            "team@example.org" (ManyRecipients ["ann@example.org"; "bob@example.org"])
            "News" "Hello" (Some "<p>Hello</p>") (Some ["template.txt"])
            (Some "Newsletter Team")) [] o evs
    /\ map Some attached
       = [Some {| part_class := MIMEApplication; part_subtype := "octet-stream";
                  part_payload := "Hello {{name}}";
                  part_disposition :=
                    Some ("attachment; filename="
                          ++ String PyStr.double_quote
                               ("template.txt" ++ String PyStr.double_quote EmptyString)) |}]
    /\ let msg := {| msg_from := "Newsletter Team <team@example.org>";
                     msg_to := "ann@example.org, bob@example.org";
                     msg_subject := "News";
                     msg_parts := ([text_part "plain" "Hello";
                                    text_part "html" "<p>Hello</p>"] ++ attached)%list |} in
       smtp_calls evs = [Smtp Demo.server msg Delivered].
Proof.
  apply (send_email_hands_over_the_message Office.world {| max_size_mb := 25 |}
           Demo.server "team@example.org" "ann@example.org" ["bob@example.org"]
           "News" "Hello" (Some "<p>Hello</p>") (Some ["template.txt"])
           (Some "Newsletter Team") []).
  reflexivity.
Defined.


(* ===================================================================== *)
(** ** The messages of a bulk run *)
(* ===================================================================== *)

Module BulkMessages.

Import Run.
Local Open Scope list_scope.

Section Turn.

Variables (os : Env) (app : EmailApplication) (smtp_cfg : smtp_config)
          (email_cfg : email_section) (tp subj : string) (atts : option (list string)).

(** The turn for a record that is ready, when the application has its
    renderer and the attachments are fine: the message handed to the
    server. *)
Lemma send_to_recipient_message (content : string) (i : nat) (rd : record)
    (r : results) (t : trace) :
  template_renderer app <> None ->
  fst (read_text os tp []) = Return content ->
  ready os tp subj rd ->
  attachments_ok os (attachment_handler app) atts = true ->
  exists r' evs attached msg,
    runs (send_to_recipient os app smtp_cfg email_cfg tp subj atts i rd r)
         t (Return r') evs
    /\ map Some attached
       = map (attachment_of os (attachment_handler app)) (attachment_paths atts)
    /\ map smtp_message (smtp_calls evs) = [Some msg]
    /\ bulk_message os smtp_cfg email_cfg content subj attached rd msg.
Proof.
  intros Hrenderer Hread [(content' & Hread' & Hjinja) Hemail] Hok.
  assert (content' = content) as -> by congruence. clear Hread'.
  unfold has_email in Hemail.
  destruct (PyDict.get rd email_key) as [a|] eqn:Hget; [|discriminate].
  destruct (template_renderer app) as [renderer|] eqn:Hsome; [|congruence].
  destruct (render_template_runs os tp rd t) as (oR & evsR & HrunR & HlogR & _ & Hcontent).
  specialize (Hcontent content Hread).
  assert (Hrendered : exists body subject,
             oR = Return body
             /\ rendering os content rd body
             /\ rendering os subj rd subject
             /\ runs (match jinja2 os with
                      | Some render =>
                          so_far <- history ;;
                          match render so_far subj rd with
                          | inl rendered => ret rendered
                          | inr e => raise (OtherException e)
                          end
                      | None => ret (basic_template_replace subj rd)
                      end) (t ++ evsR) (Return subject) []).
  { unfold rendering. destruct (jinja2 os) as [render|].
    - destruct (Hjinja t) as [(body & Hbody) _].
      destruct (Hjinja (t ++ evsR)) as [_ (subject & Hsubject)].
      rewrite Hbody in Hcontent. exists body, subject.
      split; [exact Hcontent|]. split; [eauto|]. split; [eauto|].
      unfold runs, bind, history. rewrite Hsubject. unfold ret. now rewrite app_nil_r.
    - eexists _, _. split; [exact Hcontent|]. split; [reflexivity|].
      split; [reflexivity | apply runs_ret]. }
  destruct Hrendered as (body & subject & -> & Hbody & Hsubject & Hsm).
  destruct (MessageFacts.send_email_hands_over os (attachment_handler app) smtp_cfg
              (smtp_username smtp_cfg) a [] subject body None atts
              (sender_name_of email_cfg) (t ++ evsR) Hok)
    as (o & mid & attached & Hrun & Hparts & Hcall & Ho).
  cbv zeta in Hcall, Ho.
  change (send_email os (attachment_handler app) smtp_cfg
            (smtp_username smtp_cfg) (ManyRecipients [a]) subject body None atts
            (sender_name_of email_cfg))
    with (send_email os (attachment_handler app) smtp_cfg
            (smtp_username smtp_cfg) (OneRecipient a) subject body None atts
            (sender_name_of email_cfg)) in Hrun.
  set (msg := {| msg_from := from_header (smtp_username smtp_cfg)
                               (sender_name_of email_cfg);
                 msg_to := PyStr.join ", " [a];
                 msg_subject := subject;
                 msg_parts := body_parts body None ++ attached |}) in *.
  assert (Hmsg : bulk_message os smtp_cfg email_cfg content subj attached rd msg).
  { exists body, subject. split; [exact Hbody|]. split; [exact Hsubject|].
    unfold msg, address. now rewrite (get_or_some _ _ _ Hget). }
  assert (Hquiet : forall tail, forallb is_log tail = true ->
             map smtp_message (smtp_calls (evsR ++ mid ++ tail)) = [Some msg]).
  { intros tail Htail.
    rewrite !smtp_calls_app, (logs_no_smtp _ HlogR), (logs_no_smtp _ Htail), Hcall.
    reflexivity. }
  unfold send_to_recipient, try_send. rewrite Hsome.
  destruct (smtp_failure_text _) as [text|]; subst o.
  - eexists _, (evsR ++ mid ++ _), attached, msg.
    split; [|split; [exact Hparts | split; [|exact Hmsg]]].
    + rewrite app_assoc. eapply runs_try_raise.
      * eapply runs_bind_ret; [apply HrunR|].
        eapply runs_bind_quiet; [exact Hsm|].
        unfold send_rendered. rewrite Hget. apply runs_bind_pure.
        eapply runs_bind_raise. exact Hrun.
      * apply record_failure_runs.
    + now apply Hquiet.
  - destruct (Nat.eqb (i mod 10) 0) eqn:Hten.
    + eexists _, (evsR ++ mid ++ [_] ++ []), attached, msg.
      split; [|split; [exact Hparts | split; [|exact Hmsg]]].
      * apply runs_try_ret.
        eapply runs_bind_ret; [apply HrunR|].
        eapply runs_bind_quiet; [exact Hsm|].
        unfold send_rendered. rewrite Hget. apply runs_bind_pure.
        eapply runs_bind_ret; [exact Hrun|]. rewrite Hten.
        eapply runs_bind_ret; [apply runs_emit | apply runs_ret].
      * now apply Hquiet.
    + eexists _, (evsR ++ mid ++ [] ++ []), attached, msg.
      split; [|split; [exact Hparts | split; [|exact Hmsg]]].
      * apply runs_try_ret.
        eapply runs_bind_ret; [apply HrunR|].
        eapply runs_bind_quiet; [exact Hsm|].
        unfold send_rendered. rewrite Hget. apply runs_bind_pure.
        eapply runs_bind_ret; [exact Hrun|]. rewrite Hten.
        eapply runs_bind_ret; [apply runs_ret | apply runs_ret].
      * now apply Hquiet.
Qed.

Lemma send_loop_messages (content : string) (recipients : list record)
    (attached : list mime_part) :
  template_renderer app <> None ->
  fst (read_text os tp []) = Return content ->
  Forall (ready os tp subj) recipients ->
  attachments_ok os (attachment_handler app) atts = true ->
  map Some attached
  = map (attachment_of os (attachment_handler app)) (attachment_paths atts) ->
  forall i r t,
  exists r' evs,
    runs (send_loop os app smtp_cfg email_cfg tp subj atts i recipients r)
         t (Return r') evs
    /\ Forall2 (fun rd e =>
                  exists msg,
                    smtp_message e = Some msg
                    /\ bulk_message os smtp_cfg email_cfg content subj attached rd msg)
               recipients (smtp_calls evs).
Proof.
  intros Hrenderer Hread Hall Hok Hparts.
  induction Hall as [|rd recipients Hrd Hall IH]; intros i r t.
  - exists r, []. split; [apply runs_ret | constructor].
  - destruct (send_to_recipient_message content i rd r t Hrenderer Hread Hrd Hok)
      as (r1 & e1 & attached' & msg & Hrun1 & Hparts' & Hq1 & Hmsg).
    assert (attached' = attached) as ->
      by (apply MessageFacts.map_Some_inj; congruence).
    destruct (IH (S i) r1 (t ++ e1)) as (r2 & e2 & Hrun2 & Hq2).
    exists r2, (e1 ++ e2). split.
    + cbn [send_loop]. eapply runs_bind_ret; eassumption.
    + rewrite smtp_calls_app.
      destruct (smtp_calls e1) as [|e [|e' rest]]; try discriminate.
      cbn [map] in Hq1. injection Hq1 as Hq1.
      cbn [List.app]. constructor; [|exact Hq2]. eauto.
Qed.

End Turn.

End BulkMessages.

Section BulkPersonal.

Import Run.
Local Open Scope list_scope.

Variable os : Env.

(** Every message of send_bulk_emails is made from the record of its own
    recipient: when the application has its renderer, template and
    subject render for every recipient, every record has an address and
    the attachments are fine, the server is used once for each
    recipient, in the order of the file, and the message has a rendering
    of the subject and of the text of the template file for the record
    of the recipient, is sent to its address under the sender name of
    the configuration, with the same attached files each time, whether
    the server takes it or not. *)
Theorem bulk_run_personalizes_each_message
    (app : EmailApplication)
    (csv_file template_file subject : option string)
    (attachments : option (list string)) (c : campaign)
    (recipients : list record) (t : trace) :
  campaign_of app csv_file template_file subject = Some c ->
  template_renderer app <> None ->
  loads os (campaign_csv c) recipients ->
  Forall (ready os (campaign_template c) (campaign_subject c)) recipients ->
  attachments_ok os (attachment_handler app) attachments = true ->
  exists r evs attached content,
    runs (send_bulk_emails os app csv_file template_file subject attachments)
         t (Return r) evs
    /\ map Some attached
       = map (attachment_of os (attachment_handler app)) (attachment_paths attachments)
    /\ fst (read_text os (campaign_template c) []) = Return content
    /\ Forall2 (fun rd e =>
                  exists msg,
                    smtp_message e = Some msg
                    /\ bulk_message os (campaign_smtp c) (campaign_email c) content
                         (campaign_subject c) attached rd msg)
               recipients (smtp_calls evs).
Proof.
  intros Hcampaign Hrenderer Hloads Hready Hok.
  assert (Hparts : exists attached,
             map Some attached
             = map (attachment_of os (attachment_handler app))
                   (attachment_paths attachments)).
  { destruct (MessageFacts.send_email_hands_over os (attachment_handler app)
                (campaign_smtp c) EmptyString EmptyString [] EmptyString EmptyString
                None attachments None [] Hok)
      as (_ & _ & attached & _ & Hparts & _).
    now exists attached. }
  destruct Hparts as (attached & Hparts).
  assert (Hcontent : exists content,
             fst (read_text os (campaign_template c) []) = Return content).
  { destruct (loads_runs os _ _ Hloads) as (_ & _ & _ & Hne).
    destruct Hready as [|rd l [(content & Hread & _) _] _]; [congruence|].
    now exists content. }
  destruct Hcontent as (content & Hread).
  destruct (send_bulk_emails_runs os app csv_file template_file subject
              attachments c recipients Hcampaign Hloads) as (before & Hlog0 & Hrun).
  destruct (BulkMessages.send_loop_messages os app (campaign_smtp c) (campaign_email c)
              _ _ attachments content recipients
              attached Hrenderer Hread Hready Hok Hparts 1
              {| total := List.length recipients; sent := 0; failed := 0;
                 errors := []; success := false |} (t ++ before))
    as (r & evs & Hloop & Hq).
  destruct (Hrun t r evs Hloop) as (after & Hlog1 & Hwhole).
  exists (set_success r), (before ++ evs ++ after), attached, content.
  split; [exact Hwhole|]. split; [exact Hparts|]. split; [exact Hread|].
  rewrite !smtp_calls_app, (logs_no_smtp _ Hlog0), (logs_no_smtp _ Hlog1), app_nil_r.
  exact Hq.
Qed.

End BulkPersonal.

(** The five recipients are ready in the world whose server refuses the
    third message too. *)
Lemma five_recipients_ready_for_news :
  Forall (ready Demo.world "template.txt" "News for {{name}}") Demo.five_recipients.
Proof.
  unfold Demo.five_recipients.
  repeat (apply Forall_cons;
          [split; [exists "Hello {{name}}"; split; [reflexivity | exact I]
                  | reflexivity]|]).
  apply Forall_nil.
Qed.

(** At an instance: the five recipients of [recipients.csv]; the server
    refuses the third message, which is made like the others. *)
Lemma bulk_run_personalizes_each_message_witness :
  exists r evs attached content,
    runs (send_bulk_emails Demo.world Demo.application None None None None)
         [] (Return r) evs
    /\ map Some attached = []
    /\ fst (read_text Demo.world "template.txt" []) = Return content
    /\ Forall2 (fun rd e =>
                  exists msg,
                    smtp_message e = Some msg
                    /\ bulk_message Demo.world Demo.server Demo.email_settings content
                         "News for {{name}}" attached rd msg)
               Demo.five_recipients (smtp_calls evs).
Proof.
  apply (bulk_run_personalizes_each_message Demo.world Demo.application
           None None None None Demo.news Demo.five_recipients []).
  - reflexivity.
  - discriminate.
  - reflexivity.
  - exact five_recipients_ready_for_news.
  - reflexivity.
Defined.

(* ===================================================================== *)
(** ** The counters of the worker *)
(* ===================================================================== *)

Module WorkerCounts.

Import Run.
Local Open Scope list_scope.

Lemma address_updated (email_column : string) (rd : record) :
  address (updated_recipient email_column rd) = selected_address email_column rd.
Proof.
  unfold address, updated_recipient, selected_address.
  unfold PyDict.get_or at 1. now rewrite DictFacts.get_set_same.
Qed.

Lemma filter_signals_of_logs (mid : list event) :
  forallb is_log_or_smtp mid = true -> filter is_email_sent mid = [].
Proof.
  induction mid as [|e mid IH]; [reflexivity|].
  cbn [forallb filter]. intros H. apply andb_true_iff in H. destruct H as [He H].
  destruct e; try discriminate; cbn; auto.
Qed.

Section Worker.

Variables (os : Env) (w : EmailWorker).

(** The call of [send_email] in the turn for a record. *)
Local Abbreviation send_for rd :=
  (send_email os (email_app_handler w) (email_app_smtp w)
     (smtp_username (email_app_smtp w))
     match PyDict.get rd email_key with
     | Some address => OneRecipient address
     | None => NoRecipient
     end
     (basic_template_replace (worker_subject w) rd)
     (basic_template_replace (template_content w) rd)
     None (Some (worker_attachments w)) None).

(** A turn of the worker, given what its call of [send_email] comes to. *)
Lemma worker_step_shape (n i : nat) (rd : record) (r : results) (t : trace)
    (o : outcome bool) (mid : list event) :
  runs (send_for rd)
       ((t ++ [ProgressUpdated (i + 1) n])
          ++ [StatusUpdated ("Sending to " ++ reported_as rd ++ "...")%string]) o mid ->
  exists r' last,
    runs (worker_step os w n i rd r) t (Return r')
         ([ProgressUpdated (i + 1) n]
            ++ [StatusUpdated ("Sending to " ++ reported_as rd ++ "...")%string]
            ++ mid ++ [last])
    /\ is_email_sent last = true
    /\ is_smtp last = false
    /\ signal_recipient last = reported_as rd
    /\ r' = match o with
            | Return true => count_sent r
            | Return false => count_failed r
            | Raise e => append_error (count_failed r) (exn_str e)
            end.
Proof.
  intros Hrun.
  set (p := ProgressUpdated (i + 1) n) in *.
  set (s := StatusUpdated ("Sending to " ++ reported_as rd ++ "...")%string) in *.
  unfold worker_step, worker_try, worker_except.
  destruct o as [[|]|e].
  - exists (count_sent r), (EmailSent (reported_as rd) true EmptyString).
    split; [|repeat split].
    apply runs_try_ret.
    eapply runs_bind_ret; [apply runs_emit|].
    eapply runs_bind_ret; [apply runs_emit|].
    eapply runs_bind_ret; [exact Hrun|].
    change [EmailSent (reported_as rd) true EmptyString]
      with ([EmailSent (reported_as rd) true EmptyString] ++ []).
    eapply runs_bind_ret; [apply runs_emit | apply runs_ret].
  - exists (count_failed r), (EmailSent (reported_as rd) false "Send failed").
    split; [|repeat split].
    apply runs_try_ret.
    eapply runs_bind_ret; [apply runs_emit|].
    eapply runs_bind_ret; [apply runs_emit|].
    eapply runs_bind_ret; [exact Hrun|].
    change [EmailSent (reported_as rd) false "Send failed"]
      with ([EmailSent (reported_as rd) false "Send failed"] ++ []).
    eapply runs_bind_ret; [apply runs_emit | apply runs_ret].
  - exists (append_error (count_failed r) (exn_str e)),
           (EmailSent (reported_as rd) false (exn_str e)).
    split; [|repeat split].
    replace ([p] ++ [s] ++ mid ++ [EmailSent (reported_as rd) false (exn_str e)])
      with (([p] ++ [s] ++ mid) ++ [EmailSent (reported_as rd) false (exn_str e)] ++ [])
      by now rewrite app_nil_r, <- !app_assoc.
    eapply runs_try_raise.
    + eapply runs_bind_ret; [apply runs_emit|].
      eapply runs_bind_ret; [apply runs_emit|].
      eapply runs_bind_raise. exact Hrun.
    + eapply runs_bind_ret; [apply runs_emit | apply runs_ret].
Qed.

(** A turn of the worker counts the recipient once: as sent if the use of
    the server went through, as failed with one more error text if not. *)
Lemma worker_step_counts (n i : nat) (rd : record) (r : results) (t : trace) :
  exists r' block,
    runs (worker_step os w n i rd r) t (Return r') block
    /\ total r' = total r
    /\ sent r' = sent r + List.length (deliveries block)
    /\ sent r' + failed r' = sent r + failed r + 1
    /\ List.length (errors r') + failed r = List.length (errors r) + failed r'
    /\ failed r + List.length (failed_uses block) <= failed r'.
Proof.
  destruct (CountFacts.send_email_outcome os (email_app_handler w) (email_app_smtp w)
              (smtp_username (email_app_smtp w))
              match PyDict.get rd email_key with
              | Some address => OneRecipient address
              | None => NoRecipient
              end
              (basic_template_replace (worker_subject w) rd)
              (basic_template_replace (template_content w) rd)
              None (Some (worker_attachments w)) None
              ((t ++ [ProgressUpdated (i + 1) n])
                 ++ [StatusUpdated ("Sending to " ++ reported_as rd ++ "...")%string]))
    as (o & mid & Hrun & _ & Hcalls & Hcase).
  destruct (worker_step_shape n i rd r t o mid Hrun)
    as (r' & last & Hstep & _ & Hlast & _ & Hr').
  exists r'. eexists. split; [exact Hstep|].
  assert (Hd : deliveries [last] = []).
  { apply CountFacts.no_calls_no_deliveries. cbn. now rewrite Hlast. }
  assert (Hf : failed_uses [last] = []).
  { apply CountFacts.no_calls_no_failed_uses. cbn. now rewrite Hlast. }
  pose proof (CountFacts.calls_split mid) as Hsplit.
  rewrite !CountFacts.deliveries_app, !CountFacts.failed_uses_app, Hd, Hf, !length_app.
  cbn [deliveries failed_uses filter is_delivery is_failed_use List.length].
  destruct Hcase as [(-> & Hone & _) | ((msg & ->) & Hnone & _)]; subst r'.
  - rewrite Hone in *. cbn [total sent failed errors count_sent]. repeat split; lia.
  - rewrite Hnone in *.
    cbn [total sent failed errors count_failed append_error List.length] in *.
    rewrite length_app. cbn [List.length]. repeat split; lia.
Qed.

Lemma worker_loop_counts (n : nat) (stop_called : nat -> bool)
    (recipients : list record) :
  forall i flag r t,
  exists r' evs,
    runs (worker_loop os w n stop_called i flag recipients r) t (Return r') evs
    /\ total r' = total r
    /\ sent r' = sent r + List.length (deliveries evs)
    /\ sent r' + failed r' <= sent r + failed r + List.length recipients
    /\ List.length (errors r') + failed r = List.length (errors r) + failed r'
    /\ failed r + List.length (failed_uses evs) <= failed r'.
Proof.
  induction recipients as [|rd recipients IH]; intros i flag r t.
  - exists r, []. split; [apply runs_ret|].
    cbn [deliveries failed_uses filter List.length]. repeat split; lia.
  - cbn [worker_loop]. destruct (flag || stop_called i).
    + exists r, []. split; [apply runs_ret|].
      cbn [deliveries failed_uses filter List.length]. repeat split; lia.
    + destruct (worker_step_counts n i rd r t)
        as (r1 & block & Hrun1 & Ht1 & Hs1 & Hc1 & He1 & Hf1).
      destruct (IH (S i) false r1 (t ++ block))
        as (r2 & evs & Hrun2 & Ht2 & Hs2 & Hc2 & He2 & Hf2).
      exists r2, (block ++ evs).
      split; [eapply runs_bind_ret; eassumption|].
      rewrite CountFacts.deliveries_app, CountFacts.failed_uses_app, !length_app.
      cbn [List.length].
      repeat split; lia.
Qed.

(** The turn for a record with an address, when the attachments are
    fine: the server is used once, for that address. *)
Lemma worker_step_attempts (n i : nat) (rd : record) (r : results) (t : trace) :
  has_email rd = true ->
  attachments_ok os (email_app_handler w) (Some (worker_attachments w)) = true ->
  exists r' block,
    runs (worker_step os w n i rd r) t (Return r') block
    /\ map smtp_recipient (smtp_calls block) = [address rd]
    /\ map signal_recipient (filter is_email_sent block) = [address rd]
    /\ sent r' + failed r' = sent r + failed r + 1.
Proof.
  intros Hemail Hok. unfold has_email in Hemail.
  destruct (PyDict.get rd email_key) as [a|] eqn:Hget; [|discriminate].
  destruct (send_email_one os (email_app_handler w) (email_app_smtp w)
              (smtp_username (email_app_smtp w)) a
              (basic_template_replace (worker_subject w) rd)
              (basic_template_replace (template_content w) rd)
              None (Some (worker_attachments w)) None
              ((t ++ [ProgressUpdated (i + 1) n])
                 ++ [StatusUpdated ("Sending to " ++ reported_as rd ++ "...")%string]))
    as (o & mid & Hrun & Hlog & _ & _ & Hhand).
  destruct (Hhand Hok) as (msg & Hto & Hcall & Ho).
  pose proof (worker_step_shape n i rd r t o mid) as Hshape.
  rewrite Hget in Hshape.
  destruct (Hshape Hrun) as (r' & last & Hstep & Hsig & Hlast & Hname & Hr').
  exists r'. eexists. split; [exact Hstep|].
  assert (Haddr : address rd = a) by (unfold address; now rewrite (get_or_some _ _ _ Hget)).
  assert (Hrep : reported_as rd = a)
    by (unfold reported_as; now rewrite (get_or_some _ _ _ Hget)).
  split; [|split].
  - rewrite !smtp_calls_app, Hcall.
    cbn [smtp_calls filter is_smtp List.app]. rewrite Hlast.
    cbn [map smtp_recipient List.app]. now rewrite Hto, Haddr.
  - rewrite !filter_app, (filter_signals_of_logs mid Hlog).
    cbn [filter is_email_sent List.app]. rewrite Hsig.
    cbn [map]. now rewrite Hname, Hrep, Haddr.
  - subst r'. cbv zeta in Ho. subst o.
    destruct (smtp_failure_text _);
      cbn [sent failed count_sent count_failed append_error]; lia.
Qed.

Lemma worker_loop_attempts (n : nat) (recipients : list record) :
  forallb has_email recipients = true ->
  attachments_ok os (email_app_handler w) (Some (worker_attachments w)) = true ->
  forall i r t,
  exists r' evs,
    runs (worker_loop os w n never_stopped i false recipients r) t (Return r') evs
    /\ map smtp_recipient (smtp_calls evs) = map address recipients
    /\ map signal_recipient (filter is_email_sent evs) = map address recipients
    /\ sent r' + failed r' = sent r + failed r + List.length recipients.
Proof.
  intros Hall Hok.
  induction recipients as [|rd recipients IH]; intros i r t.
  - exists r, []. split; [apply runs_ret|]. cbn. repeat split; lia.
  - cbn [forallb] in Hall. apply andb_true_iff in Hall. destruct Hall as [Hrd Hall].
    destruct (worker_step_attempts n i rd r t Hrd Hok)
      as (r1 & block & Hrun1 & Hq1 & Hg1 & Hc1).
    destruct (IH Hall (S i) r1 (t ++ block)) as (r2 & evs & Hrun2 & Hq2 & Hg2 & Hc2).
    exists r2, (block ++ evs). split.
    + cbn [worker_loop never_stopped orb]. eapply runs_bind_ret; eassumption.
    + rewrite smtp_calls_app, filter_app, !map_app, Hq1, Hq2, Hg1, Hg2.
      cbn [List.length map List.app]. repeat split; lia.
Qed.

(** The turn for a record with an address, when the attachments are
    fine: the message handed to the server. *)
Lemma worker_step_message (n i : nat) (rd : record) (r : results) (t : trace) :
  has_email rd = true ->
  attachments_ok os (email_app_handler w) (Some (worker_attachments w)) = true ->
  exists r' block attached,
    runs (worker_step os w n i rd r) t (Return r') block
    /\ map Some attached = map (attachment_of os (email_app_handler w)) (worker_attachments w)
    /\ map smtp_message (smtp_calls block) = [Some (worker_message w attached rd)].
Proof.
  intros Hemail Hok. unfold has_email in Hemail.
  destruct (PyDict.get rd email_key) as [a|] eqn:Hget; [|discriminate].
  destruct (MessageFacts.send_email_hands_over os (email_app_handler w) (email_app_smtp w)
              (smtp_username (email_app_smtp w)) a []
              (basic_template_replace (worker_subject w) rd)
              (basic_template_replace (template_content w) rd)
              None (Some (worker_attachments w)) None
              ((t ++ [ProgressUpdated (i + 1) n])
                 ++ [StatusUpdated ("Sending to " ++ reported_as rd ++ "...")%string]) Hok)
    as (o & mid & attached & Hrun & Hparts & Hcall & _).
  cbv zeta in Hcall.
  pose proof (worker_step_shape n i rd r t o mid) as Hshape.
  rewrite Hget in Hshape.
  destruct (Hshape Hrun) as (r' & last & Hstep & _ & Hlast & _).
  exists r'. eexists. exists attached. split; [exact Hstep|]. split; [exact Hparts|].
  rewrite !smtp_calls_app, Hcall.
  cbn [smtp_calls filter is_smtp List.app]. rewrite Hlast.
  cbn [map smtp_message List.app]. unfold worker_message, address.
  now rewrite (get_or_some _ _ _ Hget).
Qed.

Lemma worker_loop_messages (n : nat) (recipients : list record)
    (attached : list mime_part) :
  forallb has_email recipients = true ->
  attachments_ok os (email_app_handler w) (Some (worker_attachments w)) = true ->
  map Some attached = map (attachment_of os (email_app_handler w)) (worker_attachments w) ->
  forall i r t,
  exists r' evs,
    runs (worker_loop os w n never_stopped i false recipients r) t (Return r') evs
    /\ map smtp_message (smtp_calls evs)
       = map (fun rd => Some (worker_message w attached rd)) recipients.
Proof.
  intros Hall Hok Hparts.
  induction recipients as [|rd recipients IH]; intros i r t.
  - exists r, []. split; [apply runs_ret | reflexivity].
  - cbn [forallb] in Hall. apply andb_true_iff in Hall. destruct Hall as [Hrd Hall].
    destruct (worker_step_message n i rd r t Hrd Hok)
      as (r1 & block & attached' & Hrun1 & Hparts' & Hq1).
    assert (attached' = attached) as ->
      by (apply MessageFacts.map_Some_inj; congruence).
    destruct (IH Hall (S i) r1 (t ++ block)) as (r2 & evs & Hrun2 & Hq2).
    exists r2, (block ++ evs). split.
    + cbn [worker_loop never_stopped orb]. eapply runs_bind_ret; eassumption.
    + rewrite smtp_calls_app, map_app, Hq1, Hq2. reflexivity.
Qed.

End Worker.

End WorkerCounts.

Section WorkerOutcome.

Import Run.
Local Open Scope list_scope.

Variable os : Env.

(** The results the worker hands over with its finished signal add up,
    stopped or not: no more recipients are counted than there are, there
    is one error text for each failure, success says that nothing failed
    (also when the run was stopped before the last recipient), sent is
    the number of uses of the server that went through, and every use
    that did not, the ones whose connection failed to close after the
    server had the message among them, is among the failed. *)
Theorem worker_results_add_up
    (w : EmailWorker) (stop_called : nat -> bool) (t : trace) :
  exists r evs,
    runs (run_bulk_email os w stop_called) t (Return r) (evs ++ [Finished r])
    /\ total r = List.length (recipients_data w)
    /\ sent r + failed r <= total r
    /\ List.length (errors r) = failed r
    /\ success r = Nat.eqb (failed r) 0
    /\ sent r = List.length (deliveries evs)
    /\ List.length (failed_uses evs) <= failed r.
Proof.
  set (n := List.length (recipients_data w)).
  set (r0 := {| total := n; sent := 0; failed := 0; errors := []; success := false |}).
  destruct (WorkerCounts.worker_loop_counts os w n stop_called (recipients_data w) 0 false r0
              ((t ++ [StatusUpdated "Reading recipients..."]) ++ [ProgressUpdated 0 n]))
    as (r & evs & Hloop & Ht & Hs & Hc & He & Hf).
  exists (set_success r),
         ([StatusUpdated "Reading recipients..."] ++ [ProgressUpdated 0 n] ++ evs).
  split.
  - unfold run_bulk_email. fold n. fold r0.
    rewrite <- !app_assoc.
    eapply runs_bind_ret; [apply runs_emit|].
    eapply runs_bind_ret; [apply runs_emit|].
    eapply runs_bind_ret; [exact Hloop|].
    change [Finished (set_success r)] with ([Finished (set_success r)] ++ []).
    eapply runs_bind_ret; [apply runs_emit | apply runs_ret].
  - rewrite !CountFacts.deliveries_app, !CountFacts.failed_uses_app.
    cbn [total sent failed errors success set_success deliveries failed_uses filter
         is_delivery is_failed_use List.app List.length r0] in *.
    fold n. repeat split; lia.
Qed.

(** The main window files the value of the selected column under the key
    email of every record before it makes the worker.  With attachments
    that are fine and no stop, the worker then uses the server once for
    every record, in their order, each time for the value of the selected
    column, the empty string where the record has none, and reports each
    recipient under that value. *)
Theorem selected_column_addresses_every_message
    (w : EmailWorker) (email_column : string) (loaded : list record) (t : trace) :
  recipients_data w = updated_recipients email_column loaded ->
  attachments_ok os (email_app_handler w) (Some (worker_attachments w)) = true ->
  exists r evs,
    runs (run_bulk_email os w never_stopped) t (Return r) evs
    /\ map smtp_recipient (smtp_calls evs) = map (selected_address email_column) loaded
    /\ map signal_recipient (filter is_email_sent evs)
       = map (selected_address email_column) loaded
    /\ sent r + failed r = List.length loaded.
Proof.
  intros Hdata Hok.
  set (n := List.length (recipients_data w)).
  set (r0 := {| total := n; sent := 0; failed := 0; errors := []; success := false |}).
  assert (Hall : forallb has_email (recipients_data w) = true).
  { rewrite Hdata. apply forallb_forall. intros rd Hin.
    apply in_map_iff in Hin. destruct Hin as (x & <- & _).
    unfold has_email, updated_recipient.
    now rewrite DictFacts.get_set_same. }
  destruct (WorkerCounts.worker_loop_attempts os w n (recipients_data w) Hall Hok 0 r0
              ((t ++ [StatusUpdated "Reading recipients..."]) ++ [ProgressUpdated 0 n]))
    as (r & evs & Hloop & Hq & Hg & Hc).
  assert (Haddr : map address (recipients_data w)
                  = map (selected_address email_column) loaded).
  { rewrite Hdata. unfold updated_recipients. rewrite map_map.
    apply map_ext. intros rd. apply WorkerCounts.address_updated. }
  exists (set_success r),
         ([StatusUpdated "Reading recipients..."] ++ [ProgressUpdated 0 n] ++ evs
            ++ [Finished (set_success r)] ++ []).
  split; [|split; [|split]].
  - unfold run_bulk_email. fold n. fold r0.
    eapply runs_bind_ret; [apply runs_emit|].
    eapply runs_bind_ret; [apply runs_emit|].
    eapply runs_bind_ret; [exact Hloop|].
    eapply runs_bind_ret; [apply runs_emit | apply runs_ret].
  - rewrite !smtp_calls_app.
    cbn [smtp_calls filter is_smtp List.app]. rewrite app_nil_r, Hq. exact Haddr.
  - rewrite !filter_app.
    cbn [filter is_email_sent List.app]. rewrite app_nil_r, Hg. exact Haddr.
  - cbn [sent failed set_success]. rewrite Hc. cbn [sent failed r0].
    rewrite <- (length_map address), Haddr, length_map. lia.
Qed.

(** Every message of the worker is made from the record of its own
    recipient: when every record has an address, the attachments are
    fine and the run is not stopped, the messages handed to the server
    are, in the order of the records, the subject and the template filled
    with the record, sent to its address from the user name of the
    server, with the same attached files each time. *)
Theorem worker_personalizes_each_message (w : EmailWorker) (t : trace) :
  forallb has_email (recipients_data w) = true ->
  attachments_ok os (email_app_handler w) (Some (worker_attachments w)) = true ->
  exists r evs attached,
    runs (run_bulk_email os w never_stopped) t (Return r) evs
    /\ map Some attached = map (attachment_of os (email_app_handler w)) (worker_attachments w)
    /\ map smtp_message (smtp_calls evs)
       = map (fun rd => Some (worker_message w attached rd)) (recipients_data w).
Proof.
  intros Hall Hok.
  assert (Hparts : exists attached,
             map Some attached
             = map (attachment_of os (email_app_handler w)) (worker_attachments w)).
  { destruct (MessageFacts.send_email_hands_over os (email_app_handler w)
                (email_app_smtp w) EmptyString EmptyString [] EmptyString EmptyString
                None (Some (worker_attachments w)) None [] Hok)
      as (_ & _ & attached & _ & Hparts & _).
    now exists attached. }
  destruct Hparts as (attached & Hparts).
  set (n := List.length (recipients_data w)).
  set (r0 := {| total := n; sent := 0; failed := 0; errors := []; success := false |}).
  destruct (WorkerCounts.worker_loop_messages os w n (recipients_data w) attached
              Hall Hok Hparts 0 r0
              ((t ++ [StatusUpdated "Reading recipients..."]) ++ [ProgressUpdated 0 n]))
    as (r & evs & Hloop & Hq).
  exists (set_success r),
         ([StatusUpdated "Reading recipients..."] ++ [ProgressUpdated 0 n] ++ evs
            ++ [Finished (set_success r)] ++ []), attached.
  split; [|split; [exact Hparts|]].
  - unfold run_bulk_email. fold n. fold r0.
    eapply runs_bind_ret; [apply runs_emit|].
    eapply runs_bind_ret; [apply runs_emit|].
    eapply runs_bind_ret; [exact Hloop|].
    eapply runs_bind_ret; [apply runs_emit | apply runs_ret].
  - rewrite !smtp_calls_app.
    cbn [smtp_calls filter is_smtp List.app]. rewrite app_nil_r. exact Hq.
Qed.

End WorkerOutcome.

(** At an instance: three records, of which the second has no value in
    the selected column [work] and the third has a column [email] of its
    own, which the selected column replaces. *)
Lemma selected_column_addresses_every_message_witness :
  exists r evs,
    runs (run_bulk_email Office.world Office.worker never_stopped) [] (Return r) evs
    /\ map smtp_recipient (smtp_calls evs)
       = ["ann@example.org"; EmptyString; "cy@example.org"]
    /\ map signal_recipient (filter is_email_sent evs)
       = ["ann@example.org"; EmptyString; "cy@example.org"]
    /\ sent r + failed r = 3.
Proof.
  apply (selected_column_addresses_every_message Office.world Office.worker "work"
           Office.staff []); reflexivity.
Defined.


(** At an instance: the worker of the office, whose template and subject
    name the recipient. *)
Lemma worker_personalizes_each_message_witness :
  exists r evs attached,
    runs (run_bulk_email Office.world Office.worker never_stopped) [] (Return r) evs
    /\ map Some attached
       = map (attachment_of Office.world {| max_size_mb := 25 |}) ["template.txt"]
    /\ map smtp_message (smtp_calls evs)
       = map (fun rd => Some (worker_message Office.worker attached rd))
             (updated_recipients "work" Office.staff).
Proof.
  apply (worker_personalizes_each_message Office.world Office.worker []); reflexivity.
Defined.

(* ===================================================================== *)
(** ** How the components end *)
(* ===================================================================== *)

Section Endings.

Import Run.
Local Open Scope list_scope.

Variable os : Env.

(** read_recipients returns a list that is not empty, or raises CSVError
    with one of four texts: the file is not found, the encoding is not
    UTF-8, the csv module failed, or, for everything else, the text of
    the exception after "Error reading CSV file: ". *)
Theorem read_recipients_failure_messages (csv_file : string) (t : trace) :
  match fst (read_recipients os csv_file t) with
  | Return l => l <> []
  | Raise e =>
      exists msg,
        e = CSVError msg
        /\ (msg = ("CSV file not found: " ++ csv_file)%string
            \/ msg = "CSV file encoding error. Please ensure UTF-8 encoding."
            \/ (exists m, msg = ("CSV parsing error: " ++ m)%string)
            \/ (exists m, msg = ("Error reading CSV file: " ++ m)%string))
  end.
Proof.
  destruct (read_recipients_runs os csv_file) as (o & evs & Hrun & _ & _ & Hne).
  pose proof (Hrun t) as Ht. unfold runs in Ht. rewrite Ht. cbn [fst].
  destruct o as [l|e]; [now apply Hne|].
  clear Hrun Hne. unfold read_recipients in Ht.
  destruct (fs os csv_file).
  - unfold raise in Ht. inversion Ht. eexists. split; [reflexivity|]. left. reflexivity.
  - unfold try_except in Ht.
    destruct (read_csv os csv_file t) as [[l'|e'] t']; [discriminate|].
    destruct e'; unfold raise in Ht; cbn [csv_error_of] in Ht; inversion Ht;
      (eexists; split; [reflexivity|]);
      first [ right; left; reflexivity
            | right; right; left; eexists; reflexivity
            | right; right; right; eexists; reflexivity ].
  - unfold try_except in Ht.
    destruct (read_csv os csv_file t) as [[l'|e'] t']; [discriminate|].
    destruct e'; unfold raise in Ht; cbn [csv_error_of] in Ht; inversion Ht;
      (eexists; split; [reflexivity|]);
      first [ right; left; reflexivity
            | right; right; left; eexists; reflexivity
            | right; right; right; eexists; reflexivity ].
Qed.

(** A CSVError raised while the file is read is caught by the handler for
    any exception of the same method and raised again with its text after
    "Error reading CSV file: ": a file without header or without a valid
    row is reported with that prefix. *)
Theorem read_recipients_wraps_inner_errors (csv_file text msg : string) (t : trace) :
  fst (read_text os csv_file []) = Return text ->
  fst (parse_recipients os text []) = Raise (CSVError msg) ->
  fst (read_recipients os csv_file t)
  = Raise (CSVError ("Error reading CSV file: " ++ msg)).
Proof.
  intros Hread Hparse.
  assert (Hfs : fs os csv_file <> Absent).
  { intros E. unfold read_text in Hread. rewrite E in Hread. discriminate. }
  destruct (parse_recipients_runs os text) as (o2 & evs2 & Hrun2 & _).
  pose proof (Hrun2 []) as H2. unfold runs in H2. rewrite H2 in Hparse.
  cbn [fst] in Hparse. subst o2.
  pose proof (Hrun2 t) as Hb. unfold runs in Hb.
  unfold read_recipients. rewrite (read_csv_decoded os csv_file text Hread).
  destruct (fs os csv_file); [congruence| |];
    unfold try_except; rewrite Hb; reflexivity.
Qed.

(** render_template returns the rendering of the text of the file, by
    Jinja2 when it is there (what it gives at that moment) and by the
    basic replacement when not, or raises TemplateError; no other
    exception leaves it. *)
Theorem render_template_renders_the_file_or_TemplateError
    (template_path : string) (data : record) (t : trace) :
  match fst (render_template os template_path data t) with
  | Return rendered =>
      exists content,
        fst (read_text os template_path []) = Return content
        /\ match jinja2 os with
           | Some render => render t content data = inl rendered
           | None => rendered = basic_template_replace content data
           end
  | Raise e => exists msg, e = TemplateError msg
  end.
Proof.
  unfold render_template.
  destruct (fs os template_path) eqn:Hfs; [cbn; eauto| |].
  all: destruct (read_text_runs os template_path) as (o1 & Hrun1);
    pose proof (Hrun1 []) as H0; unfold runs in H0;
    pose proof (Hrun1 t) as Ht; unfold runs in Ht; rewrite app_nil_r in Ht;
    unfold bind, try_except at 1; rewrite Ht;
    destruct o1 as [content|e]; [|cbn; eauto];
    unfold try_except, bind, history;
    destruct (jinja2 os) as [render|];
    [ destruct (render t content data) as [rendered|e] eqn:Hr; cbn;
      [ exists content; rewrite H0; split; [reflexivity | exact Hr] | eauto ]
    | cbn; exists content; rewrite H0; split; reflexivity ].
Qed.

(** create_attachment returns a part only for a regular file that is
    read and is not above the limit (a file of exactly the limit is
    taken).  The part names the file by its base name and carries its
    bytes, decoded for a text type.  Otherwise EmailSendError is raised,
    or the ValueError of a content type without a slash. *)
Theorem create_attachment_part_or_error
    (h : AttachmentHandler) (file_path : string) (t : trace) :
  match fst (create_attachment os h file_path t) with
  | Return part =>
      exists size data,
        fs os file_path = Regular size (inl data)
        /\ (size <= max_size_bytes h)%Z
        /\ part_disposition part
           = Some ("attachment; filename="
                   ++ String PyStr.double_quote
                        (basename file_path ++ String PyStr.double_quote EmptyString))%string
        /\ part_payload part
           = match part_class part with
             | MIMEText => utf8_decode_replace os data
             | _ => data
             end
  | Raise e =>
      (exists msg, e = EmailSendError msg)
      \/ e = OtherException "not enough values to unpack (expected 2, got 1)"
  end.
Proof.
  unfold create_attachment.
  destruct (fs os file_path) as [| |size data] eqn:Hfs; [cbn; eauto | cbn; eauto |].
  destruct (max_size_bytes h <? size)%Z eqn:Hsize; [cbn; eauto|].
  apply Z.ltb_ge in Hsize.
  destruct (split_slash _) as [[main_type sub_type]|]; [|cbn; eauto].
  destruct data as [file_data|e]; [|cbn; eauto].
  unfold bind, emit, ret. cbn [fst].
  exists size, file_data. split; [reflexivity|]. split; [exact Hsize|].
  destruct (String.eqb main_type "text"); [split; reflexivity|].
  destruct (String.eqb main_type "image"); [split; reflexivity|].
  destruct (String.eqb main_type "audio"); split; reflexivity.
Qed.

End Endings.

(** At an instance: the template file read as a file of recipients has
    no header. *)
Lemma read_recipients_wraps_inner_errors_witness :
  fst (read_recipients Demo.world "template.txt" [])
  = Raise (CSVError
      "Error reading CSV file: CSV file appears to be empty or has no headers").
Proof.
  apply (read_recipients_wraps_inner_errors Demo.world "template.txt"
           "Hello {{name}}" "CSV file appears to be empty or has no headers" []).
  - reflexivity.
  - reflexivity.
Defined.


(* ===================================================================== *)
(** ** Loading the configuration *)
(* ===================================================================== *)

Module ConfigFacts.

Import ConfigurationManager.
Local Open Scope list_scope.

(** The recursive call of [_merge_config]. *)
Lemma merged_value_dicts (d u : PyDict.dict json) :
  merged_value (Some (JDict d)) (JDict u) = JDict (merge_config d u).
Proof.
  unfold merge_config. cbn [merged_value]. f_equal.
  revert d. induction u as [|[k v] u IH]; intros d; [reflexivity|].
  cbn [fold_left fst snd]. apply IH.
Qed.

(** The equation of the source: merge when both are dictionaries, take
    the value of the user otherwise. *)
Lemma merged_value_eq (current : option json) (value : json) :
  merged_value current value
  = match current, value with
    | Some (JDict d), JDict u => JDict (merge_config d u)
    | _, _ => value
    end.
Proof.
  destruct current as [[| | | | | |d]|], value; try reflexivity.
  apply merged_value_dicts.
Qed.

Lemma merge_config_cons (d : PyDict.dict json) (k : PyDict.key) (v : json)
    (u : PyDict.dict json) :
  merge_config d ((k, v) :: u)
  = merge_config (PyDict.set d k (merged_value (PyDict.get d k) v)) u.
Proof. reflexivity. Qed.

Lemma merge_config_get (u : PyDict.dict json) :
  forall (d : PyDict.dict json) (k : PyDict.key),
  NoDup (PyDict.keys u) ->
  PyDict.get (merge_config d u) k
  = match PyDict.get u k with
    | None => PyDict.get d k
    | Some v => Some (merged_value (PyDict.get d k) v)
    end.
Proof.
  induction u as [|[k0 v0] u IH]; intros d k Hnd; [reflexivity|].
  rewrite merge_config_cons.
  unfold PyDict.keys in Hnd. cbn [map fst] in Hnd. inversion Hnd as [|? ? Hnot Hnd']. subst.
  rewrite IH by exact Hnd'. cbn [PyDict.get].
  destruct (PyDict.key_eqb k0 k) eqn:E.
  - apply DictFacts.key_eqb_true in E. subst k0.
    rewrite (DictFacts.get_absent u k Hnot). apply DictFacts.get_set_same.
  - assert (Hne : k0 <> k).
    { intros ->. now rewrite DictFacts.key_eqb_refl in E. }
    now rewrite (DictFacts.get_set_other d k0 k _ Hne).
Qed.

(** A value that is truthy under a key is not missing after the merge
    with a default that is no dictionary. *)
Lemma not_missing_after_merge (d u : PyDict.dict json) (field : string) :
  NoDup (PyDict.keys u) ->
  missing u field = false ->
  (forall x, PyDict.get d (Some field) <> Some (JDict x)) ->
  missing (merge_config d u) field = false.
Proof.
  intros Hnd Hmiss Hscalar. unfold missing in *.
  rewrite (merge_config_get u d (Some field) Hnd).
  destruct (PyDict.get u (Some field)) as [v|]; [|discriminate].
  rewrite merged_value_eq.
  destruct (PyDict.get d (Some field)) as [[| | | | | |x]|]; try exact Hmiss.
  now destruct (Hscalar x).
Qed.

(** [_validate_config] raises ConfigurationError, or AttributeError when
    the value under [smtp] or under [files] is no dictionary. *)
Lemma validate_config_errors (config : PyDict.dict json) (e : exn) :
  validate_config config = Some e ->
  (exists msg, e = ConfigurationError msg)
  \/ (exists msg,
        e = AttributeError msg
        /\ exists name x,
             (name = "smtp" \/ name = "files")
             /\ PyDict.get config (Some name) = Some x
             /\ forall d, x <> JDict d).
Proof.
  unfold validate_config, section.
  destruct (PyDict.get config (Some "smtp")) as [x|] eqn:Hsmtp.
  - destruct x;
      try (intros [= <-]; right; eexists; split; [reflexivity|];
           exists "smtp"; eexists; split; [now left|]; split; [exact Hsmtp | discriminate]).
    destruct (PyDict.get config (Some "files")) as [y|] eqn:Hfiles.
    + destruct y;
        try (intros [= <-]; right; eexists; split; [reflexivity|];
             exists "files"; eexists; split; [now right|];
             split; [exact Hfiles | discriminate]).
      destruct (_ ++ _); [discriminate|]. intros [= <-]. left. eauto.
    + destruct (_ ++ _); [discriminate|]. intros [= <-]. left. eauto.
  - destruct (PyDict.get config (Some "files")) as [y|] eqn:Hfiles.
    + destruct y;
        try (intros [= <-]; right; eexists; split; [reflexivity|];
             exists "files"; eexists; split; [now right|];
             split; [exact Hfiles | discriminate]).
      destruct (_ ++ _); [discriminate|]. intros [= <-]. left. eauto.
    + destruct (_ ++ _); [discriminate|]. intros [= <-]. left. eauto.
Qed.

End ConfigFacts.

Section Configuration.

Import ConfigurationManager.
Local Open Scope list_scope.

(** _merge_config never loses a default: the keys of the defaults come
    first in the merged dictionary, in their order, and every key after
    them is a key of the user's dictionary. *)
Theorem merge_config_keeps_the_defaults (default user : PyDict.dict json) :
  exists added,
    PyDict.keys (merge_config default user) = PyDict.keys default ++ added
    /\ incl added (PyDict.keys user).
Proof.
  revert default. induction user as [|[k0 v0] u IH]; intros d.
  - exists []. split; [now rewrite app_nil_r | apply incl_nil_l].
  - rewrite ConfigFacts.merge_config_cons.
    destruct (IH (PyDict.set d k0 (merged_value (PyDict.get d k0) v0)))
      as (added2 & Hkeys2 & Hincl2).
    destruct (DictFacts.keys_set d k0 (merged_value (PyDict.get d k0) v0))
      as (added1 & Hkeys1 & Hincl1).
    exists (added1 ++ added2). split.
    + now rewrite Hkeys2, Hkeys1, app_assoc.
    + unfold PyDict.keys in *. cbn [map fst]. apply incl_app.
      * intros x Hx. apply Hincl1 in Hx. destruct Hx as [<-|[]]. now left.
      * intros x Hx. right. now apply Hincl2.
Qed.

(** What _merge_config leaves under a key: the default when the user has
    no such key; the merge of the two when both hold a dictionary there;
    the value of the user otherwise. *)
Theorem merge_config_lookup (default user : PyDict.dict json) (key : PyDict.key) :
  NoDup (PyDict.keys user) ->
  PyDict.get (merge_config default user) key
  = match PyDict.get user key with
    | None => PyDict.get default key
    | Some value =>
        Some match PyDict.get default key, value with
             | Some (JDict d), JDict u => JDict (merge_config d u)
             | _, _ => value
             end
    end.
Proof.
  intros Hnd. rewrite (ConfigFacts.merge_config_get user default key Hnd).
  destruct (PyDict.get user key) as [v|]; [|reflexivity].
  now rewrite ConfigFacts.merged_value_eq.
Qed.

(** The defaults complete a configuration that gives the three
    credentials of the server and leaves the port and the files alone:
    merged with DEFAULT_CONFIG it passes _validate_config. *)
Theorem defaults_complete_the_credentials (user smtp : PyDict.dict json) :
  NoDup (PyDict.keys user) ->
  NoDup (PyDict.keys smtp) ->
  PyDict.get user (Some "smtp") = Some (JDict smtp) ->
  missing smtp "server" = false ->
  missing smtp "username" = false ->
  missing smtp "password" = false ->
  PyDict.get smtp (Some "port") = None ->
  PyDict.get user (Some "files") = None ->
  validate_config (merge_config DEFAULT_CONFIG user) = None.
Proof.
  intros Hu Hs Hsmtp Hserver Husername Hpassword Hport Hfiles.
  unfold validate_config, section.
  rewrite !(ConfigFacts.merge_config_get user DEFAULT_CONFIG _ Hu), Hsmtp, Hfiles.
  rewrite ConfigFacts.merged_value_eq.
  cbn [DEFAULT_CONFIG PyDict.get PyDict.key_eqb String.eqb Ascii.eqb Bool.eqb].
  set (d := [(Some "server", JStr EmptyString); (Some "port", JInt 587);
             (Some "username", JStr EmptyString); (Some "password", JStr EmptyString);
             (Some "use_tls", JBool true); (Some "use_ssl", JBool false);
             (Some "timeout", JInt 30)]).
  assert (Hscalar : forall field x, PyDict.get d (Some field) <> Some (JDict x)).
  { intros field x. unfold d. cbn [PyDict.get].
    repeat (destruct (PyDict.key_eqb _ (Some field)); [discriminate|]). discriminate. }
  unfold smtp_errors. cbn [flat_map].
  rewrite !(ConfigFacts.not_missing_after_merge d smtp) by auto.
  rewrite (ConfigFacts.merge_config_get smtp d _ Hs), Hport.
  reflexivity.
Qed.

End Configuration.

(** At an instance: the user sets the port and adds a key of their own. *)
Lemma merge_config_lookup_witness :
  PyDict.get
    (ConfigurationManager.merge_config ConfigurationManager.DEFAULT_CONFIG
       [(Some "smtp", JDict [(Some "port", JInt 465)]); (Some "note", JStr "x")])
    (Some "smtp")
  = Some (JDict
      (ConfigurationManager.merge_config
         [(Some "server", JStr EmptyString); (Some "port", JInt 587);
          (Some "username", JStr EmptyString); (Some "password", JStr EmptyString);
          (Some "use_tls", JBool true); (Some "use_ssl", JBool false);
          (Some "timeout", JInt 30)]
         [(Some "port", JInt 465)])).
Proof.
  apply (merge_config_lookup ConfigurationManager.DEFAULT_CONFIG
           [(Some "smtp", JDict [(Some "port", JInt 465)]); (Some "note", JStr "x")]
           (Some "smtp")).
  repeat constructor; cbn; intuition discriminate.
Defined.

(** At an instance: a file that gives the server and the two
    credentials. *)
Lemma defaults_complete_the_credentials_witness :
  ConfigurationManager.validate_config
    (ConfigurationManager.merge_config ConfigurationManager.DEFAULT_CONFIG
       [(Some "smtp", JDict [(Some "server", JStr "smtp.example.org");
                             (Some "username", JStr "team@example.org");
                             (Some "password", JStr "secret")])])
  = None.
Proof.
  apply (defaults_complete_the_credentials
           [(Some "smtp", JDict [(Some "server", JStr "smtp.example.org");
                                 (Some "username", JStr "team@example.org");
                                 (Some "password", JStr "secret")])]
           [(Some "server", JStr "smtp.example.org");
            (Some "username", JStr "team@example.org");
            (Some "password", JStr "secret")]).
  - repeat constructor; cbn; intuition discriminate.
  - repeat constructor; cbn; intuition discriminate.
  - reflexivity.
  - reflexivity.
  - reflexivity.
  - reflexivity.
  - reflexivity.
  - reflexivity.
Defined.

Section ManagerLoading.

Import ConfigurationManager.
Local Open Scope list_scope.

Variable os : Env.
Variable json_load : string -> json_parse.

(** ConfigurationManager.load_config returns only a configuration that
    passes the validation and is the merge of DEFAULT_CONFIG with the
    object of the file, and logs that once.  It raises ConfigurationError
    for a file that is missing, unreadable or no JSON and for a failed
    validation, but AttributeError, which is no ConfigurationError, when
    the value of the file, or the smtp or files value after the merge, is
    not an object. *)
Theorem load_config_outcome (config_file : string) :
  match load_config os json_load config_file with
  | (inr config, logged) =>
      logged = [Log INFO ("Configuration loaded from " ++ config_file)%string]
      /\ validate_config config = None
      /\ exists user, read_config os json_load config_file = inr (JDict user)
                      /\ config = merge_config DEFAULT_CONFIG user
  | (inl (ConfigurationError _), logged) => logged = []
  | (inl (AttributeError _), logged) =>
      logged = []
      /\ exists v, read_config os json_load config_file = inr v
                   /\ match v with
                      | JDict user =>
                          exists name x,
                            (name = "smtp" \/ name = "files")
                            /\ PyDict.get (merge_config DEFAULT_CONFIG user) (Some name)
                               = Some x
                            /\ forall d, x <> JDict d
                      | _ => True
                      end
  | (inl _, _) => False
  end.
Proof.
  unfold load_config.
  assert (Hread : forall e, read_config os json_load config_file = inl e ->
                            exists msg, e = ConfigurationError msg).
  { unfold read_config. intros e.
    destruct (fs os config_file) as [| |size [bytes|text]];
      try (intros [= <-]; eauto).
    destruct (utf8_decode os bytes) as [text|text]; [|intros [= <-]; eauto].
    destruct (json_load text); intros [= <-]; eauto. }
  assert (Hmain :
    match
      match read_config os json_load config_file with
      | inl e => (inl e, [])
      | inr (JDict user_config) =>
          match validate_config (merge_config DEFAULT_CONFIG user_config) with
          | Some e => (inl e, [])
          | None =>
              (inr (merge_config DEFAULT_CONFIG user_config),
               [Log INFO ("Configuration loaded from " ++ config_file)%string])
          end
      | inr v =>
          (inl (AttributeError
                  ("'" ++ type_name v ++ "' object has no attribute 'items'")%string), [])
      end
    with
    | (inr config, logged) =>
        logged = [Log INFO ("Configuration loaded from " ++ config_file)%string]
        /\ validate_config config = None
        /\ exists user, read_config os json_load config_file = inr (JDict user)
                        /\ config = merge_config DEFAULT_CONFIG user
    | (inl (ConfigurationError _), logged) => logged = []
    | (inl (AttributeError _), logged) =>
        logged = []
        /\ exists v, read_config os json_load config_file = inr v
                     /\ match v with
                        | JDict user =>
                            exists name x,
                              (name = "smtp" \/ name = "files")
                              /\ PyDict.get (merge_config DEFAULT_CONFIG user) (Some name)
                                 = Some x
                              /\ forall d, x <> JDict d
                        | _ => True
                        end
    | (inl _, _) => False
    end).
  { destruct (read_config os json_load config_file) as [e|v] eqn:Hr.
    - destruct (Hread e eq_refl) as (msg & ->). reflexivity.
    - destruct v as [| | | | | |user];
        try (split; [reflexivity|]; eexists; split; [reflexivity | exact I]).
      destruct (validate_config (merge_config DEFAULT_CONFIG user)) as [e|] eqn:Hv.
      + destruct (ConfigFacts.validate_config_errors _ _ Hv)
          as [(msg & ->) | (msg & -> & Hsection)]; [reflexivity|].
        split; [reflexivity|]. exists (JDict user). split; [reflexivity | exact Hsection].
      + split; [reflexivity|]. split; [exact Hv|]. exists user. split; reflexivity. }
  destruct (fs os config_file); [reflexivity | exact Hmain | exact Hmain].
Qed.

End ManagerLoading.

Section ApplicationLoading.

Local Open Scope list_scope.

Variable os : Env.
Variable json_load : string -> json_parse.
Variable jinja_environment : json -> option string.

(** EmailApplication.load_config never returns: when the manager has
    accepted the file, the call of dict.get with three arguments raises
    TypeError (unless making the template renderer has raised before).
    The configuration the manager returned is stored by then, and the
    limit of the attachment handler is never changed. *)
Theorem application_load_config_always_raises
    (config_file : string) (app : application_attributes) :
  exists e app' logged,
    application_load_config os json_load jinja_environment config_file app
    = (inl e, app', logged)
    /\ attr_max_size_bytes app' = attr_max_size_bytes app
    /\ match fst (ConfigurationManager.load_config os json_load config_file) with
       | inl e' => e = e' /\ app' = app
       | inr config =>
           attr_config app' = Some config
           /\ (e = TypeError "get expected at most 2 arguments, got 3"
               \/ exists text, e = OtherException text)
       end.
Proof.
  unfold application_load_config.
  destruct (ConfigurationManager.load_config os json_load config_file)
    as [[e|config] logged]; cbn [fst].
  - exists e, app, logged. auto.
  - destruct (make_template_renderer os jinja_environment _) as [text|].
    + eexists _, _, logged. split; [reflexivity|]. cbn. eauto.
    + eexists _, _, logged. split; [reflexivity|]. cbn. auto.
Qed.

End ApplicationLoading.


(* ===================================================================== *)
(** ** The test message *)
(* ===================================================================== *)

Section TestMessageRun.

Import Run.
Local Open Scope list_scope.

Variable os : Env.

(** With a configuration that has its sections smtp and email,
    send_test_email never raises: it uses the server once, for a message
    to the address given, else to the test address of the configuration,
    else to the user name of the server, and returns True when the use of
    the server went through and False when it did not, also when the
    server has the message and the connection failed to close.  It
    raises before anything is done when the attribute config was never
    assigned (AttributeError), when the configuration is empty
    (EmailAppError) or lacks one of the two sections (KeyError). *)
Theorem send_test_email_returns_what_the_server_did
    (app : EmailApplication) (timestamp : string) (test_recipient : option string)
    (t : trace) :
  exists o evs,
    runs (send_test_email os app timestamp test_recipient) t o evs
    /\ match config app with
       | Unassigned =>
           o = Raise (AttributeError "'EmailApplication' object has no attribute 'config'")
           /\ evs = []
       | Falsy => o = Raise (EmailAppError "No configuration loaded") /\ evs = []
       | Assigned cfg =>
           match cfg_smtp cfg, cfg_email cfg with
           | None, _ => o = Raise (KeyError "smtp") /\ evs = []
           | Some _, None => o = Raise (KeyError "email") /\ evs = []
           | Some smtp_cfg, Some email_cfg =>
               exists msg,
                 let res := smtp os (List.length (smtp_calls t)) smtp_cfg msg in
                 o = Return match smtp_failure_text res with
                            | None => true
                            | Some _ => false
                            end
                 /\ smtp_calls evs = [Smtp smtp_cfg msg res]
                 /\ msg_to msg = test_address smtp_cfg email_cfg test_recipient
                 /\ msg_subject msg = ("Email Application Test - " ++ timestamp)%string
           end
       end.
Proof.
  unfold send_test_email.
  destruct (config app) as [| |cfg].
  - eexists _, []. split; [apply runs_raise | split; reflexivity].
  - eexists _, []. split; [apply runs_raise | split; reflexivity].
  - destruct (cfg_smtp cfg) as [smtp_cfg|].
    2:{ eexists _, []. split; [eapply runs_bind_raise, runs_raise | split; reflexivity]. }
    destruct (cfg_email cfg) as [email_cfg|].
    2:{ eexists _, [].
        split; [apply runs_bind_pure; eapply runs_bind_raise, runs_raise
               | split; reflexivity]. }
    cbv zeta.
    set (recipient := test_address smtp_cfg email_cfg test_recipient).
    set (name := match email_sender_name email_cfg with
                 | Some value => value
                 | None => Some "Email Application Test"
                 end).
    destruct (MessageFacts.send_email_hands_over os (attachment_handler app) smtp_cfg
                (smtp_username smtp_cfg) recipient []
                ("Email Application Test - " ++ timestamp)%string
                (test_body smtp_cfg timestamp) None None name t eq_refl)
      as (o & mid & attached & Hrun & _ & Hcall & Ho).
    cbv zeta in Hcall, Ho.
    set (msg := {| msg_from := from_header (smtp_username smtp_cfg) name;
                   msg_to := PyStr.join ", " [recipient];
                   msg_subject := ("Email Application Test - " ++ timestamp)%string;
                   msg_parts := body_parts (test_body smtp_cfg timestamp) None
                                ++ attached |}) in *.
    change (send_email os (attachment_handler app) smtp_cfg
              (smtp_username smtp_cfg) (ManyRecipients [recipient])
              ("Email Application Test - " ++ timestamp)%string
              (test_body smtp_cfg timestamp) None None name)
      with (send_email os (attachment_handler app) smtp_cfg
              (smtp_username smtp_cfg) (OneRecipient recipient)
              ("Email Application Test - " ++ timestamp)%string
              (test_body smtp_cfg timestamp) None None name) in Hrun.
    exists (Return match smtp_failure_text
                           (smtp os (List.length (smtp_calls t)) smtp_cfg msg) with
                   | None => true
                   | Some _ => false
                   end),
           (mid ++ [Log (match smtp_failure_text
                                 (smtp os (List.length (smtp_calls t)) smtp_cfg msg) with
                         | None => INFO
                         | Some _ => ERROR
                         end)
                        (match smtp_failure_text
                                 (smtp os (List.length (smtp_calls t)) smtp_cfg msg) with
                         | None => "TEST EMAIL " ++ check_mark ++ " - Sent to: " ++ recipient
                         | Some text =>
                             "TEST EMAIL " ++ ballot_cross ++ " - Failed to: " ++ recipient
                             ++ " - Error: " ++ "SMTP error: " ++ text
                         end)%string] ++ []).
    split.
    + apply runs_bind_pure. apply runs_bind_pure.
      destruct (smtp_failure_text _) as [text|]; subst o.
      * eapply runs_try_raise; [eapply runs_bind_raise; exact Hrun|].
        eapply runs_bind_ret; [apply runs_emit | apply runs_ret].
      * apply runs_try_ret.
        eapply runs_bind_ret; [exact Hrun|].
        eapply runs_bind_ret; [apply runs_emit | apply runs_ret].
    + exists msg. cbv zeta. split; [reflexivity|]. split; [|split; reflexivity].
      rewrite !smtp_calls_app, Hcall. reflexivity.
Qed.

End TestMessageRun.

(** At an instance: no address is given and the configuration has no
    test address, so the message goes to the user name of the server. *)
Lemma send_test_email_returns_what_the_server_did_witness :
  exists evs msg,
    runs (send_test_email Office.world Demo.application "2024-01-01 12:00:00" None)
         [] (Return true) evs
    /\ smtp_calls evs = [Smtp Demo.server msg Delivered]
    /\ msg_to msg = "team@example.org"
    /\ msg_subject msg = "Email Application Test - 2024-01-01 12:00:00".
Proof.
  destruct (send_test_email_returns_what_the_server_did Office.world Demo.application
              "2024-01-01 12:00:00" None [])
    as (o & evs & Hrun & msg & -> & Hcall & Hto & Hsubject).
  exists evs, msg. split; [exact Hrun|]. split; [exact Hcall|].
  split; [exact Hto | exact Hsubject].
Defined.

(** The server takes the test message and fails to close the connection:
    the success is logged, then the failure, and the test is reported as
    failed. *)
Example send_test_email_after_exit_failure :
  send_test_email Demo.world_closing_badly Demo.application "2024-01-01 12:00:00"
    (Some "ann@example.org") []
  = (Return false,
     [Log INFO "Sending email to: ann@example.org";
      LogSmtpConnection "smtp.example.org" 587 "team@example.org";
      Smtp Demo.server
        {| msg_from := "Newsletter Team <team@example.org>";
           msg_to := "ann@example.org";
           msg_subject := "Email Application Test - 2024-01-01 12:00:00";
           msg_parts := [text_part "plain"
                           (test_body Demo.server "2024-01-01 12:00:00")] |}
        (ExitFailed "(421, b'closing')");
      LogEmailSuccess "ann@example.org" "Email Application Test - 2024-01-01 12:00:00" 0;
      LogEmailFailure "ann@example.org" "(421, b'closing')"
        "Email Application Test - 2024-01-01 12:00:00";
      Log ERROR ("TEST EMAIL " ++ ballot_cross
                 ++ " - Failed to: ann@example.org - Error: SMTP error: (421, b'closing')")]).
Proof. vm_compute. reflexivity. Qed.

(* ===================================================================== *)
(** ** The selector of the e-mail column *)
(* ===================================================================== *)

Module SelectorFacts.

Local Open Scope list_scope.

Lemma prefix_contains (s p : string) :
  String.prefix p s = true -> PyStr.contains s p = true.
Proof. intros H. destruct s; cbn [PyStr.contains]; now rewrite H. Qed.

(** Where a text occurs, the text without its first character occurs
    too. *)
Lemma contains_tail (a : ascii) (p s : string) :
  PyStr.contains s (String a p) = true -> PyStr.contains s p = true.
Proof.
  induction s as [|c s IH]; intros H.
  - cbn [PyStr.contains String.prefix] in H. discriminate.
  - cbn [PyStr.contains] in H |- *.
    destruct (String.prefix p (String c s)); [reflexivity|].
    destruct (String.prefix (String a p) (String c s)) eqn:Hpre.
    + cbn [String.prefix] in Hpre. destruct (ascii_dec a c); [|discriminate].
      now apply prefix_contains.
    + now apply IH.
Qed.

Lemma find_filter {A : Type} (q : A -> bool) (l : list A) :
  find q l = hd_error (filter q l).
Proof.
  induction l as [|x l IH]; [reflexivity|].
  cbn [find filter]. destruct (q x); [reflexivity | exact IH].
Qed.

Lemma findText_first (items : list string) (text : string) :
  In text items ->
  exists index, findText items text = Some index
                /\ nth index items EmptyString = text.
Proof.
  induction items as [|item items IH]; [intros []|].
  intros Hin. cbn [findText].
  destruct (String.eqb item text) eqn:E.
  - exists 0. apply String.eqb_eq in E. now subst.
  - destruct Hin as [->|Hin]; [now rewrite String.eqb_refl in E|].
    destruct (IH Hin) as (index & -> & Hnth). exists (S index). now split.
Qed.

End SelectorFacts.

(** After update_columns the selected column is the first column whose
    name, in lower case, contains "mail", and the first column when
    there is none; the test for "email" adds nothing.  For an empty list
    of columns the selection is the empty string. *)
Theorem selector_picks_first_mail_column (columns : list string) :
  get_selected_column columns
  = match find (fun col => PyStr.contains (lower col) "mail") columns with
    | Some col => col
    | None => hd EmptyString columns
    end.
Proof.
  unfold get_selected_column, update_columns, email_candidates.
  rewrite (filter_ext
             (fun col => PyStr.contains (lower col) "email"
                         || PyStr.contains (lower col) "mail")
             (fun col => PyStr.contains (lower col) "mail")).
  2: { intros col. destruct (PyStr.contains (lower col) "email") eqn:E; [|reflexivity].
       cbn [orb]. symmetry. now apply (SelectorFacts.contains_tail "e"). }
  rewrite SelectorFacts.find_filter.
  destruct columns as [|first rest]; [reflexivity|].
  destruct (filter _ (first :: rest)) as [|candidate others] eqn:Hf; [reflexivity|].
  cbn [hd_error].
  assert (Hin : In candidate (first :: rest)).
  { apply (filter_In (fun col => PyStr.contains (lower col) "mail")).
    rewrite Hf. now left. }
  destruct (SelectorFacts.findText_first _ _ Hin) as (index & -> & Hnth).
  exact Hnth.
Qed.
